(** * Neural style transfer: a Rocq model of the bot and of the model service

    The repository is made of two applications.

    - [bot_app]: a Telegram bot (aiogram 2) that walks the user through
      the form [choose_style -> send_style_image -> send_content_images ->
      await_model_response], with two middlewares (throttling and media
      group gathering).
    - [model_app]: a Flask service with the [/transfer] view, which either
      runs the neural style algorithm or a pretrained GAN model, and the
      [/examples] view; with them the loss modules, the builder of the
      model of the neural style algorithm and the image pool of the
      training code.

    The first part of this file embeds the code, function by function and
    with the names of the sources; the second part states and proves its
    properties. *)

From Stdlib Require Import NArith ZArith List Bool Lia.
From Stdlib Require Import Strings.Byte Strings.Ascii Strings.String.
From Stdlib Require QArith Qcanon Floats.SpecFloat.
From stdpp Require Import base option list gmap strings.

Local Open Scope N_scope.

(* ================================================================== *)
(** * Part I: the embedding                                             *)
(* ================================================================== *)

(** ** Python values shared by both applications *)

(** A Python [bytes] object. *)
Abbreviation bytes := (list byte).

(** A byte as an unsigned 8 bit number, and back with C's truncation. *)
Definition byte_of_N (n : N) : byte :=
  match Byte.of_N (n mod 256) with
  | Some b => b
  | None => "000"%byte
  end.

(** [io.BytesIO]: the contents and the stream position. *)
Record BytesIO := mkBytesIO { getvalue : bytes; tell : nat }.

(** [BytesIO(initial)]: the position starts at 0. *)
Definition BytesIO_new (initial : bytes) : BytesIO := mkBytesIO initial 0.

(** [buffer.seek(0)]. *)
Definition seek0 (b : BytesIO) : BytesIO := mkBytesIO (getvalue b) 0.

(** [buffer.read()]: everything from the position to the end; the
    position moves to the end (it stays where it is when it was already
    past the end). *)
Definition read (b : BytesIO) : bytes * BytesIO :=
  (drop (tell b) (getvalue b),
   mkBytesIO (getvalue b) (Nat.max (tell b) (length (getvalue b)))).

(** ** The standard library's [base64] and [binascii] modules

    [base64.encodebytes] and [base64.decodebytes] are the two library
    functions the image helpers call.  They are modelled after CPython:
    [encodebytes] cuts its input in pieces of [MAXBINSIZE = 57] bytes and
    emits [binascii.b2a_base64] of every piece (76 characters and a
    newline); [decodebytes] is [binascii.a2b_base64] in its default, not
    strict, mode. *)
Module Base64.

Definition table_b2a_base64 : bytes :=
  list_byte_of_string
    "ABCDEFGHIJKLMNOPQRSTUVWXYZabcdefghijklmnopqrstuvwxyz0123456789+/".

Definition BASE64_PAD : byte := "="%byte.
Definition NEWLINE : byte := "010"%byte.
Definition MAXBINSIZE : nat := 57.

(** [table_b2a_base64[v]] for a six bit value [v]. *)
Definition b2a_char (v : N) : byte :=
  nth (N.to_nat v) table_b2a_base64 BASE64_PAD.

(** [table_a2b_base64[ch]]: the six bit value of an alphabet character,
    [None] where the C table holds a value of 64 or more. *)
Fixpoint index_of (ch : byte) (tbl : bytes) (i : N) : option N :=
  match tbl with
  | [] => None
  | c :: tbl' => if Byte.eqb ch c then Some i else index_of ch tbl' (N.succ i)
  end.

Definition a2b_char (ch : byte) : option N := index_of ch table_b2a_base64 0.

(** The body of [binascii.b2a_base64] without the final newline: three
    bytes give four characters; one or two left over bytes give two or
    three characters and the padding. *)
Fixpoint b2a_groups (data : bytes) : bytes :=
  match data with
  | [] => []
  | [a] =>
      let a := Byte.to_N a in
      [b2a_char (N.shiftr a 2); b2a_char (N.shiftl (N.land a 3) 4);
       BASE64_PAD; BASE64_PAD]
  | [a; b] =>
      let a := Byte.to_N a in
      let b := Byte.to_N b in
      [b2a_char (N.shiftr a 2);
       b2a_char (N.lor (N.shiftl (N.land a 3) 4) (N.shiftr b 4));
       b2a_char (N.shiftl (N.land b 15) 2);
       BASE64_PAD]
  | a :: b :: c :: rest =>
      let a := Byte.to_N a in
      let b := Byte.to_N b in
      let c := Byte.to_N c in
      b2a_char (N.shiftr a 2)
      :: b2a_char (N.lor (N.shiftl (N.land a 3) 4) (N.shiftr b 4))
      :: b2a_char (N.lor (N.shiftl (N.land b 15) 2) (N.shiftr c 6))
      :: b2a_char (N.land c 63)
      :: b2a_groups rest
  end.

(** [binascii.b2a_base64(data)], with its newline. *)
Definition b2a_base64 (data : bytes) : bytes := b2a_groups data ++ [NEWLINE].

(** The pieces [s[i : i + MAXBINSIZE]] for [i] in
    [range(0, len(s), MAXBINSIZE)]; [n] bounds the number of pieces. *)
Fixpoint pieces (n : nat) (s : bytes) : list bytes :=
  match n, s with
  | O, _ => []
  | _, [] => []
  | S n', _ => take MAXBINSIZE s :: pieces n' (drop MAXBINSIZE s)
  end.

(** [base64.encodebytes(s)]. *)
Definition encodebytes (s : bytes) : bytes :=
  concat (map b2a_base64 (pieces (length s) s)).

(** The loop of [binascii.a2b_base64]: [quad_pos] counts the characters
    of the current group of four, [leftchar] holds the bits not yet
    written, [pads] the padding characters seen in a row.  A character
    outside the alphabet is skipped; a complete padding sequence ends
    the decoding ([goto done]); input that stops inside a group raises
    [binascii.Error], here [None]. *)
Fixpoint a2b_loop (quad_pos leftchar pads : N) (ascii_data : bytes)
  : option bytes :=
  match ascii_data with
  | [] => if quad_pos =? 0 then Some [] else None
  | this_ch :: rest =>
      if Byte.eqb this_ch BASE64_PAD then
        if 2 <=? quad_pos then
          if 4 <=? quad_pos + (pads + 1) then Some []
          else a2b_loop quad_pos leftchar (pads + 1) rest
        else a2b_loop quad_pos leftchar pads rest
      else
        match a2b_char this_ch with
        | None => a2b_loop quad_pos leftchar pads rest
        | Some v =>
            match quad_pos with
            | 0 => a2b_loop 1 v 0 rest
            | 1 =>
                cons (byte_of_N (N.lor (N.shiftl leftchar 2) (N.shiftr v 4)))
                  <$> a2b_loop 2 (N.land v 15) 0 rest
            | 2 =>
                cons (byte_of_N (N.lor (N.shiftl leftchar 4) (N.shiftr v 2)))
                  <$> a2b_loop 3 (N.land v 3) 0 rest
            | _ =>
                cons (byte_of_N (N.lor (N.shiftl leftchar 6) v))
                  <$> a2b_loop 0 0 0 rest
            end
        end
  end.

Definition a2b_base64 (ascii_data : bytes) : option bytes :=
  a2b_loop 0 0 0 ascii_data.

(** [base64.decodebytes(s)]. *)
Definition decodebytes (s : bytes) : option bytes := a2b_base64 s.

End Base64.

(** ** [bytes.decode()] and [str.encode()]

    A Python [str] is modelled by a Rocq [string], a sequence of code
    points below 256.  [encode] is UTF-8: one byte below 128, two bytes
    from 128 on.  [decode] inverts it on these two forms; it answers
    [None] on any other byte sequence, which in Python is either a
    [UnicodeDecodeError] or a code point this model of [str] cannot hold. *)
Fixpoint str_encode (s : string) : bytes :=
  match s with
  | EmptyString => []
  | String c s' =>
      let n := N_of_ascii c in
      if n <? 128 then byte_of_N n :: str_encode s'
      else byte_of_N (N.lor 192 (N.shiftr n 6))
           :: byte_of_N (N.lor 128 (N.land n 63)) :: str_encode s'
  end.

Fixpoint bytes_decode_aux (lead : option N) (bs : bytes) : option string :=
  match bs with
  | [] => match lead with None => Some EmptyString | Some _ => None end
  | b :: bs' =>
      let n := Byte.to_N b in
      match lead with
      | None =>
          if n <? 128 then String (ascii_of_N n) <$> bytes_decode_aux None bs'
          else if (n =? 194) || (n =? 195) then bytes_decode_aux (Some n) bs'
          else None
      | Some l =>
          if (128 <=? n) && (n <? 192) then
            String (ascii_of_N (N.lor (N.shiftl (N.land l 3) 6) (N.land n 63)))
              <$> bytes_decode_aux None bs'
          else None
      end
  end.

Definition bytes_decode (bs : bytes) : option string := bytes_decode_aux None bs.

(** ** JSON values, exceptions and results *)

(** A parsed JSON value, as [request.json] and [response.json()] give it. *)
#[local] Unset Elimination Schemes.
Inductive json :=
| JNull
| JBool (b : bool)
| JNum (z : Z)
| JStr (s : string)
| JList (l : list json)
| JDict (d : list (string * json)).
#[local] Set Elimination Schemes.

(** Python's truth value of a JSON value. *)
Definition truthy (j : json) : bool :=
  match j with
  | JNull => false
  | JBool b => b
  | JNum z => negb (z =? 0)%Z
  | JStr s => negb (String.eqb s EmptyString)
  | JList l => negb (Nat.eqb (length l) 0)
  | JDict d => negb (Nat.eqb (length d) 0)
  end.

(** [value == text] for a JSON value and a string. *)
Definition json_eq_str (value : json) (text : string) : bool :=
  match value with
  | JStr s => String.eqb s text
  | _ => false
  end.

(** A line feed and a double quote, for the texts that hold one. *)
Definition LF : string := String (ascii_of_nat 10) EmptyString.
Definition DQUOTE : string := String (ascii_of_nat 34) EmptyString.

(** The exceptions the two applications can meet. *)
Inductive exn :=
| KeyError (key : json)
| TypeError
| AttributeError
| ValueError
| IndexError
| BinasciiError
| UnicodeDecodeError
| UnidentifiedImageError
| TimeoutError
| ClientOSError
| ContentTypeError
| TelegramAPIError
| CancelHandler.

Inductive result (A : Type) :=
| Ok (a : A)
| Raise (e : exn).
Arguments Ok {A} a.
Arguments Raise {A} e.

Definition result_bind {A B} (r : result A) (k : A -> result B) : result B :=
  match r with
  | Ok a => k a
  | Raise e => Raise e
  end.

Declare Scope result_scope.
Delimit Scope result_scope with result.
Notation "'let!' x := e 'in' k" := (result_bind e (fun x => k))
  (at level 10, x pattern, e at level 200, k at level 200, only parsing)
  : result_scope.

(** [[f(x) for x in xs]]: the first exception stops the comprehension. *)
Fixpoint result_map {A B} (f : A -> result B) (xs : list A) : result (list B) :=
  match xs with
  | [] => Ok []
  | x :: xs' =>
      match f x with
      | Ok y =>
          match result_map f xs' with
          | Ok ys => Ok (y :: ys)
          | Raise e => Raise e
          end
      | Raise e => Raise e
      end
  end.

(** [d[key]] on a dict with string keys. *)
Definition getitem {V} (d : gmap string V) (key : string) : result V :=
  match d !! key with
  | Some v => Ok v
  | None => Raise (KeyError (JStr key))
  end.

(** An optional value that raises [e] when it is absent. *)
Definition or_raise {A} (o : option A) (e : exn) : result A :=
  match o with
  | Some a => Ok a
  | None => Raise e
  end.

(** [for image in value]: a list gives its items, a string its
    characters, a dict its keys; anything else is not iterable. *)
Definition iterate (value : json) : result (list json) :=
  match value with
  | JList l => Ok l
  | JStr s => Ok (map (fun c => JStr (String c EmptyString)) (list_ascii_of_string s))
  | JDict d => Ok (map (fun kv => JStr (fst kv)) d)
  | _ => Raise TypeError
  end.

(** [image.encode()] is a method of [str] only. *)
Definition as_str (value : json) : result string :=
  match value with
  | JStr s => Ok s
  | _ => Raise AttributeError
  end.

(* ------------------------------------------------------------------ *)
(** ** The model application ([src/model_app])                          *)
(* ------------------------------------------------------------------ *)
Module ModelApp.

(** What the application takes from PIL, torch and torchvision, from the
    CycleGAN model package and from werkzeug.  Tensors and models are
    opaque; the numerical work is a function of its arguments. *)
Class Torch := {
  Tensor : Type;
  TestModel : Type;
  Trainer : Type;
  cuda_is_available : bool;
  (** [to_tensor(Image.open(buffer))] on the contents of the buffer *)
  image_open : bytes -> result Tensor;
  (** [resize(image, size, antialias=True)] *)
  resize : Tensor -> list nat -> Tensor;
  (** [image[None]] *)
  unsqueeze : Tensor -> Tensor;
  (** [Trainer(NeuralAlgorithmModel(vgg19(...), content, style, ...))],
      arguments in the order of [init_trainer] *)
  build_trainer : Tensor -> Tensor -> Trainer;
  (** [trainer.fit(input_img, max_iter, verbose)[0]] after clone,
      detached and moved to the cpu *)
  trainer_fit : Trainer -> Tensor -> nat -> Tensor;
  (** the options parsing and [create_model] of [get_pretrained_gan_model] *)
  create_model : string -> TestModel;
  (** [set_input], [test] and [get_current_visuals] of a GAN model *)
  model_test : TestModel -> Tensor -> Tensor;
  (** [to_pil_image(image, mode="RGB").save(buffer, format="PNG")] *)
  save_png : Tensor -> bytes;
  (** [werkzeug.security.check_password_hash(pwhash, password)] *)
  check_password_hash : string -> string -> bool
}.

(** *** [src/utils/images.py] *)
Module images.

(** [image_to_base64(image)]: [image.seek(0)], then
    [base64.encodebytes(image.read()).decode()].  The buffer is an
    object: its state after the call is returned with the string. *)
Definition image_to_base64 (image : BytesIO) : option string * BytesIO :=
  let image := seek0 image in
  let '(data, image) := read image in
  (bytes_decode (Base64.encodebytes data), image).

(** [base64_to_image(image)]:
    [BytesIO(base64.decodebytes(image.encode()))]. *)
Definition base64_to_image (image : string) : option BytesIO :=
  BytesIO_new <$> Base64.decodebytes (str_encode image).

(** [load_image_from_buffer(buffer, size)]; [if size:] holds for a
    size that is neither [None] nor empty. *)
Definition load_image_from_buffer `{Torch} (buffer : BytesIO)
    (size : option (list nat)) : result Tensor :=
  let buffer := seek0 buffer in
  (let! image := image_open (getvalue buffer) in
   let image :=
     match size with
     | Some ((_ :: _) as sz) => resize image sz
     | _ => image
     end in
   Ok (unsqueeze image))%result.

End images.

(** *** The events of a request

    The views are run in a writer: besides its result a view leaves the
    list of the costly things it did, in the order of the tasks: a worker
    pool created, a trainer (and its model) built for a pair of images,
    a GAN model run on an image. *)
Inductive event `{Torch} :=
| PoolCreated (processes : nat)
| TrainerBuilt (style_img content_img : Tensor)
| ModelTested (model : TestModel) (content_image : Tensor).

Definition W `{Torch} (A : Type) : Type := list event * result A.

Definition ret `{Torch} {A} (a : A) : W A := ([], Ok a).
Definition raise `{Torch} {A} (e : exn) : W A := ([], Raise e).
Definition lift `{Torch} {A} (r : result A) : W A := ([], r).
Definition tell `{Torch} (ev : event) : W unit := ([ev], Ok tt).

Definition bind `{Torch} {A B} (m : W A) (k : A -> W B) : W B :=
  match m with
  | (t, Ok a) => let '(t', r) := k a in (t ++ t', r)
  | (t, Raise e) => (t, Raise e)
  end.

Declare Scope W_scope.
Delimit Scope W_scope with W.
Notation "'let!' x := e 'in' k" := (bind e (fun x => k))
  (at level 10, x pattern, e at level 200, k at level 200, only parsing)
  : W_scope.

(** A comprehension, or the tasks of [starmap]: results in the order of
    the arguments, the first exception ends it. *)
Fixpoint map_W `{Torch} {A B} (f : A -> W B) (xs : list A) : W (list B) :=
  match xs with
  | [] => ret []
  | x :: xs' =>
      (let! y := f x in
       let! ys := map_W f xs' in
       ret (y :: ys))%W
  end.

(** *** [src/utils/requests.py] *)
Module requests.

(** [load_image_from_buffer(base64_to_image(image), size)]. *)
Definition load_encoded `{Torch} (size : option (list nat)) (image : json)
  : result Tensor :=
  (let! s := as_str image in
   let! buffer := or_raise (images.base64_to_image s) BinasciiError in
   images.load_image_from_buffer buffer size)%result.

(** [extract_original_images(json, with_style)]. *)
Definition extract_original_images `{Torch} (json : gmap string json)
    (with_style : bool) : result (option Tensor * list Tensor) :=
  (let! (size, style_image) :=
     (if with_style then
        let size := if cuda_is_available then [512; 512]%nat else [256; 256]%nat in
        let! encoded := getitem json "style_image" in
        let! style_image := load_encoded (Some size) encoded in
        Ok (Some size, Some style_image)
      else Ok (None, None)) in
   let! encoded := getitem json "content_images" in
   let! items := iterate encoded in
   let! content_images := result_map (load_encoded size) items in
   Ok (style_image, content_images))%result.

(** [pack_processed_images(fitted_images)]. *)
Definition pack_processed_images `{Torch} (fitted_images : list Tensor)
  : result (gmap string json) :=
  (let! encoded :=
     result_map
       (fun image =>
          let buffer := BytesIO_new (save_png image) in
          or_raise (fst (images.image_to_base64 buffer)) UnicodeDecodeError)
       fitted_images in
   Ok {[ "fitted_images" := JList (map JStr encoded) ]})%result.

End requests.

(** *** [src/utils/training.py] *)
Module training.

(** [init_trainer(style_img, content_img)]. *)
Definition init_trainer `{Torch} (style_img content_img : Tensor) : W Trainer :=
  (let! _ := tell (TrainerBuilt style_img content_img) in
   ret (build_trainer style_img content_img))%W.

(** [fit_image(trainer, input_img, max_iter=300)]. *)
Definition fit_image `{Torch} (trainer : Trainer) (input_img : Tensor) : Tensor :=
  trainer_fit trainer input_img 300.

(** [get_fitted_image(style_img, content_img)]; the style image of a
    request without one is [None], which the model cannot take. *)
Definition get_fitted_image `{Torch} (style_img : option Tensor)
    (content_img : Tensor) : W Tensor :=
  match style_img with
  | Some style_img =>
      (let! trainer := init_trainer style_img content_img in
       ret (fit_image trainer content_img))%W
  | None => raise AttributeError
  end.

(** [get_pretrained_gan_model(name)]. *)
Definition get_pretrained_gan_model `{Torch} (name : string) : TestModel :=
  create_model name.

(** [get_pretrained_gan_models()], with the default names. *)
Definition get_pretrained_gan_models `{Torch} : gmap string TestModel :=
  let names := ["style_monet"; "style_cezanne"; "style_ukiyoe"; "style_vangogh"] in
  list_to_map
    (map (fun name => (name, get_pretrained_gan_model (name +:+ "_pretrained")))
         names).

(** [get_inferred_image(model, content_image)]. *)
Definition get_inferred_image `{Torch} (model : TestModel)
    (content_image : Tensor) : W Tensor :=
  (let! _ := tell (ModelTested model content_image) in
   ret (model_test model content_image))%W.

End training.

(** *** [src/views/_views.py] *)
Module views.

(** What a view returns: a dict, sent as JSON, or a text. *)
Inductive response :=
| Body (d : gmap string json)
| Text (s : string).

Definition gan_models `{Torch} : gmap string TestModel :=
  training.get_pretrained_gan_models.

Definition pool_size : nat := 3.

(** [Pool(processes)]: fewer than one process is a [ValueError]. *)
Definition Pool `{Torch} (processes : nat) : W unit :=
  if (processes <? 1)%nat then raise ValueError
  else tell (PoolCreated processes).

(** [self.gan_models[key]]: a key that is a list or a dict cannot be
    hashed, any other key that is not a registered name is missing. *)
Definition gan_models_getitem `{Torch} (key : json) : result TestModel :=
  match key with
  | JStr name => or_raise (gan_models !! name) (KeyError key)
  | JList _ | JDict _ => Raise TypeError
  | _ => Raise (KeyError key)
  end.

(** [StyleTransferAPI.use_neural_algorithm]. *)
Definition use_neural_algorithm `{Torch} (json : gmap string json) : W response :=
  (let! (style_image, content_images) :=
     lift (requests.extract_original_images json true) in
   let! fitted_images :=
     (if (length content_images =? 1)%nat then
        let! content_image := lift (or_raise (content_images !! 0%nat) IndexError) in
        let! fitted := training.get_fitted_image style_image content_image in
        ret [fitted]
      else
        let! _ := Pool (Nat.min (length content_images) pool_size) in
        map_W (training.get_fitted_image style_image) content_images) in
   let! packed := lift (requests.pack_processed_images fitted_images) in
   ret (Body packed))%W.

(** [StyleTransferAPI.use_gan_model]. *)
Definition use_gan_model `{Torch} (json : gmap string json) : W response :=
  (let! (_, content_images) :=
     lift (requests.extract_original_images json false) in
   let! inferred_images :=
     map_W
       (fun content_image =>
          let! style := lift (getitem json "style") in
          let! model := lift (gan_models_getitem style) in
          training.get_inferred_image model content_image)
       content_images in
   let! packed := lift (requests.pack_processed_images inferred_images) in
   ret (Body packed))%W.

(** [StyleTransferAPI.post]; [request.json] is [None] when the body
    is not JSON, and an empty dict is false. *)
Definition post `{Torch} (request_json : option (gmap string json)) : W response :=
  match request_json with
  | Some json =>
      if decide (json = ∅) then ret (Text "Request content type must be json.")
      else
        (let! style := lift (getitem json "style") in
         if json_eq_str style "style_custom" then use_neural_algorithm json
         else use_gan_model json)%W
  | None => ret (Text "Request content type must be json.")
  end.

Definition AUTH_FAILED : string :=
  "Authentication is failed." +:+ LF +:+ "Wrong username or password.".

Definition KEYS_MISSING : string :=
  "Request must contain the following keys: [" +:+ DQUOTE +:+ "username"
  +:+ DQUOTE +:+ ", " +:+ DQUOTE +:+ "password" +:+ DQUOTE +:+ "].".

(** [login(users)(func)] of [src/utils/requests.py], around a view:
    [user in users] needs a key that can be hashed, and the hash check
    a password that is a string. *)
Definition login `{Torch} (users : gmap string string)
    (func : option (gmap string json) -> W response)
    (request_json : option (gmap string json)) : W response :=
  match request_json with
  | None => raise AttributeError
  | Some json =>
      let user := default JNull (json !! "username") in
      let pwd := default JNull (json !! "password") in
      if truthy user && truthy pwd then
        match user with
        | JStr name =>
            match users !! name with
            | Some pwhash =>
                match pwd with
                | JStr password =>
                    if check_password_hash pwhash password
                    then func request_json
                    else ret (Text AUTH_FAILED)
                | _ => raise TypeError
                end
            | None => ret (Text AUTH_FAILED)
            end
        | JList _ | JDict _ => raise TypeError
        | _ => ret (Text AUTH_FAILED)
        end
      else ret (Text KEYS_MISSING)
  end.

(** The [/transfer] rule of [register_views]. *)
Definition transfer `{Torch} (users : gmap string string)
  : option (gmap string json) -> W response :=
  login users post.

End views.

(** *** [src/losses/_losses.py] *)
Module losses.

(** The numbers a tensor holds, with the operations the loss uses.
    [of_nat] turns an element count into such a number; [finite]
    tells the values on which a number minus itself is zero apart
    (for floating point numbers: all but the infinities and NaN).
    [dot i j u v] is what the kernel of [torch.mm] computes for the
    entry [(i, j)] from the row [u] and the column [v]: the sum of the
    products of their elements, accumulated and rounded as the kernel
    does it for that entry; torch does not fix the order, so the kernel
    is a collaborator. *)
Class Scalar := {
  scalar : Type;
  zero : scalar;
  add : scalar -> scalar -> scalar;
  sub : scalar -> scalar -> scalar;
  mul : scalar -> scalar -> scalar;
  div : scalar -> scalar -> scalar;
  of_nat : nat -> scalar;
  finite : scalar -> Prop;
  dot : nat -> nat -> list scalar -> list scalar -> scalar
}.

(** What the properties of the loss need of the arithmetic.  IEEE 754
    arithmetic has these laws, and so has exact arithmetic. *)
Class ScalarLaws `{Scalar} : Prop := {
  sub_diag : forall a, finite a -> sub a a = zero;
  mul_zero : mul zero zero = zero;
  add_zero : add zero zero = zero;
  div_zero : forall n, (0 < n)%nat -> div zero (of_nat n) = zero
}.

(** A contiguous tensor of four dimensions: its shape and its
    elements in row-major order. *)
Record tensor4 `{Scalar} := mkTensor4 {
  shape : nat * nat * nat * nat;
  elements : list scalar
}.
Arguments mkTensor4 {_} _ _.

(** [x.numel()]. *)
Definition numel `{Scalar} (x : tensor4) : nat :=
  let '(d1, d2, d3, d4) := shape x in (d1 * d2 * d3 * d4)%nat.

(** A tensor of two dimensions, by its entries. *)
Record matrix `{Scalar} := mkMatrix {
  rows : nat;
  cols : nat;
  entry : nat -> nat -> scalar
}.
Arguments mkMatrix {_} _ _ _.

(** [x.view(r, c)]: the same elements, read as [r] rows of [c]. *)
Definition view `{Scalar} (x : tensor4) (r c : nat) : matrix :=
  mkMatrix r c (fun i j => nth (i * c + j) (elements x) zero).

(** [m.T]. *)
Definition transpose `{Scalar} (m : matrix) : matrix :=
  mkMatrix (cols m) (rows m) (fun i j => entry m j i).

(** The sum of [f 0], ..., [f (n - 1)], accumulated from the left. *)
Fixpoint sum_upto `{Scalar} (n : nat) (f : nat -> scalar) : scalar :=
  match n with
  | O => zero
  | S n' => add (sum_upto n' f) (f n')
  end.

(** The row [i] and the column [j] of a matrix. *)
Definition row `{Scalar} (m : matrix) (i : nat) : list scalar :=
  map (fun k => entry m i k) (seq 0 (cols m)).

Definition col `{Scalar} (m : matrix) (j : nat) : list scalar :=
  map (fun k => entry m k j) (seq 0 (rows m)).

(** [a.mm(b)]: the kernel on every row of [a] and column of [b]. *)
Definition mm `{Scalar} (a b : matrix) : matrix :=
  mkMatrix (rows a) (cols b) (fun i j => dot i j (row a i) (col b j)).

(** [m / d], entry by entry. *)
Definition div_by `{Scalar} (m : matrix) (d : scalar) : matrix :=
  mkMatrix (rows m) (cols m) (fun i j => div (entry m i j) d).

(** [StyleLoss._to_gram_matrix(x)]. *)
Definition _to_gram_matrix `{Scalar} (x : tensor4) : matrix :=
  let '(d1, d2, d3, d4) := shape x in
  let x' := view x (d1 * d2) (d3 * d4) in
  div_by (mm x' (transpose x')) (of_nat (numel x)).

(** [F.mse_loss(input, target)] for two matrices of one shape: the
    mean of the squared differences.  For different shapes torch
    broadcasts or raises, which is not modelled ([None]). *)
Definition mse_loss `{Scalar} (input target : matrix) : option scalar :=
  if (rows input =? rows target)%nat && (cols input =? cols target)%nat then
    let n := (rows input * cols input)%nat in
    let squared k :=
      let i := (k / cols input)%nat in
      let j := (k mod cols input)%nat in
      let d := sub (entry input i j) (entry target i j) in
      mul d d in
    Some (div (sum_upto n squared) (of_nat n))
  else None.

(** The [StyleLoss] module: its target and the loss of the last
    forward pass. *)
Record StyleLoss `{Scalar} := mkStyleLoss {
  target : matrix;
  loss : option scalar
}.
Arguments mkStyleLoss {_} _ _.

(** [StyleLoss.__init__(target)]. *)
Definition StyleLoss_init `{Scalar} (target : tensor4) : StyleLoss :=
  mkStyleLoss (_to_gram_matrix target) None.

(** [StyleLoss.forward(x)]: the loss is recorded, the input returned. *)
Definition forward `{Scalar} (self : StyleLoss) (x : tensor4) : StyleLoss * tensor4 :=
  (mkStyleLoss (target self) (mse_loss (_to_gram_matrix x) (target self)), x).

(** [F.mse_loss(input, target)] for two tensors of one shape: the mean
    of the squared differences of their elements.  For different
    shapes torch broadcasts or raises, which is not modelled ([None]). *)
Definition mse_loss_tensor `{Scalar} (input target : tensor4) : option scalar :=
  if decide (shape input = shape target) then
    let n := numel input in
    let squared k :=
      let d := sub (nth k (elements input) zero) (nth k (elements target) zero) in
      mul d d in
    Some (div (sum_upto n squared) (of_nat n))
  else None.

(** The [ContentLoss] module: its target and the loss of the last
    forward pass. *)
Record ContentLoss `{Scalar} := mkContentLoss {
  content_target : tensor4;
  content_loss : option scalar
}.
Arguments mkContentLoss {_} _ _.

(** [ContentLoss.__init__(target)]. *)
Definition ContentLoss_init `{Scalar} (target : tensor4) : ContentLoss :=
  mkContentLoss target None.

(** [ContentLoss.forward(x)]: the loss is recorded, the input returned. *)
Definition ContentLoss_forward `{Scalar} (self : ContentLoss) (x : tensor4)
  : ContentLoss * tensor4 :=
  (mkContentLoss (content_target self) (mse_loss_tensor x (content_target self)), x).

End losses.

(** *** [src/models/neural_algorithm_model.py] *)
Module models.
(** What [isinstance] finds for a layer of the backbone. *)
Inductive layer_kind :=
| Conv2d
| ReLU
| OtherLayer.

(** What the model takes from torch: the layers of a backbone and what
    a layer, [nn.ReLU(False)] and [tt.Normalize(mean, std)] compute for
    an activation, each of which can raise; a copy of a layer computes
    what the layer computes.  For the two loss modules: the Gram matrix
    of an activation ([StyleLoss._to_gram_matrix], which raises when
    the activation has not four dimensions) and whether [F.mse_loss]
    of an input and a target raises. *)
Class Network := {
  Layer : Type;
  Activation : Type;
  Gram : Type;
  Number : Type;
  kind_of : Layer -> layer_kind;
  layer_forward : Layer -> Activation -> result Activation;
  relu_forward : Activation -> result Activation;
  normalize_forward : list Number -> list Number -> Activation -> result Activation;
  to_gram_matrix : Activation -> result Gram;
  content_mse : Activation -> Activation -> result unit;
  style_mse : Gram -> Gram -> result unit
}.

(** The modules of the [nn.Sequential] that [_get_model] builds.  A loss
    module holds its target; the loss it records on a pass is left
    out, [_get_model] never reads it. *)
Inductive module `{Network} :=
| Normalize (mean std : list Number)
| Copied (layer : Layer)
| ReLU_not_inplace
| ContentLossOf (target : Activation)
| StyleLossOf (target : Gram).

(** [ContentLoss(target)] and [StyleLoss(target)]. *)
Definition ContentLoss_new `{Network} (target : Activation) : module :=
  ContentLossOf target.

Definition StyleLoss_new `{Network} (target : Activation) : result module :=
  (let! gram := to_gram_matrix target in
   Ok (StyleLossOf gram))%result.

(** [module(x)]; a loss module computes its loss and returns its
    input. *)
Definition module_forward `{Network} (m : module) (x : Activation)
  : result Activation :=
  match m with
  | Normalize mean std => normalize_forward mean std x
  | Copied layer => layer_forward layer x
  | ReLU_not_inplace => relu_forward x
  | ContentLossOf target =>
      (let! _ := content_mse x target in
       Ok x)%result
  | StyleLossOf target =>
      (let! gram := to_gram_matrix x in
       let! _ := style_mse gram target in
       Ok x)%result
  end.

(** [model(x)] for an [nn.Sequential]. *)
Fixpoint sequential_forward `{Network} (model : list module) (x : Activation)
  : result Activation :=
  match model with
  | [] => Ok x
  | m :: rest =>
      (let! y := module_forward m x in
       sequential_forward rest y)%result
  end.

(** [max(ids)]: a [ValueError] for an empty list. *)
Definition max_of (ids : list nat) : result nat :=
  match ids with
  | [] => Raise ValueError
  | i :: ids' => Ok (fold_left Nat.max ids' i)
  end.

(** [k in ids]. *)
Definition contains (ids : list nat) (k : nat) : bool :=
  existsb (Nat.eqb k) ids.

(** The loop of [_get_model] over the children of the backbone. *)
Fixpoint get_model_loop `{Network} (layers : list Layer)
    (content_img style_img : Activation) (content_ids style_ids : list nat)
    (model content_losses style_losses : list module) (conv_cnt : nat)
  : result (list module * list module * list module) :=
  match layers with
  | [] => Ok (model, content_losses, style_losses)
  | layer :: rest =>
      let model :=
        model ++ [match kind_of layer with
                  | ReLU => ReLU_not_inplace
                  | _ => Copied layer
                  end] in
      (let! (model, content_losses, style_losses, conv_cnt) :=
         match kind_of layer with
         | Conv2d =>
             let conv_cnt := S conv_cnt in
             let! (model, content_losses) :=
               if contains content_ids conv_cnt then
                 let! activation := sequential_forward model content_img in
                 let content_loss := ContentLoss_new activation in
                 Ok (model ++ [content_loss], content_losses ++ [content_loss])
               else Ok (model, content_losses) in
             let! (model, style_losses) :=
               if contains style_ids conv_cnt then
                 let! activation := sequential_forward model style_img in
                 let! style_loss := StyleLoss_new activation in
                 Ok (model ++ [style_loss], style_losses ++ [style_loss])
               else Ok (model, style_losses) in
             Ok (model, content_losses, style_losses, conv_cnt)
         | _ => Ok (model, content_losses, style_losses, conv_cnt)
         end in
       let! max_content := max_of content_ids in
       let! max_style := max_of style_ids in
       if (conv_cnt =? Nat.max max_content max_style)%nat
       then Ok (model, content_losses, style_losses)
       else get_model_loop rest content_img style_img content_ids style_ids
              model content_losses style_losses conv_cnt)%result
  end.

(** [NeuralAlgorithmModel._get_model(backbone, content_img, style_img,
    content_ids, style_ids, mean, std)]: the model and its two lists of
    loss modules. *)
Definition _get_model `{Network} (backbone : list Layer)
    (content_img style_img : Activation) (content_ids style_ids : list nat)
    (mean std : list Number)
  : result (list module * list module * list module) :=
  let model :=
    match mean, std with
    | _ :: _, _ :: _ => [Normalize mean std]
    | _, _ => []
    end in
  get_model_loop backbone content_img style_img content_ids style_ids model [] [] 0.

(** [NeuralAlgorithmModel.forward(x)]. *)
Definition NeuralAlgorithmModel_forward `{Network} (model : list module)
    (x : Activation) : result Activation :=
  sequential_forward model x.
End models.

(** *** The class [ImagePool] of [src/utils/images.py] *)
Module image_pool.
(** What [query] draws for an image that meets a full pool:
    [random.uniform(0, 1)] is at most 0.5 and the image is returned, or
    it is more and [random.randint(0, pool_size - 1)] names the stored
    image to swap it with. *)
Inductive draw :=
| Keep
| Swap (random_id : nat).

(** The exceptions of [query]: an attribute that [__init__] did not
    set, an index out of the list, [torch.cat] of an empty list. *)
Inductive pool_exn :=
| NoAttribute
| OutOfRange
| NothingToCat.

(** The pool: its size and, when [__init__] created it, the number of
    stored images and the images.  An image is a batch of one. *)
Record ImagePool {Image : Type} := mkImagePool {
  pool_size : Z;
  store : option (nat * list Image)
}.
Arguments ImagePool : clear implicits.
Arguments mkImagePool {_} _ _.

(** [ImagePool.__init__(pool_size)]. *)
Definition ImagePool_init {Image} (pool_size : Z) : ImagePool Image :=
  mkImagePool pool_size (if (0 <? pool_size)%Z then Some (O, []) else None).

(** The loop of [query] over the images of the batch; [draws k] is the
    [k]-th draw of the random generator. *)
Fixpoint query_loop {Image} (pool_size : Z) (images : list Image)
    (num_imgs : nat) (stored : list Image) (draws : nat -> draw) (k : nat)
    (return_images : list Image)
  : pool_exn + (list Image * (nat * list Image) * nat) :=
  match images with
  | [] => inr (return_images, (num_imgs, stored), k)
  | image :: rest =>
      if (Z.of_nat num_imgs <? pool_size)%Z then
        query_loop pool_size rest (S num_imgs) (stored ++ [image]) draws k
          (return_images ++ [image])
      else
        match draws k with
        | Swap random_id =>
            match stored !! random_id with
            | Some tmp =>
                query_loop pool_size rest num_imgs (<[random_id := image]> stored)
                  draws (S k) (return_images ++ [tmp])
            | None => inl OutOfRange
            end
        | Keep =>
            query_loop pool_size rest num_imgs stored draws (S k)
              (return_images ++ [image])
        end
  end.

(** [ImagePool.query(images)]: the returned batch, the pool after the
    call and the number of draws made so far. *)
Definition query {Image} (self : ImagePool Image) (images : list Image)
    (draws : nat -> draw) (k : nat)
  : pool_exn + (list Image * ImagePool Image * nat) :=
  if (pool_size self =? 0)%Z then inr (images, self, k)
  else
    match images, store self with
    | [], _ => inl NothingToCat
    | _ :: _, None => inl NoAttribute
    | _ :: _, Some (num_imgs, stored) =>
        match query_loop (pool_size self) images num_imgs stored draws k [] with
        | inl e => inl e
        | inr (return_images, st, k') =>
            inr (return_images, mkImagePool (pool_size self) (Some st), k')
        end
    end.
End image_pool.

(** *** The examples: [get_examples] of [src/utils/images.py] and
    [ExamplesAPI] of [src/views/_views.py] *)
Module examples.

(** The example files of the service: [Image.open(path)] saved as PNG
    into a buffer, for the file [transformed.png] of a style. *)
Class Files := {
  transformed_png : string -> result bytes
}.

(** [get_examples()] of [src/utils/images.py]. *)
Definition get_examples `{Files} : result (gmap string json) :=
  let styles :=
    ["style_monet"; "style_vangogh"; "style_cezanne"; "style_ukiyoe"; "style_custom"] in
  (let! encoded :=
     result_map
       (fun style =>
          let! png := transformed_png style in
          or_raise (fst (images.image_to_base64 (BytesIO_new png))) UnicodeDecodeError)
       styles in
   Ok {[ "example_images" := JList (map JStr encoded) ]})%result.

(** [ExamplesAPI.post]; [examples] is the class attribute, computed
    when the class is defined. *)
Definition ExamplesAPI_post `{Torch} (examples : gmap string json)
    (request_json : option (gmap string json)) : W views.response :=
  match request_json with
  | Some json =>
      if decide (json = ∅) then ret (views.Text "Request content type must be json.")
      else ret (views.Body examples)
  | None => ret (views.Text "Request content type must be json.")
  end.

(** The [/examples] rule of [register_views]. *)
Definition examples_rule `{Torch} (users : gmap string string)
    (examples : gmap string json)
  : option (gmap string json) -> W views.response :=
  views.login users (ExamplesAPI_post examples).

End examples.

End ModelApp.

(* ------------------------------------------------------------------ *)
(** ** The bot application ([src/bot_app])                              *)
(* ------------------------------------------------------------------ *)
Module BotApp.

(** *** [src/utils/images.py] *)
Module images.

(** [image_to_base64(image)]: [image.seek(0)], then
    [base64.encodebytes(image.read()).decode()].  The buffer is an
    object: its state after the call is returned with the string. *)
Definition image_to_base64 (image : BytesIO) : option string * BytesIO :=
  let image := seek0 image in
  let '(data, image) := read image in
  (bytes_decode (Base64.encodebytes data), image).

(** [base64_to_image(image)]:
    [BytesIO(base64.decodebytes(image.encode()))]. *)
Definition base64_to_image (image : string) : option BytesIO :=
  BytesIO_new <$> Base64.decodebytes (str_encode image).

End images.

(** *** Telegram objects *)

(** One size of a photo; [file_id] names the file to download. *)
Record PhotoSize := mkPhotoSize { file_id : string }.

(** An incoming message: its identifier, the media group it belongs to
    (absent for a message sent alone) and its photo sizes (empty when
    the message has no photo). *)
Record Message := mkMessage {
  message_id : nat;
  media_group_id : option string;
  photo : list PhotoSize
}.

(** [if message.media_group_id]: neither [None] nor the empty string. *)
Definition has_media_group (message : Message) : option string :=
  match media_group_id message with
  | Some EmptyString | None => None
  | Some group => Some group
  end.

(** *** [src/states/_states.py] *)
Module states.

(** The states of [StartStyleTransferForm], in the order of the class. *)
Inductive State :=
| choose_style
| send_style_image
| send_content_images
| await_model_response.

#[global] Instance State_eq_dec : EqDecision State.
Proof. solve_decision. Defined.

Definition max_images : nat := 3.

Definition all_states : list State :=
  [choose_style; send_style_image; send_content_images; await_model_response].

Definition State_eqb (a b : State) : bool :=
  match a, b with
  | choose_style, choose_style
  | send_style_image, send_style_image
  | send_content_images, send_content_images
  | await_model_response, await_model_response => true
  | _, _ => false
  end.

(** The position of a state in the group. *)
Fixpoint index (s : State) (l : list State) : option nat :=
  match l with
  | [] => None
  | x :: l' => if State_eqb s x then Some O else S <$> index s l'
  end.

End states.
Export states.

(** *** The conversation of one user with the bot *)

(** What the handlers keep in the data of the conversation. *)
Inductive value :=
| VNone
| VStr (s : string)
| VBuffer (b : BytesIO)
| VBuffers (l : list BytesIO).

(** The entry of one (chat, user) pair in the memory storage. *)
Record Session := mkSession {
  state : option State;
  data : gmap string value
}.

(** What a handler does to the outside: the calls to the bot API, the
    request to the model service and the writes to the FSM storage. *)
Inductive call :=
| Answer (text : string)
| Reply (text : string)
| AnswerPhoto (image : BytesIO)
| AnswerMediaGroup (images : list BytesIO)
| Delete (message : Message)
| Post (url : string) (body : gmap string json) (timeout : nat)
| SetState (s : option State)
| SetData (d : gmap string value).

(** The [config.yaml] entries the handlers read. *)
Record Config := mkConfig {
  model_url : string;
  username : string;
  password : string;
  verify_ssl : bool
}.

(** The world around the handlers: the Telegram servers, the model
    service and the other updates of the same user.

    - [download p] is the content of a photo, or the exception of a
      failed download;
    - [api_error c] is the exception a call to the bot API ends with,
      if any;
    - [http_post url body timeout] is the parsed body of the response,
      or the exception of the request ([TimeoutError], [ClientOSError],
      [ContentTypeError] for an answer that is not JSON, ...);
    - [meanwhile] is what the handlers of the updates that are processed
      while the request is in flight ([/cancel], for one) do to the
      session. *)
Class Env := {
  config : Config;
  download : PhotoSize -> result bytes;
  api_error : call -> option exn;
  http_post : string -> gmap string json -> nat -> result (gmap string json);
  meanwhile : Session -> Session
}.

(** The session of the user and the calls made so far, oldest first. *)
Record World := mkWorld {
  session : Session;
  trace : list call
}.

(** A handler is run in a state and exception monad over the world. *)
Definition M (A : Type) : Type := World -> result A * World.

Definition ret {A} (a : A) : M A := fun w => (Ok a, w).
Definition raise {A} (e : exn) : M A := fun w => (Raise e, w).
Definition lift {A} (r : result A) : M A := fun w => (r, w).

Definition bind {A B} (m : M A) (k : A -> M B) : M B :=
  fun w =>
    match m w with
    | (Ok a, w') => k a w'
    | (Raise e, w') => (Raise e, w')
    end.

Declare Scope M_scope.
Delimit Scope M_scope with M.
Notation "'let!' x := e 'in' k" := (bind e (fun x => k))
  (at level 10, x pattern, e at level 200, k at level 200, only parsing)
  : M_scope.

(** [try: body finally: final]: [final] runs on every way out of [body];
    the exception of [body] goes on unless [final] raises its own. *)
Definition try_finally {A} (body : M A) (final : M unit) : M A :=
  fun w =>
    match body w with
    | (r, w') =>
        match final w' with
        | (Ok _, w'') => (r, w'')
        | (Raise e, w'') => (Raise e, w'')
        end
    end.

(** [for x in xs: acc = body(acc, x)]. *)
Fixpoint for_each {A B} (body : B -> A -> M B) (xs : list A) (acc : B) : M B :=
  match xs with
  | [] => ret acc
  | x :: xs' => (let! acc := body acc x in for_each body xs' acc)%M
  end.

(** A call to the bot API. *)
Definition api `{Env} (c : call) : M unit :=
  fun w =>
    match api_error c with
    | Some e => (Raise e, w)
    | None => (Ok tt, mkWorld (session w) (trace w ++ [c]))
    end.

(** [aiohttp]'s [session.post(...)] and [response.json()]: the request
    goes out, the other updates of the user are handled while the
    answer is awaited, then the answer or the exception comes back. *)
Definition post `{Env} (url : string) (body : gmap string json) (timeout : nat)
  : M (gmap string json) :=
  fun w =>
    (http_post url body timeout,
     mkWorld (meanwhile (session w)) (trace w ++ [Post url body timeout])).

(** *** aiogram's FSM context, on the memory storage *)
Module fsm.

Definition get_state : M (option State) := fun w => (Ok (state (session w)), w).

Definition set_state (s : option State) : M unit :=
  fun w =>
    (Ok tt, mkWorld (mkSession s (data (session w))) (trace w ++ [SetState s])).

Definition get_data : M (gmap string value) := fun w => (Ok (data (session w)), w).

Definition set_data (d : gmap string value) : M unit :=
  fun w =>
    (Ok tt, mkWorld (mkSession (state (session w)) d) (trace w ++ [SetData d])).

(** [state.finish()]: the state is reset, then the data. *)
Definition finish : M unit :=
  (let! _ := set_state None in set_data ∅)%M.

(** [async with state.proxy() as data: body]: the data are loaded on
    entry and, when the body ends without an exception, stored.  (The
    proxy stores the data when they differ from the copy it made on
    entry; in the handlers below they are modified or hold buffers,
    which never equal their copy.) *)
Definition proxy {A} (body : gmap string value -> M (A * gmap string value)) : M A :=
  (let! d := get_data in
   let! (a, d') := body d in
   let! _ := set_data d' in
   ret a)%M.

(** [StartStyleTransferForm.next()]: the state after the current one;
    the first state when there is no current state, no state after
    the last one. *)
Definition next_state (state_name : option State) : option State :=
  let next_step :=
    match state_name with
    | Some s => match index s all_states with Some i => S i | None => O end
    | None => O
    end in
  all_states !! next_step.

Definition next : M (option State) :=
  (let! state_name := get_state in
   let next_state_name := next_state state_name in
   let! _ := set_state next_state_name in
   ret next_state_name)%M.

End fsm.

(** *** [src/utils/requests.py] *)
Module requests.

(** [str.rstrip("/")]. *)
Fixpoint rstrip_slash (s : string) : string :=
  match s with
  | EmptyString => EmptyString
  | String c s' =>
      match rstrip_slash s' with
      | EmptyString => if Ascii.eqb c "/" then EmptyString else String c EmptyString
      | rest => String c rest
      end
  end.

(** [get_api_url(model_url, action)]. *)
Definition get_api_url (model_url action : string) : string :=
  rstrip_slash model_url +:+ "/" +:+ action.

(** The truth value of what the data of the conversation hold: [None]
    and the empty string and list are false, a buffer is true. *)
Definition value_truthy (v : value) : bool :=
  match v with
  | VNone => false
  | VStr s => negb (String.eqb s EmptyString)
  | VBuffer _ => true
  | VBuffers l => negb (Nat.eqb (length l) 0)
  end.

(** [image_to_base64(image)] on a buffer of the caller: the string,
    and the buffer as the call leaves it. *)
Definition encode_buffer (b : BytesIO) : result (string * BytesIO) :=
  let '(encoded, b) := images.image_to_base64 b in
  (let! encoded := or_raise encoded UnicodeDecodeError in
   Ok (encoded, b))%result.

(** [image_to_base64(image)] on a value of the data: only a buffer
    has [seek] and [read]. *)
Definition encode_image (v : value) : result (string * value) :=
  match v with
  | VBuffer b =>
      (let! (encoded, b) := encode_buffer b in
       Ok (encoded, VBuffer b))%result
  | _ => Raise AttributeError
  end.

(** The style as the JSON encoder writes it. *)
Definition style_to_json (style : value) : result json :=
  match style with
  | VStr s => Ok (JStr s)
  | VNone => Ok JNull
  | _ => Raise TypeError
  end.

(** [request_style_transfer(url, style, style_image, content_images,
    username, password, verify_ssl, timeout=600)]; the content images
    are the list of buffers the handlers store.  The style image and
    the content images are objects of the caller, which
    [image_to_base64] reads to their end: they are returned, as the
    call leaves them, with the processed images. *)
Definition request_style_transfer `{Env} (url : string)
    (style style_image content_images : value)
    (username password : string) (verify_ssl : bool)
  : M (list BytesIO * value * value) :=
  let timeout := 600%nat in
  (let! (encoded_style, style_image) :=
     lift (if value_truthy style_image then encode_image style_image
           else Ok (EmptyString, style_image)) in
   let! buffers :=
     lift (match content_images with
           | VBuffers l => Ok l
           | _ => Raise TypeError
           end) in
   let! encoded := lift (result_map encode_buffer buffers) in
   let encoded_contents := map fst encoded in
   let content_images := VBuffers (map snd encoded) in
   let! style := lift (style_to_json style) in
   let data : gmap string json :=
     {[ "style" := style;
        "style_image" := JStr encoded_style;
        "content_images" := JList (map JStr encoded_contents);
        "username" := JStr username;
        "password" := JStr password ]} in
   let! processed_images := post url data (timeout * length buffers) in
   let! fitted := lift (getitem processed_images "fitted_images") in
   let! items := lift (iterate fitted) in
   let! processed_images :=
     lift (result_map
             (fun image =>
                let! s := as_str image in
                or_raise (images.base64_to_image s) BinasciiError)%result
             items) in
   ret (processed_images, style_image, content_images))%M.

(** [request_examples(url, username, password, verify_ssl, timeout=60)]. *)
Definition request_examples `{Env} (url : string) (username password : string)
    (verify_ssl : bool) : M (list BytesIO) :=
  let timeout := 60%nat in
  let data : gmap string json :=
    {[ "username" := JStr username; "password" := JStr password ]} in
  (let! examples := post url data timeout in
   let! images := lift (getitem examples "example_images") in
   let! items := lift (iterate images) in
   lift (result_map
           (fun image =>
              let! s := as_str image in
              or_raise (images.base64_to_image s) BinasciiError)%result
           items))%M.

End requests.

(** *** [src/handlers/_messages.py] *)
Module messages.

Definition MAGIC_BEGUN : string :=
  "Ok, the magic has begun! It can take a while. I'll text you when it's done.".
Definition HERE_YOU_ARE : string := "Here you are!".
Definition NOTHING_TO_CANCEL : string := "Nothing to cancel".
Definition CANCELLED : string :=
  "Operation is cancelled." +:+ LF +:+ "See you next time!".

(** [photo[-1].download(destination_file=BytesIO())]: the last size of
    the photo; the buffer is left at its start. *)
Definition download_photo `{Env} (message : Message) : M BytesIO :=
  (let! size := lift (or_raise (last (photo message)) IndexError) in
   let! content := lift (download size) in
   ret (BytesIO_new content))%M.

(** The call of [request_style_transfer] both handlers make, inside
    [async with ...proxy() as data].  The buffers the call reads are
    the objects the data hold: the data the proxy stores hold them as
    the call left them. *)
Definition request_from_data `{Env} : M (list BytesIO) :=
  fsm.proxy (fun data =>
    let! style := lift (getitem data "style") in
    let! style_image := lift (getitem data "style_image") in
    let! content_images := lift (getitem data "content_images") in
    let! (processed_images, style_image, content_images) :=
      requests.request_style_transfer
        (requests.get_api_url (model_url config) "transfer")
        style style_image content_images
        (username config) (password config) (verify_ssl config) in
    ret (processed_images,
         <["content_images" := content_images]>
           (<["style_image" := style_image]> data)))%M.

Definition THANKS : string :=
  "Thanks!" +:+ LF
  +:+ "Now send me up to 3 images that you would like to transform." +:+ LF
  +:+ "Please make sure that it will be a single image or a gallery, "
  +:+ "otherwise only the first image will be processed." +:+ LF
  +:+ "For better results use square images.".

(** [receive_style_image_handler(message, state)]. *)
Definition receive_style_image_handler `{Env} (message : Message) : M unit :=
  (let! _ :=
     fsm.proxy (fun data =>
       let! style_image := download_photo message in
       ret (tt, <["style_image" := VBuffer style_image]> data)) in
   let! _ := fsm.next in
   api (Answer THANKS))%M.

(** [receive_content_image_handler(message, state)]. *)
Definition receive_content_image_handler `{Env} (message : Message) : M unit :=
  (let! _ :=
     fsm.proxy (fun data =>
       let! content_image := download_photo message in
       ret (tt, <["content_images" := VBuffers [content_image]]> data)) in
   let! _ := fsm.next in
   let! _ := api (Answer MAGIC_BEGUN) in
   try_finally
     (let! processed_images := request_from_data in
      let! curr_state := fsm.get_state in
      match curr_state with
      | Some await_model_response =>
          let! _ := api (Answer HERE_YOU_ARE) in
          let! image := lift (or_raise (processed_images !! 0%nat) IndexError) in
          api (AnswerPhoto image)
      | _ => ret tt
      end)
     fsm.finish)%M.

(** The loop of [receive_content_images_handler] over the media group:
    a message with a photo is downloaded while fewer than [max_images]
    images are stored. *)
Definition collect `{Env} (content_images : list BytesIO) (msg : Message)
  : M (list BytesIO) :=
  match photo msg with
  | _ :: _ =>
      if (length content_images <? max_images)%nat then
        (let! content_image := download_photo msg in
         ret (content_images ++ [content_image]))%M
      else ret content_images
  | [] => ret content_images
  end.

(** [receive_content_images_handler(message, media_group, state)]. *)
Definition receive_content_images_handler `{Env} (message : Message)
    (media_group : list Message) : M unit :=
  (let! _ :=
     fsm.proxy (fun data =>
       let! content_images := for_each collect media_group [] in
       ret (tt, <["content_images" := VBuffers content_images]> data)) in
   let! _ := fsm.next in
   let! _ := api (Answer MAGIC_BEGUN) in
   try_finally
     (let! processed_images := request_from_data in
      let media := processed_images in
      let! curr_state := fsm.get_state in
      match curr_state with
      | Some await_model_response =>
          let! _ := api (Answer HERE_YOU_ARE) in
          api (AnswerMediaGroup media)
      | _ => ret tt
      end)
     fsm.finish)%M.

(** [cancel_cmd_handler(message, state)]. *)
Definition cancel_cmd_handler `{Env} (message : Message) : M unit :=
  (let! curr_state := fsm.get_state in
   match curr_state with
   | None => api (Reply NOTHING_TO_CANCEL)
   | Some _ =>
       let! _ := fsm.finish in
       api (Reply CANCELLED)
   end)%M.

Definition HERE_ARE_EXAMPLES : string := "Here are examples of style transfer:".

(** [examples_cmd_handler(message)]. *)
Definition examples_cmd_handler `{Env} (message : Message) : M unit :=
  (let! _ := api (Answer HERE_ARE_EXAMPLES) in
   let! examples :=
     requests.request_examples (requests.get_api_url (model_url config) "examples")
       (username config) (password config) (verify_ssl config) in
   let media := examples in
   api (AnswerMediaGroup media))%M.

End messages.

(** *** [src/handlers/_callbacks.py] *)
Module callbacks.

Definition SEND_CONTENT : string :=
  "Please send me up to 3 images that you would like to transform." +:+ LF
  +:+ "Please make sure that it will be a single image or a gallery, "
  +:+ "otherwise only the first image will be processed.".
Definition SEND_STYLE : string :=
  "Please send me a single image with the style you would like to transfer. "
  +:+ "For better results use a square image.".

(** [receive_chosen_style_callback_handler(callback)]. *)
Definition receive_chosen_style_callback_handler `{Env} (callback_data : string)
  : M unit :=
  if negb (String.eqb callback_data "style_custom") then
    (let! _ := fsm.set_state (Some send_content_images) in
     let! _ :=
       fsm.proxy (fun data =>
         ret (tt, <["style_image" := VNone]> (<["style" := VStr callback_data]> data))) in
     api (Answer SEND_CONTENT))%M
  else
    (let! _ := fsm.next in
     let! _ :=
       fsm.proxy (fun data => ret (tt, <["style" := VStr callback_data]> data)) in
     api (Answer SEND_STYLE))%M.

End callbacks.

(** *** [src/handlers/_errors.py] *)
Module errors.

Definition TOO_BUSY : string :=
  "Sorry!" +:+ LF
  +:+ "It seems like the model service or the telegram server is too busy right now."
  +:+ LF +:+ "Please try it later.".
Definition UNAVAILABLE : string :=
  "Sorry!" +:+ LF
  +:+ "It seems like the model service is unavailable right now."
  +:+ LF +:+ "Please try it later.".
Definition WENT_WRONG : string := "Sorry! Something went wrong. Please try it later.".

Definition is_timeout (e : exn) : bool :=
  match e with TimeoutError => true | _ => false end.
Definition is_client_os_error (e : exn) : bool :=
  match e with ClientOSError => true | _ => false end.

(** The three handlers of [register_error_handlers], in their order;
    each one runs when its exception filter lets the exception in. *)
Definition notify `{Env} (exception : exn) : M unit :=
  (let! _ := if is_timeout exception then api (Answer TOO_BUSY) else ret tt in
   let! _ := if is_client_os_error exception then api (Answer UNAVAILABLE) else ret tt in
   if negb (is_timeout exception) && negb (is_client_os_error exception)
   then api (Answer WENT_WRONG) else ret tt)%M.

(** A handler under the dispatcher: its exception goes to the error
    handlers, which swallow it. *)
Definition guarded `{Env} (handler : M unit) : M unit :=
  fun w =>
    match handler w with
    | (Ok tt, w') => (Ok tt, w')
    | (Raise e, w') => notify e w'
    end.

End errors.

(** *** aiogram's throttling manager

    [Dispatcher.throttle] and [Dispatcher.check_key] belong to aiogram,
    not to the repository; they are modelled after aiogram 2.  Times
    are in milliseconds.  The bucket of a (chat, user) pair maps a key
    to the record of its last call.  A call is let through when at
    least [rate] has passed since the last call (or no time at all);
    it then sets [EXCEEDED_COUNT] to 1.  A call that comes too early
    adds one to [EXCEEDED_COUNT] and raises [Throttled].  Both kinds
    of call set [LAST_CALL]. *)
Module throttling.

Record Bucket := mkBucket {
  LAST_CALL : Z;
  RATE_LIMIT : Z;
  DELTA : Z;
  EXCEEDED_COUNT : nat;
  RESULT : bool
}.

(** The [Throttled] exception and its attributes. *)
Record Throttled := mkThrottled {
  key : string;
  called_at : Z;
  rate : Z;
  exceeded_count : nat;
  delta : Z
}.

(** [dispatcher.throttle(key, rate=rate)] at the time [now]:
    [None] when the call is let through. *)
Definition throttle (key : string) (rate now : Z) (bucket : gmap string Bucket)
  : option Throttled * gmap string Bucket :=
  let data := bucket !! key in
  let called := match data with Some d => LAST_CALL d | None => now end in
  let delta := (now - called)%Z in
  let result := (rate <=? delta)%Z || (delta <=? 0)%Z in
  let count :=
    if result then 1%nat
    else S (match data with Some d => EXCEEDED_COUNT d | None => O end) in
  let bucket := <[key := mkBucket now rate delta count result]> bucket in
  (if result then None else Some (mkThrottled key now rate count delta), bucket).

(** [dispatcher.check_key(key)]: the record of the key as a
    [Throttled] object; the defaults of its attributes for a key
    without a record. *)
Definition check_key (key : string) (bucket : gmap string Bucket) : Throttled :=
  match bucket !! key with
  | Some d => mkThrottled key (LAST_CALL d) (RATE_LIMIT d) (EXCEEDED_COUNT d) (DELTA d)
  | None => mkThrottled key 0 0 0 0
  end.

End throttling.

(** *** [src/middlewares/_middlewares.py] *)
Module middlewares.
Import throttling.

(** The handler an update is about to reach: its name and the two
    attributes a handler may carry. *)
Record Handler := mkHandler {
  handler_name : string;
  throttling_rate_limit : option Z;
  throttling_key : option string
}.

(** **** [ThrottlingMiddleware] *)

Record ThrottlingMiddleware := mkThrottlingMiddleware {
  rate_limit : Z;
  prefix : string
}.

Definition BANNED : string :=
  "You've been banned for sending too many messages." +:+ LF
  +:+ "Please slow down a bit.".
Definition UNBANNED : string := "You've been unbanned.".

(** The key and the limit of a handler, as both methods compute them. *)
Definition key_of (self : ThrottlingMiddleware) (curr_handler : option Handler)
  : string :=
  match curr_handler with
  | Some h => default (prefix self +:+ "_" +:+ handler_name h) (throttling_key h)
  | None => prefix self +:+ "_message"
  end.

Definition limit_of (self : ThrottlingMiddleware) (curr_handler : option Handler)
  : Z :=
  match curr_handler with
  | Some h => default (rate_limit self) (throttling_rate_limit h)
  | None => rate_limit self
  end.

(** [message_throttled], up to [asyncio.sleep(delta)]: the notice,
    for an exceeded count of at most 2, and the time to sleep. *)
Definition message_throttled_begin (message : Message) (throttled : Throttled)
  : list call * Z :=
  let delta := (rate throttled - delta throttled)%Z in
  (if (exceeded_count throttled <=? 2)%nat then [Answer BANNED] else [], delta).

(** [message_throttled], after the sleep, on the bucket of that time. *)
Definition message_throttled_end (self : ThrottlingMiddleware)
    (handler : option Handler) (message : Message) (throttled : Throttled)
    (bucket : gmap string Bucket) : list call :=
  let thr := check_key (key_of self handler) bucket in
  if (exceeded_count thr =? exceeded_count throttled)%nat
  then [Answer UNBANNED] else [].

(** [ThrottlingMiddleware.on_process_message], up to its first
    suspension: the message goes on ([None]), or the key is throttled. *)
Definition on_process_message_begin (self : ThrottlingMiddleware)
    (curr_handler : option Handler) (message : Message) (now : Z)
    (bucket : gmap string Bucket) : option Throttled * gmap string Bucket :=
  match has_media_group message with
  | Some _ => (None, bucket)
  | None => throttle (key_of self curr_handler) (limit_of self curr_handler) now bucket
  end.

(** The bucket after the updates of a list, each with its time. *)
Definition bucket_after (self : ThrottlingMiddleware) (curr_handler : option Handler)
    (updates : list (Z * Message)) (bucket : gmap string Bucket)
  : gmap string Bucket :=
  fold_left
    (fun bucket '(now, message) =>
       snd (on_process_message_begin self curr_handler message now bucket))
    updates bucket.

(** What becomes of a message. *)
Inductive verdict :=
| ToHandler
| Cancelled.

(** [ThrottlingMiddleware.on_process_message] for the message that
    arrives at [now], after the updates [earlier] and before the
    updates [later] of the same user for the same handler.  The
    task of a throttled message deletes it, runs [message_throttled]
    and raises [CancelHandler].  The deletion and the banned notice are
    awaited before [asyncio.sleep(delta)] starts, and the task goes on
    when the event loop resumes it: [latency] is the time this adds to
    [delta].  While the task waits and sleeps, the updates that arrive
    before it wakes are processed.  The calls to the bot API are taken
    to succeed. *)
Definition on_process_message (self : ThrottlingMiddleware)
    (curr_handler : option Handler) (latency : Z) (earlier : list (Z * Message))
    (now : Z) (message : Message) (later : list (Z * Message))
  : list call * verdict :=
  let bucket := bucket_after self curr_handler earlier ∅ in
  match on_process_message_begin self curr_handler message now bucket with
  | (None, _) => ([], ToHandler)
  | (Some throttled, bucket) =>
      let '(notice, delta) := message_throttled_begin message throttled in
      let asleep := (now + latency)%Z in
      let wake := (asleep + delta)%Z in
      let meanwhile := List.filter (fun u => (fst u <? wake)%Z) later in
      let bucket := bucket_after self curr_handler meanwhile bucket in
      (Delete message :: notice
         ++ message_throttled_end self curr_handler message throttled bucket,
       Cancelled)
  end.

(** [register_middlewares]: [ThrottlingMiddleware(0.5)]. *)
Definition registered_throttling : ThrottlingMiddleware :=
  mkThrottlingMiddleware 500 "antiflood_".

(** **** [GatherMediaGroupMiddleware] *)

(** The state of the middleware: the class attribute
    [media_group_data], shared by all conversations, and the
    messages whose [conf] holds [is_last], by identifier. *)
Record Gathering := mkGathering {
  media_group_data : gmap string (list Message);
  conf_is_last : gset nat
}.

(** How [on_process_message] goes on at its first suspension. *)
Inductive gathered :=
| NoGroup
| Asleep
| CancelHandlerRaised.

(** [GatherMediaGroupMiddleware.on_process_message], up to
    [asyncio.sleep(self.latency)]. *)
Definition gather_begin (message : Message) (g : Gathering) : gathered * Gathering :=
  match has_media_group message with
  | None => (NoGroup, g)
  | Some group =>
      match media_group_data g !! group with
      | None =>
          (Asleep,
           mkGathering (<[group := [message]]> (media_group_data g)) (conf_is_last g))
      | Some messages =>
          (CancelHandlerRaised,
           mkGathering (<[group := messages ++ [message]]> (media_group_data g))
             (conf_is_last g))
      end
  end.

(** [GatherMediaGroupMiddleware.on_process_message], after the sleep:
    the message is marked and [data["media_group"]] is the list of
    its group. *)
Definition gather_end (message : Message) (g : Gathering)
  : result (list Message) * Gathering :=
  match has_media_group message with
  | None => (Raise TypeError, g)
  | Some group =>
      let g := mkGathering (media_group_data g) ({[message_id message]} ∪ conf_is_last g) in
      (getitem (media_group_data g) group, g)
  end.

(** [GatherMediaGroupMiddleware.on_post_process_message]. *)
Definition on_post_process_message (message : Message) (g : Gathering)
  : result unit * Gathering :=
  match has_media_group message with
  | Some group =>
      if decide (message_id message ∈ conf_is_last g) then
        match media_group_data g !! group with
        | Some _ =>
            (Ok tt, mkGathering (delete group (media_group_data g)) (conf_is_last g))
        | None => (Raise (KeyError (JStr group)), g)
        end
      else (Ok tt, g)
  | None => (Ok tt, g)
  end.

(** The middleware under the scheduler.  The tasks of the messages
    run one at a time between their suspensions: a message arrives
    and its task runs up to the sleep; a sleeping task wakes and
    hands its message, with the group gathered so far, to the
    handler; the handler of a message finishes and the message is
    post-processed. *)
Inductive moment :=
| Arrives (message : Message)
| Wakes (message : Message)
| Finishes (message : Message).

(** What the handlers get to see. *)
Inductive delivery :=
| Handled (message : Message) (media_group : option (list Message))
| Dropped (message : Message)
| Failed (message : Message) (e : exn).

Definition step (gd : Gathering * list delivery) (m : moment)
  : Gathering * list delivery :=
  let '(g, out) := gd in
  match m with
  | Arrives message =>
      match gather_begin message g with
      | (NoGroup, g) => (g, out ++ [Handled message None])
      | (Asleep, g) => (g, out)
      | (CancelHandlerRaised, g) => (g, out ++ [Dropped message])
      end
  | Wakes message =>
      match gather_end message g with
      | (Ok media_group, g) => (g, out ++ [Handled message (Some media_group)])
      | (Raise e, g) => (g, out ++ [Failed message e])
      end
  | Finishes message =>
      match on_post_process_message message g with
      | (Ok _, g) => (g, out)
      | (Raise e, g) => (g, out ++ [Failed message e])
      end
  end.

Definition run (moments : list moment) (g : Gathering) : Gathering * list delivery :=
  fold_left step moments (g, []).

End middlewares.

End BotApp.


Local Close Scope N_scope.

(* ================================================================== *)
(** * Part I, continued: the terms of the statements                    *)
(* ================================================================== *)

Section base64_terms.
Local Open Scope N_scope.

Definition all_bytes : bytes := map (fun n => byte_of_N (N.of_nat n)) (seq 0 256).

(** What the decoder needs to know of a character the encoder wrote. *)
Definition is_sextet_char (v : N) : bool :=
  negb (Byte.eqb (Base64.b2a_char v) Base64.BASE64_PAD)
  && match Base64.a2b_char (Base64.b2a_char v) with Some w => w =? v | None => false end.

Definition s1 (a : N) := N.shiftr a 2.

Definition s2 (a b : N) := N.lor (N.shiftl (N.land a 3) 4) (N.shiftr b 4).

Definition s3 (b c : N) := N.lor (N.shiftl (N.land b 15) 2) (N.shiftr c 6).

Definition s4 (c : N) := N.land c 63.

Definition check_pair (x y : byte) : bool :=
  let a := Byte.to_N x in
  let b := Byte.to_N y in
  (s1 a <? 64) && (s2 a b <? 64) && (s3 a b <? 64) && (s4 a <? 64)
  && (s2 a 0 <? 64) && (s3 a 0 <? 64)
  && (N.lor (N.shiftl (s1 a) 2) (N.shiftr (s2 a b) 4) =? a)
  && (N.land (s2 a b) 15 =? N.shiftr b 4)
  && (N.lor (N.shiftl (N.shiftr a 4) 4) (N.shiftr (s3 a b) 2) =? a)
  && (N.land (s3 a b) 3 =? N.shiftr b 6)
  && (N.lor (N.shiftl (N.shiftr a 6) 6) (s4 a) =? a).

Definition is_ascii (b : byte) : Prop := Byte.to_N b < 128.

End base64_terms.

Section model_app_terms.
Import ModelApp ModelApp.views ModelApp.requests ModelApp.training.
Context `{Torch}.

Definition packed (images : list Tensor) : result response :=
  (let! packed := pack_processed_images images in Ok (Body packed))%result.

Definition is_fitting (ev : event) : Prop :=
  match ev with
  | PoolCreated _ | TrainerBuilt _ _ => True
  | ModelTested _ _ => False
  end.

Definition is_test_of (model : TestModel) (ev : event) : Prop :=
  match ev with
  | ModelTested m _ => m = model
  | _ => False
  end.

End model_app_terms.

Section style_loss_terms.
Import ModelApp.losses.
Context `{Scalar}.

(** A valid activation: it has an element, and no entry of its Gram
    matrix is an infinity or NaN. *)
Definition valid (x : tensor4) : Prop :=
  (0 < numel x)%nat
  /\ forall i j, (i < rows (_to_gram_matrix x))%nat ->
                 (j < cols (_to_gram_matrix x))%nat ->
                 finite (entry (_to_gram_matrix x) i j).

(** A kernel that computes the entries [(i, j)] and [(j, i)] alike: the
    same number for the same two lists, whichever is the row. *)
Definition operands_alike : Prop :=
  forall i j (u v : list scalar), length u = length v -> dot i j u v = dot j i v u.

End style_loss_terms.

Section scalars_terms.
Import QArith Qcanon SpecFloat ModelApp.losses.

(** A kernel that accumulates the products from the left. *)
Definition dot_from_left {A} (zero : A) (add mul : A -> A -> A) (u v : list A) : A :=
  fold_left (fun acc ab => add acc (mul (fst ab) (snd ab))) (combine u v) zero.

(** Exact arithmetic: the rationals. *)
Definition rational : Scalar := {|
  scalar := Qc;
  zero := 0%Qc;
  add := Qcplus;
  sub := Qcminus;
  mul := Qcmult;
  div := Qcdiv;
  of_nat := fun n => Q2Qc (inject_Z (Z.of_nat n));
  finite := fun _ => True;
  dot := fun _ _ => dot_from_left 0%Qc Qcplus Qcmult
|}.

(** IEEE 754 binary32, the [float32] of torch, with a kernel that rounds
    every product and every sum and accumulates from the left. *)
Definition prec : Z := 24.

Definition emax : Z := 128.

Definition binary32 : Scalar := {|
  scalar := spec_float;
  zero := S754_zero false;
  add := SFadd prec emax;
  sub := SFsub prec emax;
  mul := SFmul prec emax;
  div := SFdiv prec emax;
  of_nat := fun n => binary_normalize prec emax (Z.of_nat n) 0 false;
  finite := fun x => match x with
                     | S754_zero _ | S754_finite _ _ _ => True
                     | _ => False
                     end;
  dot := fun _ _ => dot_from_left (S754_zero false) (SFadd prec emax) (SFmul prec emax)
|}.

Definition positive_float (x : spec_float) : Prop :=
  match x with
  | S754_finite false _ _ | S754_infinity false => True
  | _ => False
  end.

End scalars_terms.

Section handlers_terms.
Import BotApp BotApp.messages BotApp.fsm.
Context `{Env}.

(** The photo of a message, downloaded: the pure part of [download_photo]. *)
Definition fetched (message : Message) : result BytesIO :=
  (let! size := or_raise (last (photo message)) IndexError in
   let! content := download size in
   Ok (BytesIO_new content))%result.

(** The loop over the media group, as a function of the messages. *)
Fixpoint collected (media_group : list Message) (acc : list BytesIO)
  : result (list BytesIO) :=
  match media_group with
  | [] => Ok acc
  | msg :: rest =>
      match photo msg with
      | _ :: _ =>
          if (length acc <? max_images)%nat then
            (let! image := fetched msg in collected rest (acc ++ [image]))%result
          else collected rest acc
      | [] => collected rest acc
      end
  end.

(** A buffer that was read to its end. *)
Definition at_end (b : BytesIO) : BytesIO :=
  mkBytesIO (getvalue b) (length (getvalue b)).

(** The request: it fails before anything is posted and leaves the world
    as it is, or it is posted; then the session is what the updates
    handled in the meantime made of it, and, when the answer is
    processed without an exception, the data loaded before the call are
    stored again, with the buffers as the call left them. *)
Definition posted (w : World) (c : call) : World :=
  mkWorld (meanwhile (session w)) (trace w ++ [c]).

Definition restored (d : gmap string value) (w' : World) : World :=
  mkWorld (mkSession (state (session w')) d) (trace w' ++ [SetData d]).

Inductive request_outcome (w : World) : result (list BytesIO) * World -> Prop :=
| request_not_posted e :
    request_outcome w (Raise e, w)
| request_failed url body timeout e :
    request_outcome w (Raise e, posted w (Post url body timeout))
| request_answered url body timeout images d :
    request_outcome w
      (Ok images, restored d (posted w (Post url body timeout))).

(** The calls that hand a result to the user. *)
Definition is_delivery (c : call) : Prop :=
  match c with
  | Answer text => text = HERE_YOU_ARE
  | AnswerPhoto _ | AnswerMediaGroup _ => True
  | _ => False
  end.

(** The calls of a run: what it added to the trace. *)
Definition calls_of {A} (w : World) (run : result A * World) : list call :=
  drop (length (trace w)) (trace (snd run)).

(** The lines of the [try] block after the request, in the two handlers. *)
Definition answer_photo (processed_images : list BytesIO) : M unit :=
  (let! curr_state := get_state in
   match curr_state with
   | Some await_model_response =>
       let! _ := api (Answer HERE_YOU_ARE) in
       let! image := lift (or_raise (processed_images !! 0%nat) IndexError) in
       api (AnswerPhoto image)
   | _ => ret tt
   end)%M.

Definition answer_media_group (processed_images : list BytesIO) : M unit :=
  (let! curr_state := get_state in
   match curr_state with
   | Some await_model_response =>
       let! _ := api (Answer HERE_YOU_ARE) in
       api (AnswerMediaGroup processed_images)
   | _ => ret tt
   end)%M.

(** A delivery under the guard: nothing happens unless the state is
    [await_model_response], and the trace only grows. *)
Definition guarded (deliver : list BytesIO -> M unit) : Prop :=
  forall images w,
    (state (session w) <> Some await_model_response -> deliver images w = (Ok tt, w))
    /\ exists new, trace (snd (deliver images w)) = trace w ++ new.

(** The steps before the [try] block: the content images are stored,
    the form moves on, the user is told to wait. *)
Definition stored (images : list BytesIO) (w : World) : World :=
  let d := <["content_images" := VBuffers images]> (data (session w)) in
  mkWorld (mkSession (state (session w)) d) (trace w ++ [SetData d]).

Definition advanced (w : World) : World :=
  let s := next_state (state (session w)) in
  mkWorld (mkSession s (data (session w))) (trace w ++ [SetState s]).

Definition acknowledged (w : World) : World :=
  mkWorld (session w) (trace w ++ [Answer MAGIC_BEGUN]).

(** The run of a content image handler, given the images it collects and
    how it delivers. *)
Definition begun (content : result (list BytesIO))
    (deliver : list BytesIO -> M unit) (w : World) : result unit * World :=
  match content with
  | Raise e => (Raise e, w)
  | Ok images =>
      let w2 := advanced (stored images w) in
      match api_error (Answer MAGIC_BEGUN) with
      | Some e => (Raise e, w2)
      | None =>
          try_finally (bind request_from_data deliver) finish (acknowledged w2)
      end
  end.

(** What the guard means for a run: a delivery needs the session the call
    came back to in [await_model_response]; there is none when the
    updates handled in the meantime leave another state, and none when
    they are a [/cancel]. *)
Definition guard_holds (w : World) (run : result unit * World) : Prop :=
  (Exists is_delivery (calls_of w run) ->
   exists d,
     state (meanwhile (mkSession (next_state (state (session w))) d))
     = Some await_model_response)
  /\ ((forall s, state (meanwhile s) <> Some await_model_response) ->
      Forall (fun c => ~ is_delivery c) (calls_of w run))
  /\ (forall cancel,
      (forall s, meanwhile s = session (snd (cancel_cmd_handler cancel (mkWorld s [])))) ->
      Forall (fun c => ~ is_delivery c) (calls_of w run)).

End handlers_terms.

Section gathering_terms.
Import BotApp BotApp.middlewares.

(** The table after the first messages of new groups. *)
Definition opened (messages : list Message) (d : gmap string (list Message))
  : gmap string (list Message) :=
  fold_left
    (fun d m => match has_media_group m with
                | Some g => <[g := [m]]> d
                | None => d
                end)
    messages d.

End gathering_terms.

Section throttling_terms.
Import BotApp BotApp.throttling BotApp.middlewares.
Local Open Scope Z_scope.

(** An update outside of any media group. *)
Definition plain (u : Z * Message) : Prop := has_media_group (snd u) = None.

(** Updates that each come too early after the one before: later than
    it, and less than [limit] later. *)
Fixpoint chain (limit prev : Z) (updates : list (Z * Message)) : Prop :=
  match updates with
  | [] => True
  | (t, _) :: rest => prev < t < prev + limit /\ chain limit t rest
  end.

(** The time of the last update of a list, [prev] for an empty list. *)
Fixpoint last_time (prev : Z) (updates : list (Z * Message)) : Z :=
  match updates with
  | [] => prev
  | (t, _) :: rest => last_time t rest
  end.

End throttling_terms.

(** ** Terms of the further properties *)

Section api_url_terms.

(** [n] slashes. *)
Fixpoint slashes (n : nat) : string :=
  match n with
  | O => EmptyString
  | S n' => String "/" (slashes n')
  end.

(** Whether the last character of a string is a slash. *)
Fixpoint ends_with_slash (s : string) : bool :=
  match s with
  | EmptyString => false
  | String c EmptyString => Ascii.eqb c "/"
  | String _ s' => ends_with_slash s'
  end.

End api_url_terms.

Section login_terms.
Import ModelApp ModelApp.views.
Context `{Torch}.

(** A request with the name of a user of the table and the password its
    hash stands for, both not empty. *)
Definition authenticated (users : gmap string string) (json : gmap string json) : Prop :=
  exists name pwhash password,
    json !! "username" = Some (JStr name) /\ name <> EmptyString
    /\ json !! "password" = Some (JStr password) /\ password <> EmptyString
    /\ users !! name = Some pwhash
    /\ check_password_hash pwhash password = true.

End login_terms.

Section pipeline_terms.
Context `{ModelApp.Torch}.

(** The text both applications write for the bytes of an image. *)
Definition base64_text (data : bytes) : string :=
  default EmptyString (bytes_decode (Base64.encodebytes data)).

(** What the HTTP client of the bot gets from the [/transfer] rule: the
    dict of a JSON answer.  A text answer, and the error page of an
    exception in the view, are not JSON. *)
Definition served (users : gmap string string) (body : gmap string json)
  : result (gmap string json) :=
  match snd (ModelApp.views.transfer users (Some body)) with
  | Ok (ModelApp.views.Body d) => Ok d
  | _ => Raise ContentTypeError
  end.

(** The body of the request for a pretrained style. *)
Definition pretrained_request `{BotApp.Env} (name : string) (buffers : list BytesIO)
  : gmap string json :=
  {[ "style" := JStr name;
     "style_image" := JStr EmptyString;
     "content_images" := JList (map (fun b => JStr (base64_text (getvalue b))) buffers);
     "username" := JStr (BotApp.username BotApp.config);
     "password" := JStr (BotApp.password BotApp.config) ]}.

End pipeline_terms.

Section failures_terms.
Import BotApp BotApp.errors.

(** The text the error handlers send for an exception. *)
Definition apology (e : exn) : string :=
  match e with
  | TimeoutError => TOO_BUSY
  | ClientOSError => UNAVAILABLE
  | _ => WENT_WRONG
  end.

End failures_terms.

Section custom_terms.
Context `{ModelApp.Torch}.

(** The body of the request for the custom style. *)
Definition custom_style_request `{BotApp.Env} (style_image : BytesIO)
    (buffers : list BytesIO) : gmap string json :=
  {[ "style" := JStr "style_custom";
     "style_image" := JStr (base64_text (getvalue style_image));
     "content_images" := JList (map (fun b => JStr (base64_text (getvalue b))) buffers);
     "username" := JStr (BotApp.username BotApp.config);
     "password" := JStr (BotApp.password BotApp.config) ]}.

(** The image as the service loads it for the fitting algorithm. *)
Definition loaded (t : ModelApp.Tensor) : ModelApp.Tensor :=
  ModelApp.unsqueeze
    (ModelApp.resize t (if ModelApp.cuda_is_available then [512; 512] else [256; 256])).

(** The PNG file of the image fitted to a style image. *)
Definition fitted_png (style content : ModelApp.Tensor) : bytes :=
  ModelApp.save_png
    (ModelApp.training.fit_image
       (ModelApp.build_trainer (loaded style) (loaded content)) (loaded content)).

End custom_terms.

Section rate_terms.
Import BotApp BotApp.throttling BotApp.middlewares.
Local Open Scope Z_scope.

(** The time of the last update of a list that is outside of any media
    group, if there is one. *)
Fixpoint last_plain (updates : list (Z * Message)) : option Z :=
  match updates with
  | [] => None
  | (t, m) :: rest =>
      match last_plain rest with
      | Some t' => Some t'
      | None => match has_media_group m with None => Some t | Some _ => None end
      end
  end.

(** Whether a message at [now] comes too early after the updates
    [earlier]: it is outside of any media group, and the last such
    update came less than [limit] before it. *)
Definition too_early (limit : Z) (earlier : list (Z * Message)) (now : Z)
    (message : Message) : bool :=
  match has_media_group message, last_plain earlier with
  | None, Some last => (0 <? now - last) && (now - last <? limit)
  | _, _ => false
  end.

End rate_terms.

Section content_loss_terms.
Import ModelApp.losses.
Context `{Scalar}.

(** A tensor that holds as many elements as its shape says, at least
    one, and no infinity or NaN. *)
Definition finite_tensor (x : tensor4) : Prop :=
  (0 < numel x)%nat
  /\ length (elements x) = numel x
  /\ Forall finite (elements x).

End content_loss_terms.

Section image_pool_terms.
Import ModelApp.image_pool.
Context {Image : Type}.

(** A pool as [__init__] and [query] leave it: it counts the images it
    stores, and they are at most [pool_size]. *)
Definition pool_ok (self : ImagePool Image) : Prop :=
  match store self with
  | Some (num_imgs, stored) =>
      num_imgs = length stored /\ (Z.of_nat num_imgs <= pool_size self)%Z
  | None => (pool_size self <= 0)%Z
  end.

(** The images a pool stores. *)
Definition stored_images (self : ImagePool Image) : list Image :=
  match store self with
  | Some (_, stored) => stored
  | None => []
  end.

(** [randint(0, pool_size - 1)] stays in its range. *)
Definition in_range (pool_size : Z) (draws : nat -> draw) : Prop :=
  forall k random_id, draws k = Swap random_id -> (Z.of_nat random_id < pool_size)%Z.

End image_pool_terms.

Section models_terms.
Import ModelApp.models.
Context `{Network}.

Definition is_content_loss (m : module) : bool :=
  match m with ContentLossOf _ => true | _ => false end.

Definition is_style_loss (m : module) : bool :=
  match m with StyleLossOf _ => true | _ => false end.

Definition is_loss (m : module) : bool := is_content_loss m || is_style_loss m.

(** The module [_get_model] appends for a layer. *)
Definition copy_of (layer : Layer) : module :=
  match kind_of layer with
  | ReLU => ReLU_not_inplace
  | _ => Copied layer
  end.

(** The layers up to the convolution numbered [last], all of them when
    there are fewer convolutions; [conv_cnt] convolutions came before. *)
Fixpoint up_to_conv (last : nat) (layers : list Layer) (conv_cnt : nat) : list Layer :=
  match layers with
  | [] => []
  | layer :: rest =>
      let conv_cnt :=
        match kind_of layer with Conv2d => S conv_cnt | _ => conv_cnt end in
      layer :: (if (conv_cnt =? last)%nat then [] else up_to_conv last rest conv_cnt)
  end.

(** Every loss module of a model holds what the modules before it
    compute for the image of its kind: the activation for a content
    loss, the Gram matrix of the activation for a style loss. *)
Definition targets_match (content_img style_img : Activation) (model : list module)
  : Prop :=
  forall before m after,
    model = before ++ m :: after ->
    match m with
    | ContentLossOf target => sequential_forward before content_img = Ok target
    | StyleLossOf target =>
        exists activation,
          sequential_forward before style_img = Ok activation
          /\ to_gram_matrix activation = Ok target
    | _ => True
    end.

(** One turn of the loop: what it appends to the model and to the two
    lists for a layer. *)
Definition turn (layer : Layer) (content_img style_img : Activation)
    (content_ids style_ids : list nat)
    (model content_losses style_losses : list module) (conv_cnt : nat)
  : result (list module * list module * list module * nat) :=
  let model := model ++ [copy_of layer] in
  match kind_of layer with
  | Conv2d =>
      let conv_cnt := S conv_cnt in
      (let! (model, content_losses) :=
         if contains content_ids conv_cnt then
           let! activation := sequential_forward model content_img in
           let content_loss := ContentLoss_new activation in
           Ok (model ++ [content_loss], content_losses ++ [content_loss])
         else Ok (model, content_losses) in
       let! (model, style_losses) :=
         if contains style_ids conv_cnt then
           let! activation := sequential_forward model style_img in
           let! style_loss := StyleLoss_new activation in
           Ok (model ++ [style_loss], style_losses ++ [style_loss])
         else Ok (model, style_losses) in
       Ok (model, content_losses, style_losses, conv_cnt))%result
  | _ => Ok (model, content_losses, style_losses, conv_cnt)
  end.

End models_terms.

Section decoding_terms.

(** The characters of the base64 alphabet. *)
Definition in_alphabet (c : ascii) : bool :=
  existsb (Ascii.eqb c)
    (list_ascii_of_string
       "ABCDEFGHIJKLMNOPQRSTUVWXYZabcdefghijklmnopqrstuvwxyz0123456789+/").

(** The characters the decoder looks at: the alphabet and the padding. *)
Definition significant (c : ascii) : bool := in_alphabet c || Ascii.eqb c "=".

(** The characters of a string that satisfy [f]. *)
Fixpoint keep (f : ascii -> bool) (s : string) : string :=
  match s with
  | EmptyString => EmptyString
  | String c s' => if f c then String c (keep f s') else keep f s'
  end.

Definition all_ascii : list ascii := map ascii_of_nat (seq 0 256).

(** An alphabet character is one byte, which is not the padding and has
    a six bit value. *)
Definition check_alphabet (c : ascii) : bool :=
  implb (in_alphabet c)
    (match str_encode (String c EmptyString) with
     | [b] => negb (Byte.eqb b Base64.BASE64_PAD)
              && match Base64.a2b_char b with Some _ => true | None => false end
     | _ => false
     end).

(** Any other character but the padding is one or two bytes, none of
    them the padding or of the alphabet. *)
Definition check_skipped (c : ascii) : bool :=
  implb (negb (significant c))
    (forallb (fun b => negb (Byte.eqb b Base64.BASE64_PAD)
                       && match Base64.a2b_char b with Some _ => false | None => true end)
       (str_encode (String c EmptyString))).

End decoding_terms.

Section examples_terms.
Import ModelApp.examples.
Context `{ModelApp.Torch} `{Files}.

(** What the HTTP client of the bot gets from the [/examples] rule. *)
Definition served_examples (users : gmap string string) (examples : gmap string json)
    (body : gmap string json) : result (gmap string json) :=
  match snd (examples_rule users examples (Some body)) with
  | Ok (ModelApp.views.Body d) => Ok d
  | _ => Raise ContentTypeError
  end.

End examples_terms.

(* ================================================================== *)
(** * Part I, continued: sample collaborators and inputs                *)
(* ================================================================== *)

Section model_samples.
Import ModelApp ModelApp.views.

(** A small instance of the collaborators: tensors are byte strings, a
    pretrained model reverses its input, fitting prepends the style
    image to the content image, a password hash is the password. *)
Definition toy_torch : Torch := {|
  Tensor := bytes;
  TestModel := string;
  Trainer := bytes * bytes;
  cuda_is_available := false;
  image_open := fun b => match b with [] => Raise UnidentifiedImageError | _ => Ok b end;
  resize := fun t _ => t;
  unsqueeze := fun t => t;
  build_trainer := fun s c => (s, c);
  trainer_fit := fun tr input _ => fst tr ++ input;
  create_model := fun name => name;
  model_test := fun m c => rev c;
  save_png := fun t => t;
  check_password_hash := fun h p => String.eqb h p
|}.

(** The base64 text of a string, as a client encodes an image. *)
Definition b64 (s : string) : string :=
  default EmptyString (fst (images.image_to_base64 (BytesIO_new (list_byte_of_string s)))).

(** A style that is not registered, and no content image. *)
Definition unknown_style_request : gmap string json :=
  {[ "style" := JStr "style_picasso"; "content_images" := JList [];
     "username" := JStr "bot"; "password" := JStr "secret" ]}.

Definition monet_request : gmap string json :=
  {[ "style" := JStr "style_monet";
     "content_images" := JList [JStr (b64 "abc"); JStr (b64 "xyz")];
     "username" := JStr "bot"; "password" := JStr "secret" ]}.

Definition unknown_request : gmap string json :=
  {[ "style" := JStr "style_picasso";
     "content_images" := JList [JStr (b64 "abc")] ]}.

Definition custom_request : gmap string json :=
  {[ "style" := JStr "style_custom";
     "style_image" := JStr (b64 "S");
     "content_images" := JList [JStr (b64 "abc"); JStr (b64 "xyz")];
     "username" := JStr "bot"; "password" := JStr "secret" ]}.

End model_samples.

Section bot_samples.
Import BotApp BotApp.messages BotApp.middlewares BotApp.throttling.

(** The model service behind the bot: the view of [model_app] over the
    instance above, with one user. *)
Definition toy_users : gmap string string := {[ "bot" := "secret" ]}.

Definition toy_service (body : gmap string json) : result (gmap string json) :=
  match snd (@ModelApp.views.transfer toy_torch toy_users (Some body)) with
  | Ok (ModelApp.views.Body d) => Ok d
  | Ok (ModelApp.views.Text _) => Raise ContentTypeError
  | Raise _ => Raise ContentTypeError
  end.

Definition toy_env : Env := {|
  config := mkConfig "https://model/" "bot" "secret" false;
  download := fun p => Ok (list_byte_of_string (file_id p));
  api_error := fun _ => None;
  http_post := fun url body timeout => toy_service body;
  meanwhile := fun s => s
|}.

(** A photo message: a thumbnail and the photo, whose file holds the
    characters of its identifier. *)
Definition photo_msg (id : nat) (group : option string) (file : string) : Message :=
  mkMessage id group [mkPhotoSize "thumb"; mkPhotoSize file].

(** A session waiting for content images after a pretrained style was
    chosen. *)
Definition w0 : World :=
  mkWorld (mkSession (Some send_content_images)
             {[ "style" := VStr "style_monet"; "style_image" := VNone ]}) [].

Definition gallery : list Message :=
  [photo_msg 1 (Some "g") "abc"; photo_msg 2 (Some "g") "defg";
   photo_msg 3 (Some "g") "hi"; photo_msg 4 (Some "g") "jkl"].

Definition gallery_images : list BytesIO :=
  [BytesIO_new (list_byte_of_string "abc"); BytesIO_new (list_byte_of_string "defg");
   BytesIO_new (list_byte_of_string "hi")].

(** The service does not answer in time. *)
Definition busy_env : Env := {|
  config := mkConfig "https://model/" "bot" "secret" false;
  download := fun p => Ok (list_byte_of_string (file_id p));
  api_error := fun _ => None;
  http_post := fun url body timeout => Raise TimeoutError;
  meanwhile := fun s => s
|}.

(** The user sends [/cancel] while the request is in flight. *)
Definition cancelling_env : Env := {|
  config := mkConfig "https://model/" "bot" "secret" false;
  download := fun p => Ok (list_byte_of_string (file_id p));
  api_error := fun _ => None;
  http_post := fun url body timeout => toy_service body;
  meanwhile := fun s => match state s with Some _ => mkSession None ∅ | None => s end
|}.

(** The acknowledgement of the content images cannot be sent. *)
Definition muted_env : Env := {|
  config := mkConfig "https://model/" "bot" "secret" false;
  download := fun p => Ok (list_byte_of_string (file_id p));
  api_error := fun c =>
    match c with
    | Answer text => if String.eqb text MAGIC_BEGUN then Some TelegramAPIError else None
    | _ => None
    end;
  http_post := fun url body timeout => toy_service body;
  meanwhile := fun s => s
|}.

Definition cancel_msg : Message := mkMessage 9 None [].

Definition empty_gathering : Gathering := mkGathering ∅ ∅.

Definition text_msg (id : nat) : Message := mkMessage id None [].

Definition other_handler : option Handler := Some (mkHandler "other_message_handler" None None).

End bot_samples.

Section loss_samples.
Import SpecFloat ModelApp.losses.

(** 1.0, 2.0 and 3.0 in binary32. *)
Definition f1 : spec_float := S754_finite false 8388608 (-23).

Definition f2 : spec_float := S754_finite false 8388608 (-22).

Definition f3 : spec_float := S754_finite false 12582912 (-22).

(** An activation of one image with two channels of 1 x 2. *)
Definition activation : @tensor4 binary32 :=
  @mkTensor4 binary32 (1, 2, 1, 2)%nat [f1; f2; f3; f1].

(** 2^100: its square is beyond the range of binary32. *)
Definition huge : @tensor4 binary32 :=
  @mkTensor4 binary32 (1, 1, 1, 1)%nat [S754_finite false 8388608 77].

End loss_samples.

Section more_samples.
Import BotApp ModelApp.examples ModelApp.image_pool ModelApp.models.

(** A request for the custom style without content images. *)
Definition custom_without_content : gmap string json :=
  {[ "style" := JStr "style_custom";
     "style_image" := JStr (b64 "S");
     "content_images" := JList [] ]}.

(** A session that waits for the choice of a style. *)
Definition w_start : World := mkWorld (mkSession (Some choose_style) ∅) [].

(** The example files: the file of a style holds its name. *)
Definition toy_files : Files := {|
  transformed_png := fun style => Ok (list_byte_of_string style)
|}.

Definition toy_pngs : list bytes :=
  map list_byte_of_string
    ["style_monet"; "style_vangogh"; "style_cezanne"; "style_ukiyoe"; "style_custom"].

Definition toy_examples : gmap string json :=
  {[ "example_images" := JList (map (fun p => JStr (base64_text p)) toy_pngs) ]}.

(** The service answers the requests for the examples. *)
Definition examples_env : Env := {|
  config := mkConfig "https://model/" "bot" "secret" false;
  download := fun p => Ok (list_byte_of_string (file_id p));
  api_error := fun _ => None;
  http_post := fun url body timeout =>
    @served_examples toy_torch toy_users toy_examples body;
  meanwhile := fun s => s
|}.

(** The photos cannot be downloaded. *)
Definition offline_env : Env := {|
  config := mkConfig "https://model/" "bot" "secret" false;
  download := fun p => Raise TelegramAPIError;
  api_error := fun _ => None;
  http_post := fun url body timeout => toy_service body;
  meanwhile := fun s => s
|}.

(** The bot is configured with a password the service does not know. *)
Definition stranger_env : Env := {|
  config := mkConfig "https://model/" "bot" "guess" false;
  download := fun p => Ok (list_byte_of_string (file_id p));
  api_error := fun _ => None;
  http_post := fun url body timeout => toy_service body;
  meanwhile := fun s => s
|}.

(** A full pool of two images, and draws that swap once. *)
Definition full_pool : ImagePool nat := mkImagePool 2 (Some (2, [10; 20]))%nat.

Definition swap_once (k : nat) : draw :=
  match k with O => Swap 1 | _ => Keep end.

(** A network whose activations are the names of the layers applied. *)
Definition toy_network : Network := {|
  Layer := layer_kind * string;
  Activation := list string;
  Gram := list string;
  Number := nat;
  kind_of := fst;
  layer_forward := fun l x => Ok (x ++ [snd l]);
  relu_forward := fun x => Ok (x ++ ["relu"]);
  normalize_forward := fun _ _ x => Ok (x ++ ["normalize"]);
  to_gram_matrix := fun x => Ok (x ++ ["gram"]);
  content_mse := fun _ _ => Ok tt;
  style_mse := fun _ _ => Ok tt
|}.

Definition toy_backbone : list (layer_kind * string) :=
  [(Conv2d, "conv1"); (ReLU, "r1"); (Conv2d, "conv2"); (ReLU, "r2");
   (OtherLayer, "pool"); (Conv2d, "conv3")].

(** The model built on it for the content identifier 2 and the style
    identifiers 1 and 2. *)
Definition toy_model : list (@module toy_network) :=
  [ @Normalize toy_network [1] [1]; @Copied toy_network (Conv2d, "conv1");
    @StyleLossOf toy_network ["style"; "normalize"; "conv1"; "gram"];
    @ReLU_not_inplace toy_network; @Copied toy_network (Conv2d, "conv2");
    @ContentLossOf toy_network ["content"; "normalize"; "conv1"; "relu"; "conv2"];
    @StyleLossOf toy_network ["style"; "normalize"; "conv1"; "relu"; "conv2"; "gram"] ].

End more_samples.

(* ================================================================== *)
(** * Part II: properties                                               *)
(* ================================================================== *)

Section base64_properties.
Local Open Scope N_scope.

Lemma byte_of_to_N b : byte_of_N (Byte.to_N b) = b.
Proof.
  unfold byte_of_N. pose proof (Byte.to_N_bounded b) as Hb.
  rewrite N.mod_small by lia. by rewrite Byte.of_to_N.
Qed.

Lemma all_bytes_complete b : In b all_bytes.
Proof.
  unfold all_bytes. apply in_map_iff. exists (N.to_nat (Byte.to_N b)). split.
  - rewrite N2Nat.id. apply byte_of_to_N.
  - apply in_seq. pose proof (Byte.to_N_bounded b). lia.
Qed.

Lemma forall_byte (f : byte -> bool) :
  forallb f all_bytes = true -> forall a, f a = true.
Proof. intros H a. eapply forallb_forall in H; [exact H | apply all_bytes_complete]. Qed.

Lemma forall_byte2 (f : byte -> byte -> bool) :
  forallb (fun a => forallb (f a) all_bytes) all_bytes = true ->
  forall a b, f a b = true.
Proof. intros H a b. apply forall_byte. by apply (forall_byte _ H a). Qed.

Lemma is_sextet_char_spec v :
  is_sextet_char v = true ->
  Byte.eqb (Base64.b2a_char v) Base64.BASE64_PAD = false /\ Base64.a2b_char (Base64.b2a_char v) = Some v.
Proof.
  unfold is_sextet_char. intros [H1 H2]%andb_true_iff. split.
  - by apply negb_true_iff.
  - destruct (Base64.a2b_char _); [|done]. apply N.eqb_eq in H2. by subst.
Qed.

Lemma sextet_chars v : v < 64 -> is_sextet_char v = true.
Proof.
  intros Hv.
  assert (H : forallb (fun n => is_sextet_char (N.of_nat n)) (seq 0 64) = true)
    by (vm_compute; reflexivity).
  rewrite forallb_forall in H. rewrite <- (N2Nat.id v). apply H, in_seq. lia.
Qed.

Lemma check_pair_all a b : check_pair a b = true.
Proof. apply forall_byte2. vm_compute. reflexivity. Qed.

Lemma check_pair_spec x y :
  let a := Byte.to_N x in
  let b := Byte.to_N y in
  (s1 a < 64 /\ s2 a b < 64 /\ s3 a b < 64 /\ s4 a < 64 /\ s2 a 0 < 64 /\ s3 a 0 < 64)
  /\ N.lor (N.shiftl (s1 a) 2) (N.shiftr (s2 a b) 4) = a
  /\ N.land (s2 a b) 15 = N.shiftr b 4
  /\ N.lor (N.shiftl (N.shiftr a 4) 4) (N.shiftr (s3 a b) 2) = a
  /\ N.land (s3 a b) 3 = N.shiftr b 6
  /\ N.lor (N.shiftl (N.shiftr a 6) 6) (s4 a) = a.
Proof.
  intros a b. pose proof (check_pair_all x y) as H. unfold check_pair in H.
  fold a b in H. repeat (apply andb_true_iff in H as [H ?]).
  repeat match goal with
         | H : (_ <? _) = true |- _ => apply N.ltb_lt in H
         | H : (_ =? _) = true |- _ => apply N.eqb_eq in H
         end.
  tauto.
Qed.

(** One step of the decoder on a character written by the encoder. *)
Lemma a2b_loop_sextet q lc p v rest :
  v < 64 ->
  Base64.a2b_loop q lc p (Base64.b2a_char v :: rest) =
  match q with
  | 0 => Base64.a2b_loop 1 v 0 rest
  | 1 => cons (byte_of_N (N.lor (N.shiftl lc 2) (N.shiftr v 4)))
           <$> Base64.a2b_loop 2 (N.land v 15) 0 rest
  | 2 => cons (byte_of_N (N.lor (N.shiftl lc 4) (N.shiftr v 2)))
           <$> Base64.a2b_loop 3 (N.land v 3) 0 rest
  | _ => cons (byte_of_N (N.lor (N.shiftl lc 6) v)) <$> Base64.a2b_loop 0 0 0 rest
  end.
Proof.
  intros Hv. destruct (is_sextet_char_spec v (sextet_chars v Hv)) as [Hp Ha].
  cbn [Base64.a2b_loop]. by rewrite Hp, Ha.
Qed.

Lemma a2b_loop_newline q lc p rest :
  Base64.a2b_loop q lc p (Base64.NEWLINE :: rest) = Base64.a2b_loop q lc p rest.
Proof. reflexivity. Qed.

(** Three bytes: the four characters of the group decode to them. *)
Lemma a2b_loop_triple x y z rest :
  Base64.a2b_loop 0 0 0 (Base64.b2a_groups [x; y; z] ++ rest) =
  (fun out => x :: y :: z :: out) <$> Base64.a2b_loop 0 0 0 rest.
Proof.
  destruct (check_pair_spec x y) as ((H1 & H2 & _) & E1 & E2 & _).
  destruct (check_pair_spec y z) as ((_ & _ & H3 & _) & _ & _ & E3 & E4 & _).
  destruct (check_pair_spec z z) as ((_ & _ & _ & H4 & _) & _ & _ & _ & _ & E5).
  cbn [Base64.b2a_groups app].
  fold (s1 (Byte.to_N x)) (s2 (Byte.to_N x) (Byte.to_N y))
       (s3 (Byte.to_N y) (Byte.to_N z)) (s4 (Byte.to_N z)).
  rewrite !a2b_loop_sextet by assumption.
  rewrite E1, E2, E3, E4, E5, !byte_of_to_N.
  by destruct (Base64.a2b_loop 0 0 0 rest).
Qed.

Lemma list_ind3 {A} (P : list A -> Prop) :
  P [] -> (forall a, P [a]) -> (forall a b, P [a; b]) ->
  (forall a b c l, P l -> P (a :: b :: c :: l)) ->
  forall l, P l.
Proof.
  intros H0 H1 H2 H3.
  assert (H : forall l, P l /\ (forall a, P (a :: l)) /\ (forall a b, P (a :: b :: l))).
  { induction l as [|c l (IH0 & IH1 & IH2)]; [by auto|].
    repeat split; [apply IH1 | intros; apply IH2 | intros; by apply H3]. }
  intros l. apply H.
Qed.

Lemma a2b_loop_tail1 x rest :
  Base64.a2b_loop 0 0 0 (Base64.b2a_groups [x] ++ rest) = Some [x].
Proof.
  destruct (check_pair_spec x "000"%byte) as ((H1 & _ & _ & _ & H2 & _) & E1 & _).
  cbn [Base64.b2a_groups app].
  replace (N.shiftl (N.land (Byte.to_N x) 3) 4) with (s2 (Byte.to_N x) 0)
    by apply N.lor_0_r.
  fold (s1 (Byte.to_N x)).
  rewrite !a2b_loop_sextet by assumption.
  change (Byte.to_N "000") with 0 in E1. rewrite E1, byte_of_to_N.
  reflexivity.
Qed.

Lemma a2b_loop_tail2 x y rest :
  Base64.a2b_loop 0 0 0 (Base64.b2a_groups [x; y] ++ rest) = Some [x; y].
Proof.
  destruct (check_pair_spec x y) as ((H1 & H2 & _) & E1 & E2 & _).
  destruct (check_pair_spec y "000"%byte) as ((_ & _ & _ & _ & _ & H3) & _ & _ & E3 & _).
  cbn [Base64.b2a_groups app].
  replace (N.shiftl (N.land (Byte.to_N y) 15) 2) with (s3 (Byte.to_N y) 0)
    by apply N.lor_0_r.
  fold (s1 (Byte.to_N x)) (s2 (Byte.to_N x) (Byte.to_N y)).
  rewrite !a2b_loop_sextet by assumption.
  change (Byte.to_N "000") with 0 in E3. rewrite E1, E2, E3, !byte_of_to_N.
  reflexivity.
Qed.

(** A piece followed by its newline: when the piece is made of whole
    groups the decoder goes on with what follows; otherwise it stops at
    the padding. *)
Lemma a2b_loop_piece data rest :
  Base64.a2b_loop 0 0 0 (Base64.b2a_base64 data ++ rest) =
  if decide (length data `mod` 3 = 0)%nat
  then (app data) <$> Base64.a2b_loop 0 0 0 rest
  else Some data.
Proof.
  unfold Base64.b2a_base64. rewrite <- app_assoc. cbn [app].
  induction data as [| x | x y | x y z data IH] using list_ind3.
  - cbn [Base64.b2a_groups app length]. rewrite a2b_loop_newline.
    rewrite decide_True by done. by destruct (Base64.a2b_loop 0 0 0 rest).
  - by rewrite a2b_loop_tail1, decide_False.
  - by rewrite a2b_loop_tail2, decide_False.
  - change (Base64.b2a_groups (x :: y :: z :: data)) with (Base64.b2a_groups [x; y; z] ++ Base64.b2a_groups data).
    rewrite <- app_assoc, a2b_loop_triple, IH.
    replace (length (x :: y :: z :: data) `mod` 3)%nat with (length data `mod` 3)%nat.
    2:{ cbn [length]. replace (S (S (S (length data)))) with (length data + 1 * 3)%nat by lia.
        by rewrite Nat.Div0.mod_add. }
    destruct (decide _); [|done].
    by destruct (Base64.a2b_loop 0 0 0 rest).
Qed.

Lemma decode_pieces n (s : bytes) :
  (length s <= n)%nat ->
  Base64.a2b_loop 0 0 0 (concat (map Base64.b2a_base64 (Base64.pieces n s))) = Some s.
Proof.
  revert s. induction n as [|n IH]; intros s Hn.
  - destruct s; [done | cbn in Hn; lia].
  - destruct s as [|x s']; [done|]. set (s := x :: s') in *.
    change (Base64.pieces (S n) s) with (take Base64.MAXBINSIZE s :: Base64.pieces n (drop Base64.MAXBINSIZE s)).
    cbn [map concat]. rewrite a2b_loop_piece.
    destruct (decide (length s <= Base64.MAXBINSIZE)%nat) as [Hs|Hs].
    + rewrite take_ge, drop_ge by done.
      replace (Base64.pieces n []) with (@nil bytes) by (by destruct n).
      cbn [map concat]. case_decide; [|done]. cbn. by rewrite app_nil_r.
    + rewrite decide_True.
      2:{ rewrite length_take, Nat.min_l by lia. reflexivity. }
      rewrite IH.
      * cbn. by rewrite take_drop.
      * rewrite length_drop. subst s. cbn [length] in *. unfold Base64.MAXBINSIZE in *. lia.
Qed.

Theorem decodebytes_encodebytes (s : bytes) :
  Base64.decodebytes (Base64.encodebytes s) = Some s.
Proof. apply decode_pieces. done. Qed.

Lemma b2a_char_ascii v : is_ascii (Base64.b2a_char v).
Proof.
  unfold Base64.b2a_char, is_ascii.
  assert (H : forallb (fun b => Byte.to_N b <? 128) (Base64.BASE64_PAD :: Base64.table_b2a_base64) = true)
    by (vm_compute; reflexivity).
  rewrite forallb_forall in H. apply N.ltb_lt, H.
  destruct (nth_in_or_default (N.to_nat v) Base64.table_b2a_base64 Base64.BASE64_PAD) as [Hin | ->];
    [by right | by left].
Qed.

Lemma b2a_groups_ascii data : Forall is_ascii (Base64.b2a_groups data).
Proof.
  induction data as [| x | x y | x y z data IH] using list_ind3; cbn [Base64.b2a_groups];
    repeat first [ apply Forall_nil_2 | apply Forall_cons_2 | apply b2a_char_ascii
                 | exact IH | by vm_compute ].
Qed.

Lemma encodebytes_ascii s : Forall is_ascii (Base64.encodebytes s).
Proof.
  unfold Base64.encodebytes. apply Forall_concat, Forall_forall.
  intros p (d & -> & _)%list_elem_of_fmap. unfold Base64.b2a_base64.
  apply Forall_app. split; [apply b2a_groups_ascii|].
  apply Forall_cons_2; [by vm_compute | apply Forall_nil_2].
Qed.

Lemma bytes_decode_ascii (bs : bytes) :
  Forall is_ascii bs -> exists s, bytes_decode bs = Some s /\ str_encode s = bs.
Proof.
  unfold bytes_decode. induction 1 as [|b bs Hb _ (s & Hs & Es)].
  - by exists EmptyString.
  - exists (String (ascii_of_N (Byte.to_N b)) s). unfold is_ascii in Hb.
    cbn [bytes_decode_aux str_encode].
    rewrite N_ascii_embedding by lia.
    apply N.ltb_lt in Hb as Hb'. rewrite Hb', Hs, Es, byte_of_to_N. done.
Qed.

Lemma encode_then_decode (data : bytes) :
  exists s,
    bytes_decode (Base64.encodebytes data) = Some s
    /\ Base64.decodebytes (str_encode s) = Some data.
Proof.
  destruct (bytes_decode_ascii _ (encodebytes_ascii data)) as (s & Hs & Es).
  exists s. split; [exact Hs|]. by rewrite Es, decodebytes_encodebytes.
Qed.

(** C9: for every byte buffer [image], whatever its current position,
    [image_to_base64] returns a string, and [base64_to_image] of that
    string is a fresh buffer holding all the bytes of [image]; this holds
    for the pair of helpers of the bot and for the pair of the model
    service. *)
Theorem base64_round_trip (image : BytesIO) :
  (exists s,
     fst (BotApp.images.image_to_base64 image) = Some s
     /\ BotApp.images.base64_to_image s = Some (BytesIO_new (getvalue image)))
  /\ (exists s,
     fst (ModelApp.images.image_to_base64 image) = Some s
     /\ ModelApp.images.base64_to_image s = Some (BytesIO_new (getvalue image))).
Proof.
  destruct (encode_then_decode (getvalue image)) as (s & Hs & Hd).
  split; exists s.
  - unfold BotApp.images.image_to_base64, BotApp.images.base64_to_image.
    cbn -[bytes_decode Base64.encodebytes Base64.decodebytes str_encode].
    by rewrite drop_0, Hs, Hd.
  - unfold ModelApp.images.image_to_base64, ModelApp.images.base64_to_image.
    cbn -[bytes_decode Base64.encodebytes Base64.decodebytes str_encode].
    by rewrite drop_0, Hs, Hd.
Qed.

End base64_properties.

Section model_app_properties.
Import ModelApp ModelApp.views ModelApp.requests ModelApp.training.
Context `{Torch}.

Lemma bind_lift_ok {A B} (r : result A) (a : A) (k : A -> W B) :
  r = Ok a -> bind (lift r) k = k a.
Proof. intros ->. unfold bind, lift. by destruct (k a). Qed.

Lemma bind_lift_raise {A B} (r : result A) e (k : A -> W B) :
  r = Raise e -> bind (lift r) k = ([], Raise e).
Proof. by intros ->. Qed.

Lemma bind_ret {A B} (a : A) (k : A -> W B) : bind (ret a) k = k a.
Proof. unfold bind, ret. by destruct (k a). Qed.

(** The tasks of a comprehension that never raise. *)
Lemma map_W_total {A B} (ev : A -> event) (f : A -> B) (g : A -> W B) xs :
  (forall x, g x = ([ev x], Ok (f x))) ->
  map_W g xs = (map ev xs, Ok (map f xs)).
Proof.
  intros Hg. induction xs as [|x xs IH]; [done|].
  cbn [map_W map]. rewrite Hg, IH. cbn. by rewrite app_nil_r.
Qed.

(** A comprehension whose every task raises at once. *)
Lemma map_W_raise {A B} (g : A -> W B) e x xs :
  (forall x, g x = ([], Raise e)) -> map_W g (x :: xs) = ([], Raise e).
Proof. intros Hg. cbn [map_W]. by rewrite Hg. Qed.

Lemma get_fitted_image_some style_img content_img :
  get_fitted_image (Some style_img) content_img =
  ([TrainerBuilt style_img content_img],
   Ok (fit_image (build_trainer style_img content_img) content_img)).
Proof. reflexivity. Qed.

Lemma get_inferred_image_eq model content_image :
  get_inferred_image model content_image =
  ([ModelTested model content_image], Ok (model_test model content_image)).
Proof. reflexivity. Qed.

Lemma post_dispatch json style :
  json !! "style" = Some style ->
  post (Some json) =
  if json_eq_str style "style_custom" then use_neural_algorithm json
  else use_gan_model json.
Proof.
  intros Hs. unfold post. rewrite decide_False.
  2:{ intros ->. by rewrite lookup_empty in Hs. }
  unfold getitem. rewrite Hs. by rewrite (bind_lift_ok _ style _ eq_refl).
Qed.

Lemma bind_pack images :
  (let! packed := lift (pack_processed_images images) in ret (Body packed))%W
  = ([], packed images).
Proof. unfold packed. by destruct (pack_processed_images images). Qed.

Lemma bind_total {A B} t (a : A) (k : A -> W B) r :
  k a = ([], r) -> bind (t, Ok a) k = (t, r).
Proof. intros Hk. unfold bind. rewrite Hk. by rewrite app_nil_r. Qed.

Lemma use_gan_model_registered json name model content_images o :
  json !! "style" = Some (JStr name) ->
  gan_models !! name = Some model ->
  extract_original_images json false = Ok (o, content_images) ->
  use_gan_model json =
  (map (ModelTested model) content_images,
   packed (map (model_test model) content_images)).
Proof.
  intros Hs Hm He. unfold use_gan_model.
  rewrite (bind_lift_ok _ _ _ He).
  erewrite (map_W_total (ModelTested model) (model_test model)).
  2:{ intros c.
      rewrite (bind_lift_ok _ (JStr name)) by (unfold getitem; by rewrite Hs).
      rewrite (bind_lift_ok _ model) by (unfold gan_models_getitem; by rewrite Hm).
      apply get_inferred_image_eq. }
  apply bind_total, bind_pack.
Qed.

Lemma use_gan_model_unregistered json name o c content_images :
  json !! "style" = Some (JStr name) ->
  gan_models !! name = None ->
  extract_original_images json false = Ok (o, c :: content_images) ->
  use_gan_model json = ([], Raise (KeyError (JStr name))).
Proof.
  intros Hs Hm He. unfold use_gan_model.
  rewrite (bind_lift_ok _ _ _ He).
  erewrite map_W_raise; [reflexivity|].
  intros x.
  rewrite (bind_lift_ok _ (JStr name)) by (unfold getitem; by rewrite Hs).
  apply bind_lift_raise. unfold gan_models_getitem. by rewrite Hm.
Qed.

(** Events of a computation. *)
Lemma bind_events {A B} (P : event -> Prop) (m : W A) (k : A -> W B) :
  Forall P (fst m) -> (forall a, Forall P (fst (k a))) -> Forall P (fst (bind m k)).
Proof.
  intros Hm Hk. destruct m as [t [a|e]]; cbn in *; [|done].
  specialize (Hk a). destruct (k a) as [t' r]. cbn in *. by apply Forall_app.
Qed.

Lemma lift_events {A} (P : event -> Prop) (r : result A) : Forall P (fst (lift r)).
Proof. constructor. Qed.

Lemma map_W_events {A B} (P : event -> Prop) (g : A -> W B) xs :
  (forall x, Forall P (fst (g x))) -> Forall P (fst (map_W g xs)).
Proof.
  intros Hg. induction xs as [|x xs IH]; [constructor|].
  cbn [map_W]. apply bind_events; [apply Hg|]. intros y.
  apply bind_events; [apply IH|]. intros ys. constructor.
Qed.

Lemma use_neural_algorithm_events json :
  Forall is_fitting (fst (use_neural_algorithm json)).
Proof.
  unfold use_neural_algorithm.
  apply bind_events; [apply lift_events|]. intros [style_image content_images].
  apply bind_events.
  - destruct (length content_images =? 1)%nat.
    + apply bind_events; [apply lift_events|]. intros c.
      apply bind_events; [|intros; constructor].
      destruct style_image; cbn; repeat constructor.
    + apply bind_events.
      * unfold Pool. destruct (_ <? 1)%nat; cbn; repeat constructor.
      * intros _. apply map_W_events. intros c.
        destruct style_image; cbn; repeat constructor.
  - intros fitted. apply bind_events; [apply lift_events|]. intros; constructor.
Qed.

Lemma use_gan_model_events json name model :
  json !! "style" = Some (JStr name) ->
  gan_models !! name = Some model ->
  Forall (is_test_of model) (fst (use_gan_model json)).
Proof.
  intros Hs Hm. unfold use_gan_model.
  apply bind_events; [apply lift_events|]. intros [o content_images].
  apply bind_events.
  - apply map_W_events. intros c.
    rewrite (bind_lift_ok _ (JStr name)) by (unfold getitem; by rewrite Hs).
    rewrite (bind_lift_ok _ model) by (unfold gan_models_getitem; by rewrite Hm).
    cbn. repeat constructor.
  - intros inferred. apply bind_events; [apply lift_events|]. intros; constructor.
Qed.

Lemma result_map_cons {A B} (f : A -> result B) x xs ys :
  result_map f (x :: xs) = Ok ys -> exists y ys', ys = y :: ys'.
Proof.
  cbn. destruct (f x); [|done]. destruct (result_map f xs); [|done].
  intros [= <-]. eauto.
Qed.

(** Extraction for the GAN path: the items of [content_images], each loaded
    at its own size. *)
Lemma extract_without_style json :
  extract_original_images json false =
  (let! encoded := getitem json "content_images" in
   let! items := iterate encoded in
   let! content_images := result_map (load_encoded None) items in
   Ok (None, content_images))%result.
Proof. reflexivity. Qed.

Lemma use_gan_model_unknown json name encoded item items :
  json !! "style" = Some (JStr name) ->
  gan_models !! name = None ->
  json !! "content_images" = Some encoded ->
  iterate encoded = Ok (item :: items) ->
  exists e,
    use_gan_model json = ([], Raise e)
    /\ (forall o cs, extract_original_images json false = Ok (o, cs) ->
        e = KeyError (JStr name)).
Proof.
  intros Hs Hm Hc Hi.
  destruct (extract_original_images json false) as [[o cs]|e] eqn:He.
  - assert (exists c cs', cs = c :: cs') as (c & cs' & ->).
    { rewrite extract_without_style in He. unfold getitem in He.
      rewrite Hc in He. cbn in He. rewrite Hi in He. cbn [result_bind] in He.
      destruct (result_map _ (item :: items)) as [ys|] eqn:Hr; [|done].
      apply result_map_cons in Hr as (y & ys' & ->). injection He as _ <-. eauto. }
    exists (KeyError (JStr name)). split; [|done].
    by eapply use_gan_model_unregistered.
  - exists e. split; [|done]. unfold use_gan_model. by rewrite He.
Qed.

(** C1 (amended): routing of a [/transfer] request by its style [name].
    With [style_custom] the view is [use_neural_algorithm], whatever the
    other fields, and every trainer it sets up is one of the fitting
    algorithm.  With a registered style the view is [use_gan_model], and
    every inference is run with the model registered under [name].  With
    an unregistered style and at least one content image the request
    fails, and no other model is substituted: when the images decode the
    exception is the [KeyError] of the style. *)
Theorem transfer_routing json name :
  json !! "style" = Some (JStr name) ->
  (name = "style_custom" ->
     post (Some json) = use_neural_algorithm json
     /\ Forall is_fitting (fst (post (Some json))))
  /\ (forall model, name <> "style_custom" -> gan_models !! name = Some model ->
     post (Some json) = use_gan_model json
     /\ Forall (is_test_of model) (fst (post (Some json))))
  /\ (forall encoded item items,
     name <> "style_custom" -> gan_models !! name = None ->
     json !! "content_images" = Some encoded ->
     iterate encoded = Ok (item :: items) ->
     exists e,
       post (Some json) = ([], Raise e)
       /\ (forall o cs, extract_original_images json false = Ok (o, cs) ->
           e = KeyError (JStr name))).
Proof.
  intros Hs. pose proof (post_dispatch json _ Hs) as Hp. cbn [json_eq_str] in Hp.
  split; [|split].
  - intros ->. rewrite String.eqb_refl in Hp. rewrite Hp. split; [done|apply use_neural_algorithm_events].
  - intros model Hn Hm. apply String.eqb_neq in Hn. rewrite Hn in Hp. rewrite Hp.
    split; [done|by eapply use_gan_model_events].
  - intros encoded item items Hn Hm Hc Hi. apply String.eqb_neq in Hn.
    rewrite Hn in Hp. rewrite Hp. by eapply use_gan_model_unknown.
Qed.

Lemma extract_with_style json o content_images :
  extract_original_images json true = Ok (o, content_images) ->
  exists style_img, o = Some style_img.
Proof.
  unfold extract_original_images.
  destruct (getitem json "style_image") as [enc|]; [|done]. cbn.
  destruct (load_encoded _ enc) as [st|]; [|done]. cbn.
  destruct (getitem json "content_images") as [ci|]; [|done]. cbn.
  destruct (iterate ci) as [items|]; [|done]. cbn.
  destruct (result_map _ items); [|done]. cbn. intros [= <- _]. eauto.
Qed.

(** C4: [use_neural_algorithm] with one content image fits it without a
    pool; with [k >= 2] content images it creates a pool of [min k 3]
    processes, a trainer is built for each image from the style image and
    that image alone, and the fitted images come back in the order of the
    content images. *)
Theorem use_neural_algorithm_dispatch json style_img content_images :
  extract_original_images json true = Ok (Some style_img, content_images) ->
  let fit c := fit_image (build_trainer style_img c) c in
  (length content_images = 1%nat ->
     use_neural_algorithm json =
     (map (TrainerBuilt style_img) content_images,
      packed (map fit content_images)))
  /\ (2 <= length content_images ->
     use_neural_algorithm json =
     (PoolCreated (length content_images `min` 3)
        :: map (TrainerBuilt style_img) content_images,
      packed (map fit content_images)))
  /\ (forall i c, content_images !! i = Some c ->
     map fit content_images !! i = Some (fit c)).
Proof.
  intros He fit. split; [|split].
  - intros Hl. destruct content_images as [|c [|]]; try done.
    unfold use_neural_algorithm. rewrite (bind_lift_ok _ _ _ He).
    cbn [length Nat.eqb lookup list_lookup or_raise].
    rewrite (bind_lift_ok _ c) by done.
    rewrite get_fitted_image_some. apply bind_total, bind_pack.
  - intros Hl. unfold use_neural_algorithm. rewrite (bind_lift_ok _ _ _ He).
    replace (length content_images =? 1)%nat with false
      by (symmetry; apply Nat.eqb_neq; lia).
    unfold Pool, pool_size.
    replace (length content_images `min` 3 <? 1)%nat with false
      by (symmetry; apply Nat.ltb_ge; lia).
    erewrite (map_W_total (TrainerBuilt style_img) fit)
      by (intros; apply get_fitted_image_some).
    cbn [tell bind app]. rewrite bind_pack. by rewrite app_nil_r.
  - intros i c Hi. by rewrite list_lookup_fmap, Hi.
Qed.

Lemma use_gan_model_ignores_style_image (j1 j2 : gmap string json) :
  (forall key, key <> "style_image" -> j1 !! key = j2 !! key) ->
  use_gan_model j1 = use_gan_model j2.
Proof.
  intros Hj. unfold use_gan_model. rewrite !extract_without_style.
  unfold getitem. by rewrite !(Hj "content_images"), !(Hj "style").
Qed.

(** C10: two [/transfer] requests that agree on every field but
    [style_image], with a style other than [style_custom], get the same
    answer (the same response or exception, and the same inferences
    run): the pretrained path never reads [style_image]. *)
Theorem style_image_noninterference users (j1 j2 : gmap string json) :
  (forall key, key <> "style_image" -> j1 !! key = j2 !! key) ->
  (forall style, j1 !! "style" = Some style -> json_eq_str style "style_custom" = false) ->
  transfer users (Some j1) = transfer users (Some j2).
Proof.
  intros Hj Hs. unfold transfer, login.
  rewrite <- !(Hj "username"), <- !(Hj "password") by done.
  destruct (j1 !! "username") as [user|] eqn:Hu; [|done].
  destruct (j1 !! "password") as [pwd|]; cbn [default from_option]; unfold id;
    [|by rewrite andb_false_r].
  destruct (truthy user && truthy pwd); [|done].
  destruct user as [| | |name| |]; try done.
  destruct (users !! name) as [pwhash|]; [|done].
  destruct pwd as [| | |password| |]; try done.
  destruct (check_password_hash pwhash password); [|done].
  assert (Hu2 : j2 !! "username" = Some (JStr name)) by (by rewrite <- Hj).
  destruct (j1 !! "style") as [style|] eqn:Hst.
  - rewrite (post_dispatch j1 style Hst), (post_dispatch j2 style) by (by rewrite <- Hj).
    rewrite (Hs style eq_refl). by apply use_gan_model_ignores_style_image.
  - assert (Hst2 : j2 !! "style" = None) by (by rewrite <- Hj).
    unfold post. rewrite !decide_False.
    2,3: intros ->; by rewrite lookup_empty in *.
    unfold getitem. by rewrite Hst, Hst2.
Qed.

End model_app_properties.

Section style_loss_properties.
Import ModelApp.losses.
Context `{ScalarLaws}.

Lemma sum_upto_zero n (f : nat -> scalar) :
  (forall k, (k < n)%nat -> f k = zero) -> sum_upto n f = zero.
Proof.
  induction n as [|n IH]; intros Hf; [done|]. cbn.
  rewrite IH by (intros; apply Hf; lia). rewrite Hf by lia. apply add_zero.
Qed.

Lemma gram_shape x :
  let '(d1, d2, _, _) := shape x in
  rows (_to_gram_matrix x) = (d1 * d2)%nat /\ cols (_to_gram_matrix x) = (d1 * d2)%nat.
Proof. unfold _to_gram_matrix. by destruct (shape x) as [[[d1 d2] d3] d4]. Qed.

(** An entry of the Gram matrix is the kernel on two rows of the view,
    over the number of elements. *)
Lemma gram_entry x i j :
  let '(d1, d2, d3, d4) := shape x in
  let x' := view x (d1 * d2) (d3 * d4) in
  entry (_to_gram_matrix x) i j = div (dot i j (row x' i) (row x' j)) (of_nat (numel x)).
Proof. unfold _to_gram_matrix. by destruct (shape x) as [[[d1 d2] d3] d4]. Qed.

Lemma gram_symmetric x i j :
  operands_alike ->
  entry (_to_gram_matrix x) i j = entry (_to_gram_matrix x) j i.
Proof.
  intros Halike. pose proof (gram_entry x i j) as Hij.
  pose proof (gram_entry x j i) as Hji.
  destruct (shape x) as [[[d1 d2] d3] d4]. cbn zeta in Hij, Hji.
  rewrite Hij, Hji. f_equal. apply Halike. unfold row. by rewrite !length_map.
Qed.

Lemma gram_numel x :
  (rows (_to_gram_matrix x) * cols (_to_gram_matrix x) = 0)%nat -> numel x = 0%nat.
Proof.
  unfold _to_gram_matrix, numel. destruct (shape x) as [[[d1 d2] d3] d4].
  cbn [rows cols div_by mm transpose view]. intros Hz.
  assert (Hd : (d1 * d2 = 0)%nat) by (apply Nat.eq_mul_0 in Hz; by destruct Hz).
  by rewrite Hd.
Qed.


End style_loss_properties.

Section scalars_properties.
Import QArith Qcanon SpecFloat ModelApp.losses.
#[local] Existing Instance binary32.

Lemma rational_laws : @ScalarLaws rational.
Proof.
  split; cbn.
  - intros a _. unfold Qcminus. apply Qcplus_opp_r.
  - apply Qcmult_0_l.
  - apply Qcplus_0_l.
  - intros n _. unfold Qcdiv. apply Qcmult_0_l.
Qed.

Lemma SFmul_comm a b : SFmul prec emax a b = SFmul prec emax b a.
Proof.
  destruct a as [sa|sa| |sa ma ea], b as [sb|sb| |sb mb eb]; cbn;
    rewrite ?(xorb_comm sa sb); try reflexivity.
  by rewrite Pos.mul_comm, Z.add_comm.
Qed.

Lemma SFsub_diag a :
  match a with S754_zero _ | S754_finite _ _ _ => True | _ => False end ->
  SFsub prec emax a a = S754_zero false.
Proof.
  destruct a as [s|s| |s m e]; try done; intros _.
  - by destruct s.
  - unfold SFsub. rewrite Z.min_id. unfold shl_align. rewrite Z.sub_diag. cbn [fst].
    rewrite ?Z.sub_diag. reflexivity.
Qed.

Lemma shr_1_m mrs : (0 <= shr_m mrs)%Z -> shr_m (shr_1 mrs) = Z.div2 (shr_m mrs).
Proof. destruct mrs as [[|[p|p|]|p] r s]; cbn; intros Hm; try done; lia. Qed.

Lemma iter_shr_1 q : forall mrs,
  (0 <= shr_m mrs)%Z ->
  shr_m (SpecFloat.iter_pos shr_1 q mrs) = Z.shiftr (shr_m mrs) (Zpos q).
Proof.
  assert (Hdiv2 : forall mrs, (0 <= shr_m mrs -> 0 <= shr_m (shr_1 mrs))%Z).
  { intros mrs Hm. rewrite shr_1_m, Z.div2_div by done. apply Z.div_pos; lia. }
  induction q as [q IH|q IH|]; intros mrs Hm; cbn [SpecFloat.iter_pos].
  - assert (Hnn : forall mrs, (0 <= shr_m mrs -> 0 <= shr_m (SpecFloat.iter_pos shr_1 q mrs))%Z).
    { intros mrs' Hm'. rewrite IH by done. by apply Z.shiftr_nonneg. }
    rewrite IH by auto. rewrite IH by auto. rewrite shr_1_m by done.
    rewrite Z.div2_spec, !Z.shiftr_shiftr by lia. f_equal. lia.
  - assert (Hnn : forall mrs, (0 <= shr_m mrs -> 0 <= shr_m (SpecFloat.iter_pos shr_1 q mrs))%Z).
    { intros mrs' Hm'. rewrite IH by done. by apply Z.shiftr_nonneg. }
    rewrite IH by auto. rewrite IH by auto.
    rewrite !Z.shiftr_shiftr by lia. f_equal. lia.
  - rewrite shr_1_m by done. apply Z.div2_spec.
Qed.

Lemma digits2_pos_size p : digits2_pos p = Pos.size p.
Proof. induction p; cbn; congruence. Qed.

(** A positive number keeps a bit when fewer bits than it has are
    shifted out. *)
Lemma shiftr_pos p q :
  (Zpos q < Zpos (digits2_pos p))%Z -> (0 < Z.shiftr (Zpos p) (Zpos q))%Z.
Proof.
  intros Hq. rewrite digits2_pos_size in Hq.
  rewrite Z.shiftr_div_pow2 by lia. apply Z.div_str_pos. split; [lia|].
  pose proof (Pos.size_le p) as Hle.
  assert (H2 : (2 ^ Zpos (Pos.size p) <= 2 * Zpos p)%Z).
  { rewrite <- Pos2Z.inj_pow. change (2 * Zpos p)%Z with (Zpos p~0). lia. }
  assert (Hpow : (2 * 2 ^ Zpos q <= 2 ^ Zpos (Pos.size p))%Z).
  { rewrite <- Z.pow_succ_r by lia. apply Z.pow_le_mono_r; lia. }
  lia.
Qed.

(** Rounding at an exponent that is not below the smallest one leaves a
    positive mantissa positive. *)
Lemma shr_fexp_pos p e l :
  (emin prec emax <= e)%Z ->
  (0 < shr_m (fst (shr_fexp prec emax (Zpos p) e l)))%Z
  /\ (emin prec emax <= snd (shr_fexp prec emax (Zpos p) e l))%Z.
Proof.
  intros He. unfold shr_fexp, shr. cbn [Zdigits2].
  destruct (fexp prec emax (Zpos (digits2_pos p) + e) - e)%Z as [|q|q] eqn:Hn.
  - cbn. by destruct l as [|[]].
  - assert (Hq : (Zpos q < Zpos (digits2_pos p))%Z).
    { unfold fexp, emin, prec, emax in *. lia. }
    cbn [fst snd]. rewrite iter_shr_1 by (by destruct l as [|[]]).
    split; [|lia]. replace (shr_m (shr_record_of_loc (Zpos p) l)) with (Zpos p)
      by (by destruct l as [|[]]).
    by apply shiftr_pos.
  - cbn. by destruct l as [|[]].
Qed.

Lemma binary_round_aux_pos p e l :
  (emin prec emax <= e)%Z ->
  positive_float (binary_round_aux prec emax false (Zpos p) e l).
Proof.
  intros He. unfold binary_round_aux.
  destruct (shr_fexp_pos p e l He) as [Hm He'].
  destruct (shr_fexp prec emax (Zpos p) e l) as [mrs' e'] . cbn [fst snd] in *.
  set (m2 := round_nearest_even (shr_m mrs') (loc_of_shr_record mrs')).
  assert (Hm2 : (0 < m2)%Z).
  { subst m2. unfold round_nearest_even.
    destruct (loc_of_shr_record mrs') as [|[]]; try lia.
    destruct (Z.even _); lia. }
  destruct m2 as [|p2|p2]; try lia.
  destruct (shr_fexp_pos p2 e' loc_Exact He') as [Hm'' _].
  destruct (shr_fexp prec emax (Zpos p2) e' loc_Exact) as [mrs'' e''] . cbn [fst snd] in *.
  destruct (shr_m mrs''); try lia. by destruct (_ <=? _)%Z.
Qed.

Lemma of_nat_pos n : (0 < n)%nat -> positive_float (of_nat n).
Proof.
  intros Hn. cbn. destruct (Z.of_nat n) as [|p|p] eqn:Hz; try lia.
  cbn [binary_normalize]. unfold binary_round.
  destruct (shl_align p 0 _) as [mz ez] eqn:Hal.
  apply binary_round_aux_pos.
  unfold shl_align in Hal.
  destruct (fexp prec emax (Zpos (digits2_pos p) + 0) - 0)%Z eqn:Hd;
    injection Hal as <- <-; unfold fexp, emin, prec, emax in *; lia.
Qed.

Lemma binary32_laws : @ScalarLaws binary32.
Proof.
  split.
  - apply SFsub_diag.
  - reflexivity.
  - reflexivity.
  - intros n Hn. pose proof (of_nat_pos n Hn) as Hp. cbn in *.
    by destruct (binary_normalize prec emax (Z.of_nat n) 0 false) as [| [] | | [] ? ?].
Qed.

(** The kernel that accumulates from the left computes the same number
    for two lists in either order when the product of two numbers does
    not depend on their order. *)
Lemma dot_from_left_alike {A} (add mul : A -> A -> A) (u v : list A) :
  (forall a b, mul a b = mul b a) ->
  forall z, dot_from_left z add mul u v = dot_from_left z add mul v u.
Proof.
  intros Hmul. unfold dot_from_left. revert v.
  induction u as [|a u IH]; intros [|b v] z; cbn; try reflexivity.
  rewrite (Hmul a b). apply IH.
Qed.

Lemma rational_alike : @operands_alike rational.
Proof. intros i j u v _. apply dot_from_left_alike, Qcmult_comm. Qed.

Lemma binary32_alike : @operands_alike binary32.
Proof. intros i j u v _. apply dot_from_left_alike, SFmul_comm. Qed.

End scalars_properties.

Section handlers_properties.
Import BotApp BotApp.messages BotApp.fsm.
Context `{Env}.

Lemma download_photo_eq message w : download_photo message w = (fetched message, w).
Proof.
  unfold download_photo, fetched, bind, lift, ret.
  destruct (or_raise _ _); cbn; [|done]. by destruct (download _).
Qed.

Lemma bind_run {A B} (m : M A) (k : A -> M B) w r w' :
  m w = (r, w') ->
  bind m k w = match r with Ok a => k a w' | Raise e => (Raise e, w') end.
Proof. unfold bind. by intros ->. Qed.

Lemma lift_run {A B} (r : result A) (k : A -> M B) w :
  bind (lift r) k w = match r with Ok a => k a w | Raise e => (Raise e, w) end.
Proof. reflexivity. Qed.

Lemma post_run {B} url body timeout (k : gmap string json -> M B) w :
  bind (post url body timeout) k w =
  let w' := mkWorld (meanwhile (session w)) (trace w ++ [Post url body timeout]) in
  match http_post url body timeout with
  | Ok a => k a w'
  | Raise e => (Raise e, w')
  end.
Proof. reflexivity. Qed.

Lemma collect_eq acc msg w : collect acc msg w = (collected [msg] acc, w).
Proof.
  unfold collect. cbn [collected]. destruct (photo msg); [done|].
  destruct (length acc <? max_images)%nat; [|done].
  rewrite (bind_run _ _ _ _ _ (download_photo_eq msg w)).
  by destruct (fetched msg).
Qed.

Lemma collected_cons msg rest acc :
  collected (msg :: rest) acc =
  (let! acc := collected [msg] acc in collected rest acc)%result.
Proof.
  cbn [collected]. destruct (photo msg); [done|].
  destruct (length acc <? max_images)%nat; [|done].
  by destruct (fetched msg).
Qed.

Lemma for_each_collect media_group acc w :
  for_each collect media_group acc w = (collected media_group acc, w).
Proof.
  revert acc. induction media_group as [|msg rest IH]; intros acc; [done|].
  cbn [for_each]. rewrite (bind_run _ _ _ _ _ (collect_eq acc msg w)).
  rewrite (collected_cons msg rest acc).
  destruct (collected [msg] acc); [apply IH|done].
Qed.

Lemma collected_full media_group acc :
  (max_images <= length acc)%nat -> collected media_group acc = Ok acc.
Proof.
  intros Hacc. induction media_group as [|msg rest IH]; [done|].
  cbn [collected]. destruct (photo msg); [done|].
  replace (length acc <? max_images)%nat with false; [done|].
  symmetry. by apply Nat.ltb_ge.
Qed.

(** With every message a photo, the loop stores the first
    [max_images - length acc] of them, each one downloaded, in order. *)
Lemma collected_photos media_group acc images :
  Forall (fun m => photo m <> []) media_group ->
  Forall2 (fun m b => fetched m = Ok b)
    (take (max_images - length acc) media_group) images ->
  collected media_group acc = Ok (acc ++ images).
Proof.
  intros Hp. revert acc images. induction Hp as [|msg rest Hmsg _ IH]; intros acc images Hf.
  - rewrite take_nil in Hf. apply Forall2_nil_inv_l in Hf as ->. cbn. by rewrite app_nil_r.
  - cbn [collected]. destruct (photo msg) as [|p ps] eqn:Hph; [done|].
    destruct (length acc <? max_images)%nat eqn:Hlt.
    + apply Nat.ltb_lt in Hlt.
      destruct (max_images - length acc)%nat as [|k] eqn:Hk; [lia|].
      rewrite firstn_cons in Hf. apply Forall2_cons_inv_l in Hf as (b & images' & Hb & Hrest & ->).
      rewrite Hb. cbn. rewrite (IH _ images').
      * by rewrite <- app_assoc.
      * rewrite length_app. cbn [length].
        replace (max_images - (length acc + 1))%nat with k by lia.
        exact Hrest.
    + apply Nat.ltb_ge in Hlt.
      replace (max_images - length acc)%nat with O in Hf by lia.
      rewrite take_0 in Hf. apply Forall2_nil_inv_l in Hf as ->.
      rewrite app_nil_r. by apply collected_full.
Qed.

Lemma request_from_data_outcome w : request_outcome w (request_from_data w).
Proof.
  unfold request_from_data, proxy.
  rewrite (bind_run get_data _ w (Ok (data (session w))) w eq_refl).
  set (d := data (session w)).
  unfold bind at 1. unfold bind at 1. unfold lift at 1.
  destruct (getitem d "style") as [style|e]; [|constructor].
  unfold bind at 1. unfold lift at 1.
  destruct (getitem d "style_image") as [style_image|e]; [|constructor].
  unfold bind at 1. unfold lift at 1.
  destruct (getitem d "content_images") as [content_images|e]; [|constructor].
  unfold bind at 1. unfold requests.request_style_transfer.
  unfold bind at 1. unfold lift at 1.
  destruct (if requests.value_truthy style_image then _ else _)
    as [[encoded_style style_image']|e]; [|constructor].
  unfold bind at 1. unfold lift at 1.
  destruct (match content_images with VBuffers l => Ok l | _ => _ end) as [buffers|e];
    [|constructor].
  unfold bind at 1. unfold lift at 1.
  destruct (result_map _ buffers) as [encoded|e]; [|constructor].
  unfold bind at 1. unfold lift at 1.
  destruct (requests.style_to_json style) as [js|e]; [|constructor].
  unfold bind at 1. unfold post at 1.
  destruct (http_post _ _ _) as [processed|e]; [|apply request_failed].
  unfold bind at 1. unfold lift at 1.
  destruct (getitem processed "fitted_images") as [fitted|e]; [|apply request_failed].
  unfold bind at 1. unfold lift at 1.
  destruct (iterate fitted) as [items|e]; [|apply request_failed].
  unfold bind at 1. unfold lift at 1.
  destruct (result_map _ items) as [images|e]; [|apply request_failed].
  cbn. apply request_answered.
Qed.

Lemma no_delivery new :
  Forall (fun c => ~ is_delivery c) new -> ~ Exists is_delivery new.
Proof. intros Hall Hex. apply Exists_exists in Hex as (c & Hc & Hd).
       rewrite Forall_forall in Hall. by apply (Hall c). Qed.

Lemma calls_of_app {A} w (run : result A * World) new :
  trace (snd run) = trace w ++ new -> calls_of w run = new.
Proof. unfold calls_of. intros ->. by rewrite drop_app_length. Qed.

Lemma api_run c w :
  api c w = match api_error c with
            | Some e => (Raise e, w)
            | None => (Ok tt, mkWorld (session w) (trace w ++ [c]))
            end.
Proof. reflexivity. Qed.

Lemma get_state_run {B} (k : option State -> M B) w :
  bind get_state k w = k (state (session w)) w.
Proof. reflexivity. Qed.

Lemma answer_photo_guarded : guarded answer_photo.
Proof.
  intros images w. unfold answer_photo. rewrite get_state_run.
  destruct (state (session w)) as [[]|]; split; try done;
    try (by exists []; rewrite app_nil_r).
  unfold bind. rewrite api_run.
  destruct (api_error _); [by exists []; rewrite app_nil_r|].
  unfold lift. destruct (or_raise _ _) as [image|]; [|by eexists].
  rewrite api_run. destruct (api_error (AnswerPhoto image)); cbn [snd trace]; [by eexists|].
  rewrite <- app_assoc. by eexists.
Qed.

Lemma answer_media_group_guarded : guarded answer_media_group.
Proof.
  intros images w. unfold answer_media_group. rewrite get_state_run.
  destruct (state (session w)) as [[]|]; split; try done;
    try (by exists []; rewrite app_nil_r).
  unfold bind. rewrite api_run.
  destruct (api_error _); [by exists []; rewrite app_nil_r|].
  rewrite api_run. destruct (api_error (AnswerMediaGroup images)); cbn [snd trace];
    [by eexists|].
  rewrite <- app_assoc. by eexists.
Qed.

Lemma finish_run w :
  finish w = (Ok tt, mkWorld (mkSession None ∅) (trace w ++ [SetState None; SetData ∅])).
Proof. unfold finish, bind, set_state, set_data. cbn. by rewrite <- app_assoc. Qed.

Lemma try_finally_finish {A} (body : M A) w :
  try_finally body finish w =
  (fst (body w),
   mkWorld (mkSession None ∅) (trace (snd (body w)) ++ [SetState None; SetData ∅])).
Proof. unfold try_finally. destruct (body w) as [r w']. by rewrite finish_run. Qed.

(** From the request on: the session is finished whatever happens, and
    the result is handed over only if the session the call came back to
    was still awaiting it. *)
Lemma request_and_deliver deliver w :
  guarded deliver ->
  let run := try_finally (bind request_from_data deliver) finish w in
  session (snd run) = mkSession None ∅
  /\ exists new,
      trace (snd run) = trace w ++ new
      /\ (Exists is_delivery new ->
          state (meanwhile (session w)) = Some await_model_response).
Proof.
  intros Hd run. subst run. rewrite try_finally_finish. split; [done|]. cbn [snd trace].
  unfold bind.
  destruct (request_from_data_outcome w) as [e|url body timeout e|url body timeout images d].
  - eexists. split; [done|]. intros Hex. exfalso. revert Hex.
    apply no_delivery. repeat (apply Forall_cons_2; [by intros []|]). apply Forall_nil_2.
  - cbn. rewrite <- app_assoc. eexists. split; [done|]. intros Hex. exfalso. revert Hex.
    apply no_delivery. repeat (apply Forall_cons_2; [by intros []|]). apply Forall_nil_2.
  - set (w4 := restored d (posted w (Post url body timeout))).
    destruct (decide (state (meanwhile (session w)) = Some await_model_response)) as [Hs|Hs].
    + destruct (Hd images w4) as [_ [new Hnew]]. rewrite Hnew. cbn.
      rewrite <- !app_assoc. eexists. split; [done|]. done.
    + destruct (Hd images w4) as [Hskip _]. rewrite Hskip by done. cbn.
      rewrite <- !app_assoc. eexists. split; [done|]. intros Hex. exfalso. revert Hex.
      apply no_delivery. repeat (apply Forall_cons_2; [by intros []|]). apply Forall_nil_2.
Qed.

Lemma proxy_run {A} (body : gmap string value -> M (A * gmap string value)) w r w1 :
  body (data (session w)) w = (r, w1) ->
  proxy body w =
  match r with
  | Ok (a, d') =>
      (Ok a, mkWorld (mkSession (state (session w1)) d') (trace w1 ++ [SetData d']))
  | Raise e => (Raise e, w1)
  end.
Proof.
  intros Hb. unfold proxy.
  rewrite (bind_run get_data _ w (Ok (data (session w))) w eq_refl).
  rewrite (bind_run _ _ _ _ _ Hb). by destruct r as [[a d']|e].
Qed.

Lemma proxy_ok {A} (body : gmap string value -> M (A * gmap string value)) w a d' w1 :
  body (data (session w)) w = (Ok (a, d'), w1) ->
  proxy body w =
  (Ok a, mkWorld (mkSession (state (session w1)) d') (trace w1 ++ [SetData d'])).
Proof. intros Hb. by rewrite (proxy_run _ _ _ _ Hb). Qed.

Lemma proxy_raise {A} (body : gmap string value -> M (A * gmap string value)) w e w1 :
  body (data (session w)) w = (Raise e, w1) -> proxy body w = (Raise e, w1).
Proof. intros Hb. by rewrite (proxy_run _ _ _ _ Hb). Qed.

Lemma next_run w : next w = (Ok (next_state (state (session w))), advanced w).
Proof. reflexivity. Qed.

Lemma receive_content_images_handler_run message media_group w :
  receive_content_images_handler message media_group w =
  begun (collected media_group []) answer_media_group w.
Proof.
  unfold receive_content_images_handler, begun.
  pose proof (for_each_collect media_group [] w) as Hc.
  destruct (collected media_group []) as [images|e].
  2:{ erewrite bind_run; [|apply proxy_raise; erewrite bind_run by exact Hc; reflexivity].
      reflexivity. }
  erewrite bind_run; [|apply proxy_ok; erewrite bind_run by exact Hc; reflexivity].
  erewrite bind_run by apply next_run.
  unfold bind at 1. rewrite api_run.
  by destruct (api_error _).
Qed.

Lemma receive_content_image_handler_run message w :
  receive_content_image_handler message w =
  begun (let! image := fetched message in Ok [image])%result answer_photo w.
Proof.
  unfold receive_content_image_handler, begun.
  pose proof (download_photo_eq message w) as Hc.
  destruct (fetched message) as [image|e].
  2:{ erewrite bind_run; [|apply proxy_raise; erewrite bind_run by exact Hc; reflexivity].
      reflexivity. }
  erewrite bind_run; [|apply proxy_ok; erewrite bind_run by exact Hc; reflexivity].
  erewrite bind_run by apply next_run.
  unfold bind at 1. rewrite api_run.
  by destruct (api_error _).
Qed.

(** What holds of every run of the two handlers. *)
Lemma begun_run content deliver w :
  guarded deliver ->
  let run := begun content deliver w in
  exists new,
    trace (snd run) = trace w ++ new
    /\ (In (Answer MAGIC_BEGUN) new -> session (snd run) = mkSession None ∅)
    /\ (Exists is_delivery new ->
        exists d,
          state (meanwhile (mkSession (next_state (state (session w))) d))
          = Some await_model_response).
Proof.
  intros Hd run. subst run. unfold begun.
  destruct content as [images|e].
  2:{ exists []. rewrite app_nil_r. split; [done|]. split; [done|].
      intros Hex. by apply Exists_nil in Hex. }
  destruct (api_error (Answer MAGIC_BEGUN)) as [e|].
  - cbn. rewrite <- app_assoc. eexists. split; [done|]. split.
    + cbn. intros [|[|[]]]; done.
    + intros Hex. exfalso. revert Hex. apply no_delivery.
      repeat (apply Forall_cons_2; [by intros []|]). apply Forall_nil_2.
  - set (w3 := acknowledged (advanced (stored images w))).
    destruct (request_and_deliver deliver w3 Hd) as (Hfin & new & Hnew & Hguard).
    rewrite Hnew. cbn. rewrite <- !app_assoc. eexists. split; [done|].
    split; [by rewrite Hfin|].
    intros Hex. cbn in Hex.
    apply Exists_cons in Hex as [[]|Hex].
    apply Exists_cons in Hex as [[]|Hex].
    apply Exists_cons in Hex as [Hex|Hex].
    { cbn in Hex. by vm_compute in Hex. }
    eexists. by apply Hguard.
Qed.

Lemma image_to_base64_at_end b :
  snd (images.image_to_base64 b) = at_end b.
Proof. reflexivity. Qed.

Lemma encode_buffer_ok b :
  exists e,
    requests.encode_buffer b = Ok (e, at_end b)
    /\ fst (images.image_to_base64 b) = Some e.
Proof.
  destruct (encode_then_decode (getvalue b)) as (e & He & _). exists e.
  assert (Hi : images.image_to_base64 b = (Some e, at_end b)).
  { unfold images.image_to_base64.
    cbn -[bytes_decode Base64.encodebytes]. by rewrite drop_0, He. }
  unfold requests.encode_buffer. by rewrite Hi.
Qed.

Lemma encode_image_buffer b :
  exists e,
    requests.encode_image (VBuffer b) = Ok (e, VBuffer (at_end b))
    /\ fst (images.image_to_base64 b) = Some e.
Proof.
  destruct (encode_buffer_ok b) as (e & He & Hi). exists e.
  split; [|done]. unfold requests.encode_image. by rewrite He.
Qed.

Lemma result_map_total {A B} (f : A -> result B) (P : A -> B -> Prop) l :
  (forall x, exists y, f x = Ok y /\ P x y) ->
  exists ys, result_map f l = Ok ys /\ Forall2 P l ys.
Proof.
  intros Hf. induction l as [|x l (ys & Hys & Hall)].
  - exists []. by split; [|constructor].
  - destruct (Hf x) as (y & Hy & HP). exists (y :: ys). cbn. rewrite Hy, Hys.
    split; [done|by constructor].
Qed.

(** The request of a session that holds what the form stores: it is
    posted, with the content images encoded in their order. *)
Lemma request_from_data_posted w style style_image images :
  data (session w) !! "style" = Some (VStr style) ->
  data (session w) !! "style_image" = Some style_image ->
  (style_image = VNone \/ exists b, style_image = VBuffer b) ->
  data (session w) !! "content_images" = Some (VBuffers images) ->
  exists encoded body more,
    Forall2 (fun b e => fst (images.image_to_base64 b) = Some e) images encoded
    /\ body !! "content_images" = Some (JList (map JStr encoded))
    /\ body !! "style" = Some (JStr style)
    /\ trace (snd (request_from_data w)) =
       trace w
       ++ Post (requests.get_api_url (model_url config) "transfer") body
            (600 * length images)
       :: more.
Proof.
  intros Hs Hsi Hkind Hci.
  destruct (result_map_total requests.encode_buffer
              (fun b y => fst (images.image_to_base64 b) = Some (fst y)) images)
    as (pairs & Henc & Hall).
  { intros b. destruct (encode_buffer_ok b) as (e & He & Hi). by exists (e, at_end b). }
  assert (exists es si, (if requests.value_truthy style_image
                         then requests.encode_image style_image
                         else Ok (EmptyString, style_image)) = Ok (es, si)) as (es & si & Hes).
  { destruct Hkind as [->|[b ->]]; cbn [requests.value_truthy]; [by eexists _, _|].
    destruct (encode_image_buffer b) as (e & He & _). eauto. }
  set (body := ({[ "style" := JStr style;
                   "style_image" := JStr es;
                   "content_images" := JList (map JStr (map fst pairs));
                   "username" := JStr (username config);
                   "password" := JStr (password config) ]} : gmap string json)).
  exists (map fst pairs), body.
  assert (Hpost : forall r w',
            requests.request_style_transfer
              (requests.get_api_url (model_url config) "transfer")
              (VStr style) style_image (VBuffers images)
              (username config) (password config) (verify_ssl config) w = (r, w') ->
            trace w' =
            trace w ++ [Post (requests.get_api_url (model_url config) "transfer") body
                          (600 * length images)]).
  { intros r w'. unfold requests.request_style_transfer.
    rewrite lift_run, Hes, lift_run, lift_run, Henc. cbn zeta. rewrite lift_run.
    cbn [requests.style_to_json]. fold body. rewrite post_run.
    destruct (http_post _ _ _) as [processed|e]; [|by intros [= _ <-]].
    rewrite lift_run. destruct (getitem processed _) as [fitted|e]; [|by intros [= _ <-]].
    rewrite lift_run. destruct (iterate fitted) as [items|e]; [|by intros [= _ <-]].
    rewrite lift_run. destruct (result_map _ items); by intros [= _ <-]. }
  unfold request_from_data.
  destruct (requests.request_style_transfer
              (requests.get_api_url (model_url config) "transfer")
              (VStr style) style_image (VBuffers images)
              (username config) (password config) (verify_ssl config) w)
    as [r w'] eqn:Hr.
  specialize (Hpost _ _ eq_refl).
  assert (Hall' : Forall2 (fun b e => fst (images.image_to_base64 b) = Some e)
                    images (map fst pairs)) by (by apply Forall2_fmap_r).
  destruct r as [[[processed si'] ci']|e].
  - erewrite proxy_ok.
    2:{ rewrite lift_run. unfold getitem at 1. rewrite Hs.
        rewrite lift_run. unfold getitem at 1. rewrite Hsi.
        rewrite lift_run. unfold getitem at 1. rewrite Hci.
        erewrite bind_run by exact Hr. reflexivity. }
    cbn [snd trace]. rewrite Hpost, <- app_assoc. eexists. by repeat split.
  - erewrite proxy_raise.
    2:{ rewrite lift_run. unfold getitem at 1. rewrite Hs.
        rewrite lift_run. unfold getitem at 1. rewrite Hsi.
        rewrite lift_run. unfold getitem at 1. rewrite Hci.
        erewrite bind_run by exact Hr. reflexivity. }
    cbn [snd]. rewrite Hpost. exists []. by repeat split.
Qed.

(** C2: in state [send_content_images], for a media group of [N] photo
    messages whose first [min 3 N] photos download, the handler stores
    exactly these [min 3 N] images, in the order of arrival, moves to
    [await_model_response], acknowledges, and posts the request with
    these images encoded in that order, all in the same call. *)
Theorem content_images_collected message media_group images style style_image w :
  state (session w) = Some send_content_images ->
  data (session w) !! "style" = Some (VStr style) ->
  data (session w) !! "style_image" = Some style_image ->
  (style_image = VNone \/ exists b, style_image = VBuffer b) ->
  Forall (fun m => photo m <> []) media_group ->
  Forall2 (fun m b => fetched m = Ok b) (take max_images media_group) images ->
  api_error (Answer MAGIC_BEGUN) = None ->
  exists encoded body rest,
    calls_of w (receive_content_images_handler message media_group w) =
      [ SetData (<["content_images" := VBuffers images]> (data (session w)));
        SetState (Some await_model_response);
        Answer MAGIC_BEGUN;
        Post (requests.get_api_url (model_url config) "transfer") body
          (600 * length images) ] ++ rest
    /\ length images = Nat.min max_images (length media_group)
    /\ Forall2 (fun b e => fst (images.image_to_base64 b) = Some e) images encoded
    /\ body !! "content_images" = Some (JList (map JStr encoded)).
Proof.
  intros Hstate Hs Hsi Hkind Hphotos Himages Hack.
  rewrite receive_content_images_handler_run. unfold begun.
  rewrite (collected_photos media_group [] images Hphotos Himages), Hack. cbn [app].
  set (w3 := acknowledged (advanced (stored images w))).
  destruct (request_from_data_posted w3 style style_image images)
    as (encoded & body & more & Hall & Hbody & _ & Htrace).
  { cbn. by rewrite lookup_insert_ne. }
  { cbn. by rewrite lookup_insert_ne. }
  { done. }
  { cbn. by rewrite lookup_insert_eq. }
  exists encoded, body.
  rewrite try_finally_finish.
  assert (exists more', trace (snd (bind request_from_data answer_media_group w3))
                        = trace w3 ++ Post (requests.get_api_url (model_url config) "transfer")
                                        body (600 * length images) :: more') as [more' Hmore].
  { unfold bind. destruct (request_from_data w3) as [[processed|e] w4]; cbn [snd] in *.
    - destruct (answer_media_group_guarded processed w4) as [_ [new ->]].
      rewrite Htrace, <- app_assoc. by eexists.
    - by eexists. }
  eexists. split; [|split; [|by split]].
  - apply calls_of_app. cbn [snd trace]. rewrite Hmore.
    subst w3. cbn. rewrite Hstate. cbn. rewrite <- !app_assoc. reflexivity.
  - apply Forall2_length in Himages. rewrite <- Himages, length_take. lia.
Qed.

(** C7 (amended): once the acknowledgement is sent, each of the two
    content image handlers ends with the session finished (no state, no
    data), whatever the remote call does: an answer, a timeout or any
    other exception, and whatever happens to the session meanwhile.
    The handlers move to [await_model_response] and send the
    acknowledgement before they enter [try ... finally]: a handler that
    cannot send it ends without the teardown. *)
Theorem session_teardown message media_group w :
  let single := receive_content_image_handler message w in
  let multi := receive_content_images_handler message media_group w in
  (In (Answer MAGIC_BEGUN) (calls_of w single) ->
     session (snd single) = mkSession None ∅)
  /\ (In (Answer MAGIC_BEGUN) (calls_of w multi) ->
     session (snd multi) = mkSession None ∅).
Proof.
  intros single multi. subst single multi.
  rewrite receive_content_image_handler_run, receive_content_images_handler_run.
  split.
  - destruct (begun_run (let! image := fetched message in Ok [image])%result
                answer_photo w answer_photo_guarded) as (new & Hnew & Hfin & _).
    by rewrite (calls_of_app _ _ _ Hnew).
  - destruct (begun_run (collected media_group []) answer_media_group w
                answer_media_group_guarded) as (new & Hnew & Hfin & _).
    by rewrite (calls_of_app _ _ _ Hnew).
Qed.

(** [/cancel] leaves no state. *)
Lemma cancel_cmd_handler_state message w :
  state (session (snd (cancel_cmd_handler message w))) = None.
Proof.
  unfold cancel_cmd_handler. rewrite get_state_run.
  destruct (state (session w)) as [s|] eqn:Hs.
  - erewrite bind_run by apply finish_run. rewrite api_run.
    by destruct (api_error _).
  - rewrite api_run. by destruct (api_error _).
Qed.

Lemma guard_holds_intro w run :
  (Exists is_delivery (calls_of w run) ->
   exists d,
     state (meanwhile (mkSession (next_state (state (session w))) d))
     = Some await_model_response) ->
  guard_holds w run.
Proof.
  intros Hg.
  assert (Hno : (forall s, state (meanwhile s) <> Some await_model_response) ->
                Forall (fun c => ~ is_delivery c) (calls_of w run)).
  { intros Hm. apply Forall_forall. intros c Hc Hd.
    destruct Hg as [d Hst]; [|by apply (Hm _ Hst)].
    apply Exists_exists. eauto. }
  split; [done|]. split; [done|].
  intros cancel Hm. apply Hno. intros s. rewrite Hm.
  by rewrite cancel_cmd_handler_state.
Qed.


End handlers_properties.

Section gathering_properties.
Import BotApp BotApp.middlewares.

Lemma step_arrives_first g message gd out :
  has_media_group message = Some g ->
  media_group_data gd !! g = None ->
  step (gd, out) (Arrives message) =
  (mkGathering (<[g := [message]]> (media_group_data gd)) (conf_is_last gd), out).
Proof. intros Hg Hd. unfold step, gather_begin. by rewrite Hg, Hd. Qed.

Lemma step_arrives_next g message messages gd out :
  has_media_group message = Some g ->
  media_group_data gd !! g = Some messages ->
  step (gd, out) (Arrives message) =
  (mkGathering (<[g := messages ++ [message]]> (media_group_data gd)) (conf_is_last gd),
   out ++ [Dropped message]).
Proof. intros Hg Hd. unfold step, gather_begin. by rewrite Hg, Hd. Qed.

Lemma step_wakes g message messages gd out :
  has_media_group message = Some g ->
  media_group_data gd !! g = Some messages ->
  step (gd, out) (Wakes message) =
  (mkGathering (media_group_data gd) ({[message_id message]} ∪ conf_is_last gd),
   out ++ [Handled message (Some messages)]).
Proof. intros Hg Hd. unfold step, gather_end, getitem. rewrite Hg. cbn. by rewrite Hd. Qed.

(** The siblings of an open group: each one is appended and dropped. *)
Lemma siblings_arrive g siblings : forall messages gd out,
  Forall (fun m => has_media_group m = Some g) siblings ->
  media_group_data gd !! g = Some messages ->
  fold_left step (map Arrives siblings) (gd, out) =
  (mkGathering (<[g := messages ++ siblings]> (media_group_data gd)) (conf_is_last gd),
   out ++ map Dropped siblings).
Proof.
  induction siblings as [|m siblings IH]; intros messages gd out Hall Hd.
  - cbn. rewrite !app_nil_r, insert_id by done. by destruct gd.
  - apply Forall_cons in Hall as [Hm Hall]. cbn [map fold_left].
    rewrite (step_arrives_next g m messages) by done.
    rewrite (IH (messages ++ [m])); [|done|by cbn; rewrite lookup_insert_eq].
    cbn. by rewrite insert_insert_eq, <- !app_assoc.
Qed.

(** One group: a single batch, with all its messages in the order of
    their arrival, handed over with the first message. *)
Lemma one_group g first siblings gd :
  has_media_group first = Some g ->
  Forall (fun m => has_media_group m = Some g) siblings ->
  media_group_data gd !! g = None ->
  run (map Arrives (first :: siblings) ++ [Wakes first]) gd =
  (mkGathering (<[g := first :: siblings]> (media_group_data gd))
               ({[message_id first]} ∪ conf_is_last gd),
   map Dropped siblings ++ [Handled first (Some (first :: siblings))]).
Proof.
  intros Hfirst Hall Hfresh. unfold run. rewrite fold_left_app. cbn [map fold_left].
  rewrite (step_arrives_first g) by done.
  rewrite (siblings_arrive g siblings [first]); [|done|by cbn; rewrite lookup_insert_eq].
  cbn [fold_left]. erewrite step_wakes; [|done|by cbn; rewrite lookup_insert_eq].
  cbn. by rewrite insert_insert_eq.
Qed.

Lemma opened_other g messages : forall d,
  Some g ∉ map has_media_group messages ->
  opened messages d !! g = d !! g.
Proof.
  induction messages as [|m messages IH]; intros d Hg; [done|].
  cbn in Hg. apply not_elem_of_cons in Hg as [Hm Hg].
  cbn. rewrite IH by done. destruct (has_media_group m) as [g'|]; [|done].
  rewrite lookup_insert_ne; [done|congruence].
Qed.

Lemma opened_lookup g m messages : forall d,
  NoDup (map has_media_group messages) ->
  m ∈ messages ->
  has_media_group m = Some g ->
  opened messages d !! g = Some [m].
Proof.
  induction messages as [|m' messages IH]; intros d Hnd Hin Hg.
  - by apply elem_of_nil in Hin.
  - cbn in Hnd. apply NoDup_cons in Hnd as [Hfresh Hnd].
    apply elem_of_cons in Hin as [->|Hin].
    + cbn. rewrite Hg in *. rewrite opened_other by done. apply lookup_insert_eq.
    + cbn. by apply IH.
Qed.

Lemma firsts_arrive messages : forall gd out,
  Forall (fun m => is_Some (has_media_group m)) messages ->
  NoDup (map has_media_group messages) ->
  Forall (fun m => forall g, has_media_group m = Some g ->
                             media_group_data gd !! g = None) messages ->
  fold_left step (map Arrives messages) (gd, out) =
  (mkGathering (opened messages (media_group_data gd)) (conf_is_last gd), out).
Proof.
  induction messages as [|m messages IH]; intros gd out Hsome Hnd Hfresh.
  - by destruct gd.
  - apply Forall_cons in Hsome as [[g Hg] Hsome].
    apply Forall_cons in Hfresh as [Hm Hfresh].
    cbn in Hnd. apply NoDup_cons in Hnd as [Hnew Hnd].
    cbn [map fold_left]. rewrite (step_arrives_first g) by auto.
    rewrite IH; [by cbn; rewrite Hg|done|done|].
    apply Forall_forall. intros m' Hin g' Hg'. cbn.
    rewrite Forall_forall in Hfresh. rewrite lookup_insert_ne; [by eapply Hfresh|].
    intros ->. apply Hnew. rewrite Hg, <- Hg'. apply list_elem_of_fmap. eauto.
Qed.

Lemma sleepers_wake sleepers : forall gd out,
  Forall (fun m => exists g, has_media_group m = Some g
                             /\ media_group_data gd !! g = Some [m]) sleepers ->
  exists marked,
    fold_left step (map Wakes sleepers) (gd, out) =
    (mkGathering (media_group_data gd) marked,
     out ++ map (fun m => Handled m (Some [m])) sleepers).
Proof.
  induction sleepers as [|m sleepers IH]; intros gd out Hall.
  - exists (conf_is_last gd). cbn. rewrite app_nil_r. by destruct gd.
  - apply Forall_cons in Hall as [(g & Hg & Hd) Hall].
    cbn [map fold_left]. rewrite (step_wakes g m [m]) by done.
    destruct (IH (mkGathering (media_group_data gd) ({[message_id m]} ∪ conf_is_last gd))
                (out ++ [Handled m (Some [m])]) Hall) as [marked ->].
    exists marked. cbn. by rewrite <- app_assoc.
Qed.

(** As many groups as messages: every message is handed over with a
    batch of its own. *)
Lemma distinct_groups messages gd :
  Forall (fun m => is_Some (has_media_group m)) messages ->
  NoDup (map has_media_group messages) ->
  Forall (fun m => forall g, has_media_group m = Some g ->
                             media_group_data gd !! g = None) messages ->
  snd (run (map Arrives messages ++ map Wakes messages) gd) =
  map (fun m => Handled m (Some [m])) messages.
Proof.
  intros Hsome Hnd Hfresh. unfold run. rewrite fold_left_app.
  rewrite firsts_arrive by done.
  edestruct sleepers_wake as [marked ->]; [|done].
  apply Forall_forall. intros m Hin. rewrite Forall_forall in Hsome.
  destruct (Hsome m Hin) as [g Hg]. exists g. split; [done|].
  cbn. by apply opened_lookup.
Qed.

(** C3: when [N] messages of one media group arrive before the first of
    them wakes up, the handler runs once, for the first message, with
    the [N] messages in the order of arrival, and the other messages are
    dropped; when [N] messages of [N] distinct media groups arrive, the
    handler runs [N] times, each time with the one message of its
    group. *)
Theorem media_group_aggregation :
  (forall g first siblings gd,
     has_media_group first = Some g ->
     Forall (fun m => has_media_group m = Some g) siblings ->
     media_group_data gd !! g = None ->
     snd (run (map Arrives (first :: siblings) ++ [Wakes first]) gd) =
     map Dropped siblings ++ [Handled first (Some (first :: siblings))])
  /\ (forall messages gd,
     Forall (fun m => is_Some (has_media_group m)) messages ->
     NoDup (map has_media_group messages) ->
     Forall (fun m => forall g, has_media_group m = Some g ->
                                media_group_data gd !! g = None) messages ->
     snd (run (map Arrives messages ++ map Wakes messages) gd) =
     map (fun m => Handled m (Some [m])) messages).
Proof.
  split.
  - intros g first siblings gd Hfirst Hall Hfresh. by rewrite (one_group g).
  - apply distinct_groups.
Qed.

(** The batch of a group is released when its first message is done. *)
Lemma group_released g first siblings gd :
  has_media_group first = Some g ->
  Forall (fun m => has_media_group m = Some g) siblings ->
  media_group_data gd !! g = None ->
  media_group_data
    (fst (run (map Arrives (first :: siblings) ++ [Wakes first; Finishes first]) gd)) !! g
  = None.
Proof.
  intros Hfirst Hall Hfresh.
  replace (map Arrives (first :: siblings) ++ [Wakes first; Finishes first])
    with ((map Arrives (first :: siblings) ++ [Wakes first]) ++ [Finishes first])
    by (by rewrite <- app_assoc).
  unfold run. rewrite fold_left_app. fold (run (map Arrives (first :: siblings) ++ [Wakes first]) gd).
  rewrite (one_group g) by done. cbn [fold_left step].
  unfold on_post_process_message. rewrite Hfirst. cbn.
  rewrite decide_True by set_solver. rewrite lookup_insert_eq. cbn.
  apply lookup_delete_eq.
Qed.

End gathering_properties.

Section throttling_properties.
Import BotApp BotApp.throttling BotApp.middlewares.
Local Open Scope Z_scope.

Variable self : ThrottlingMiddleware.
Variable handler : option Handler.

Local Abbreviation key := (key_of self handler).
Local Abbreviation limit := (limit_of self handler).

Lemma begin_plain message now bucket :
  has_media_group message = None ->
  on_process_message_begin self handler message now bucket =
  throttle key limit now bucket.
Proof. intros Hp. unfold on_process_message_begin. by rewrite Hp. Qed.

(** A call that comes too early. *)
Lemma throttle_early now bucket record :
  bucket !! key = Some record ->
  LAST_CALL record < now < LAST_CALL record + limit ->
  throttle key limit now bucket =
  (Some (mkThrottled key now limit (S (EXCEEDED_COUNT record)) (now - LAST_CALL record)),
   <[key := mkBucket now limit (now - LAST_CALL record)
              (S (EXCEEDED_COUNT record)) false]> bucket).
Proof.
  intros Hr Ht. unfold throttle. rewrite Hr.
  replace (limit <=? now - LAST_CALL record) with false by (symmetry; apply Z.leb_gt; lia).
  replace (now - LAST_CALL record <=? 0) with false by (symmetry; apply Z.leb_gt; lia).
  reflexivity.
Qed.

(** A call that is let through leaves a count of 1. *)
Lemma throttle_passed now bucket bucket' :
  throttle key limit now bucket = (None, bucket') ->
  exists record,
    bucket' !! key = Some record
    /\ LAST_CALL record = now /\ EXCEEDED_COUNT record = 1%nat.
Proof.
  unfold throttle. destruct (_ || _); [|done]. intros [= <-].
  eexists. rewrite lookup_insert_eq. done.
Qed.

Lemma bucket_after_app us vs bucket :
  bucket_after self handler (us ++ vs) bucket =
  bucket_after self handler vs (bucket_after self handler us bucket).
Proof. unfold bucket_after. apply fold_left_app. Qed.

Lemma bucket_after_cons t m us bucket :
  bucket_after self handler ((t, m) :: us) bucket =
  bucket_after self handler us
    (snd (on_process_message_begin self handler m t bucket)).
Proof. reflexivity. Qed.

(** A chain of early calls: every one adds one to the count. *)
Lemma chain_counts updates : forall bucket record,
  bucket !! key = Some record ->
  Forall plain updates ->
  chain limit (LAST_CALL record) updates ->
  exists record',
    bucket_after self handler updates bucket !! key = Some record'
    /\ LAST_CALL record' = last_time (LAST_CALL record) updates
    /\ EXCEEDED_COUNT record' = (EXCEEDED_COUNT record + length updates)%nat.
Proof.
  induction updates as [|[t m] updates IH]; intros bucket record Hr Hp Hc.
  - exists record. cbn. by rewrite Nat.add_0_r.
  - apply Forall_cons in Hp as [Hm Hp]. destruct Hc as [Ht Hc].
    rewrite bucket_after_cons, begin_plain by done.
    rewrite (throttle_early t bucket record) by done. cbn [snd].
    set (r := mkBucket t limit (t - LAST_CALL record) (S (EXCEEDED_COUNT record)) false).
    destruct (IH (<[key := r]> bucket) r) as (record' & Hr' & Hl & Hn);
      [apply lookup_insert_eq|done|exact Hc|].
    exists record'. split; [exact Hr'|]. cbn in *. split; [done|lia].
Qed.

Lemma chain_app prev us vs :
  chain limit prev (us ++ vs) <-> chain limit prev us /\ chain limit (last_time prev us) vs.
Proof.
  revert prev. induction us as [|[t m] us IH]; intros prev; cbn; [tauto|].
  rewrite IH. tauto.
Qed.

Lemma plain_filter updates (f : Z * Message -> bool) :
  Forall plain updates -> Forall plain (List.filter f updates).
Proof.
  intros Hp. apply Forall_forall. intros u Hu. rewrite Forall_forall in Hp.
  apply Hp. apply list_elem_of_In, filter_In in Hu as [Hu _]. by apply list_elem_of_In.
Qed.

(** C6 (amended): after an accepted update at [t0], a run of updates that
    each come less than [limit] after the one before is throttled: every
    one of them is deleted and cancelled before the handler, and the
    banned notice is sent for the first of them only.  The sleep of
    [message_throttled] ends [limit] after the update before the
    violation, plus the time [latency] that the deletion and the banned
    notice take.
    The unbanned notice is sent when no update arrives before the
    sleep ends, and it is not sent when the updates that arrive
    before it ends are violations themselves. *)
Theorem throttled_burst latency earlier t0 m0 before t m after :
  0 <= latency ->
  has_media_group m0 = None ->
  fst (on_process_message_begin self handler m0 t0
         (bucket_after self handler earlier ∅)) = None ->
  Forall plain (before ++ (t, m) :: after) ->
  chain limit t0 (before ++ [(t, m)]) ->
  let wake := last_time t0 before + limit + latency in
  let meanwhile := List.filter (fun u => fst u <? wake) after in
  exists unbanned,
    on_process_message self handler latency (earlier ++ (t0, m0) :: before) t m after =
    (Delete m
       :: match before with [] => [Answer BANNED] | _ => [] end
       ++ unbanned,
     Cancelled)
    /\ (unbanned = [] \/ unbanned = [Answer UNBANNED])
    /\ (meanwhile = [] -> unbanned = [Answer UNBANNED])
    /\ (meanwhile <> [] -> chain limit t meanwhile -> unbanned = []).
Proof.
  intros _ Hm0 Hpass Hplain Hchain wake meanwhile.
  apply Forall_app in Hplain as [Hpb Hplain]. apply Forall_cons in Hplain as [Hm Hpa].
  apply chain_app in Hchain as [Hcb [Ht _]]. cbn [fst snd] in *.
  set (prev := last_time t0 before) in *.
  unfold on_process_message.
  rewrite bucket_after_app, bucket_after_cons.
  rewrite (begin_plain m0) in Hpass |- * by done.
  destruct (throttle key limit t0 (bucket_after self handler earlier ∅))
    as [thr0 b1] eqn:Hb1.
  cbn in Hpass. subst thr0.
  destruct (throttle_passed _ _ _ Hb1) as (r1 & Hr1 & Hl1 & Hn1). cbn [snd].
  destruct (chain_counts before b1 r1 Hr1 Hpb) as (r2 & Hr2 & Hl2 & Hn2);
    [by rewrite Hl1|]. rewrite Hl1 in Hl2. fold prev in Hl2.
  rewrite (begin_plain m) by done.
  rewrite (throttle_early t _ r2 Hr2) by (rewrite Hl2; lia).
  unfold message_throttled_begin. cbn [rate delta exceeded_count].
  rewrite Hl2. replace (t + latency + (limit - (t - prev))) with wake by (subst wake; lia).
  fold meanwhile.
  match goal with |- context [message_throttled_end ?a ?b ?c ?d ?e] =>
    exists (message_throttled_end a b c d e) end.
  split; [|split; [|split]].
  - f_equal. f_equal. f_equal.
    rewrite Hn2, Hn1. destruct before; [done|]. cbn [length].
    replace (_ <=? 2)%nat with false; [done|]. symmetry. apply Nat.leb_gt. lia.
  - unfold message_throttled_end. destruct (_ =? _)%nat; [by right|by left].
  - intros ->. unfold message_throttled_end, check_key. cbn [bucket_after fold_left].
    rewrite lookup_insert_eq. cbn [exceeded_count]. by rewrite Nat.eqb_refl.
  - intros Hne Hcm.
    match goal with |- context [<[key := ?r]> ?b] =>
      destruct (chain_counts meanwhile (<[key := r]> b) r) as (r3 & Hr3 & _ & Hn3);
        [apply lookup_insert_eq|by apply plain_filter|exact Hcm|]
    end.
    cbn [EXCEEDED_COUNT] in Hn3.
    unfold message_throttled_end, check_key. rewrite Hr3.
    cbn [exceeded_count]. rewrite Hn3.
    destruct meanwhile; [done|]. cbn [length].
    replace (_ =? _)%nat with false; [done|]. symmetry. apply Nat.eqb_neq. lia.
Qed.

End throttling_properties.

Section model_examples.
Import ModelApp ModelApp.views.
#[local] Existing Instance toy_torch.

(** C1, the statement as written fails: a request with a style that is
    not registered and with no content image is answered with an empty
    list of images, not with an error. *)
Lemma unknown_style_without_images :
  gan_models !! "style_picasso" = None
  /\ transfer toy_users (Some unknown_style_request)
     = ([], Ok (Body {[ "fitted_images" := JList [] ]})).
Proof. split; vm_compute; reflexivity. Qed.

(** [transfer_routing] on a custom, a registered and an unregistered
    style. *)
Lemma transfer_routing_witness :
  (post (Some custom_request) = use_neural_algorithm custom_request
   /\ Forall is_fitting (fst (post (Some custom_request))))
  /\ (post (Some monet_request) = use_gan_model monet_request
      /\ Forall (is_test_of "style_monet_pretrained") (fst (post (Some monet_request))))
  /\ (exists e, post (Some unknown_request) = ([], Raise e)
      /\ (forall o cs, requests.extract_original_images unknown_request false = Ok (o, cs) ->
          e = KeyError (JStr "style_picasso"))).
Proof.
  split; [|split].
  - apply (transfer_routing custom_request "style_custom"); reflexivity.
  - apply (transfer_routing monet_request "style_monet"); [reflexivity|discriminate|reflexivity].
  - apply (proj2 (proj2 (transfer_routing unknown_request "style_picasso" eq_refl))
             (JList [JStr (b64 "abc")]) (JStr (b64 "abc")) []);
      [discriminate|reflexivity|reflexivity|reflexivity].
Defined.

(** [use_neural_algorithm_dispatch] on two content images. *)
Lemma use_neural_algorithm_dispatch_witness :
  @use_neural_algorithm toy_torch custom_request =
  ([@PoolCreated toy_torch 2;
    @TrainerBuilt toy_torch (list_byte_of_string "S") (list_byte_of_string "abc");
    @TrainerBuilt toy_torch (list_byte_of_string "S") (list_byte_of_string "xyz")],
   @packed toy_torch [list_byte_of_string "Sabc"; list_byte_of_string "Sxyz"]).
Proof.
  apply (@use_neural_algorithm_dispatch toy_torch custom_request (list_byte_of_string "S")
           [list_byte_of_string "abc"; list_byte_of_string "xyz"]).
  - vm_compute. reflexivity.
  - cbn. lia.
Defined.

(** [style_image_noninterference] on two requests for [style_monet]. *)
Lemma style_image_noninterference_witness :
  transfer toy_users (Some (<["style_image" := JStr "one"]> monet_request))
  = transfer toy_users (Some (<["style_image" := JNull]> monet_request)).
Proof.
  apply style_image_noninterference.
  - intros key Hkey. by rewrite !lookup_insert_ne.
  - intros style. rewrite lookup_insert_ne by done. vm_compute. by intros [= <-].
Defined.

End model_examples.

Section bot_examples.
Import BotApp BotApp.messages BotApp.middlewares BotApp.throttling.
#[local] Existing Instance toy_torch.
#[local] Existing Instance toy_env.

(** [content_images_collected] on a media group of four photos: three
    are stored and posted. *)
Lemma content_images_collected_witness :
  exists encoded body rest,
    calls_of w0 (receive_content_images_handler (photo_msg 1 (Some "g") "abc") gallery w0) =
      [ SetData (<["content_images" := VBuffers gallery_images]> (data (session w0)));
        SetState (Some await_model_response);
        Answer MAGIC_BEGUN;
        Post (requests.get_api_url (model_url config) "transfer") body
          (600 * length gallery_images) ] ++ rest
    /\ length gallery_images = Nat.min max_images (length gallery)
    /\ Forall2 (fun b e => fst (images.image_to_base64 b) = Some e) gallery_images encoded
    /\ body !! "content_images" = Some (JList (map JStr encoded)).
Proof.
  apply (content_images_collected (photo_msg 1 (Some "g") "abc") gallery gallery_images
           "style_monet" VNone w0).
  - reflexivity.
  - reflexivity.
  - reflexivity.
  - by left.
  - repeat constructor; discriminate.
  - repeat constructor.
  - reflexivity.
Defined.

(** [session_teardown] on a photo and on a media group. *)
Lemma session_teardown_witness :
  In (Answer MAGIC_BEGUN)
     (calls_of w0 (receive_content_image_handler (photo_msg 1 None "abc") w0))
  /\ session (snd (receive_content_image_handler (photo_msg 1 None "abc") w0))
     = mkSession None ∅
  /\ In (Answer MAGIC_BEGUN)
        (calls_of w0 (receive_content_images_handler (photo_msg 1 (Some "g") "abc") gallery w0))
  /\ session (snd (receive_content_images_handler (photo_msg 1 (Some "g") "abc") gallery w0))
     = mkSession None ∅.
Proof.
  assert (H1 : In (Answer MAGIC_BEGUN)
     (calls_of w0 (receive_content_image_handler (photo_msg 1 None "abc") w0))).
  { vm_compute. do 2 right. left. reflexivity. }
  assert (H2 : In (Answer MAGIC_BEGUN)
        (calls_of w0 (receive_content_images_handler (photo_msg 1 (Some "g") "abc") gallery w0))).
  { vm_compute. do 2 right. left. reflexivity. }
  split; [exact H1|]. split.
  - exact (proj1 (session_teardown (photo_msg 1 None "abc") gallery w0) H1).
  - split; [exact H2|].
    exact (proj2 (session_teardown (photo_msg 1 (Some "g") "abc") gallery w0) H2).
Defined.

(** C7, the statement as written fails: when the acknowledgement cannot
    be sent, each of the two handlers ends with its exception while the
    session is in [await_model_response] with the content images
    stored; under the error handlers the user gets the apology and the
    session stays as it is. *)
Lemma unsent_acknowledgement_keeps_session :
  let single := @receive_content_image_handler muted_env (photo_msg 1 None "abc") w0 in
  let multi :=
    @receive_content_images_handler muted_env (photo_msg 1 (Some "g") "abc") gallery w0 in
  let guarded :=
    @errors.guarded muted_env
      (@receive_content_image_handler muted_env (photo_msg 1 None "abc")) w0 in
  fst single = Raise TelegramAPIError
  /\ session (snd single)
     = mkSession (Some await_model_response)
         (<["content_images" := VBuffers [BytesIO_new (list_byte_of_string "abc")]]>
            (data (session w0)))
  /\ fst multi = Raise TelegramAPIError
  /\ session (snd multi)
     = mkSession (Some await_model_response)
         (<["content_images" := VBuffers gallery_images]> (data (session w0)))
  /\ fst guarded = Ok tt
  /\ session (snd guarded) = session (snd single)
  /\ last (trace (snd guarded)) = Some (Answer errors.WENT_WRONG).
Proof. repeat split; vm_compute; reflexivity. Qed.

(** The request times out: the exception goes on to the error handler,
    and the session is finished. *)
Example teardown_after_timeout :
  fst (@receive_content_image_handler busy_env (photo_msg 1 None "abc") w0)
  = Raise TimeoutError
  /\ session (snd (@receive_content_image_handler busy_env (photo_msg 1 None "abc") w0))
     = mkSession None ∅.
Proof. split; vm_compute; reflexivity. Qed.


(** The same request without the cancellation is delivered; the data
    stored after the request hold the photo read to its end. *)
Example delivered_without_cancellation :
  calls_of w0 (@receive_content_image_handler toy_env (photo_msg 1 None "abc") w0)
  = [ SetData (<["content_images" := VBuffers [BytesIO_new (list_byte_of_string "abc")]]>
                 (data (session w0)));
      SetState (Some await_model_response);
      Answer MAGIC_BEGUN;
      Post "https://model/transfer"
        {[ "style" := JStr "style_monet"; "style_image" := JStr EmptyString;
           "content_images" := JList [JStr (b64 "abc")];
           "username" := JStr "bot"; "password" := JStr "secret" ]} 600;
      SetData (<["content_images" := VBuffers [mkBytesIO (list_byte_of_string "abc") 3]]>
                 (data (session w0)));
      Answer HERE_YOU_ARE;
      AnswerPhoto (BytesIO_new (list_byte_of_string "cba"));
      SetState None; SetData ∅ ].
Proof. vm_compute. reflexivity. Qed.

(** [media_group_aggregation] on a group of four messages and on two
    messages of two groups. *)
Lemma media_group_aggregation_witness :
  snd (run (map Arrives gallery ++ [Wakes (photo_msg 1 (Some "g") "abc")]) empty_gathering)
  = [ Dropped (photo_msg 2 (Some "g") "defg"); Dropped (photo_msg 3 (Some "g") "hi");
      Dropped (photo_msg 4 (Some "g") "jkl");
      Handled (photo_msg 1 (Some "g") "abc") (Some gallery) ]
  /\ snd (run (map Arrives [photo_msg 1 (Some "a") "x"; photo_msg 2 (Some "b") "y"]
               ++ map Wakes [photo_msg 1 (Some "a") "x"; photo_msg 2 (Some "b") "y"])
            empty_gathering)
     = [ Handled (photo_msg 1 (Some "a") "x") (Some [photo_msg 1 (Some "a") "x"]);
         Handled (photo_msg 2 (Some "b") "y") (Some [photo_msg 2 (Some "b") "y"]) ].
Proof.
  split.
  - apply (proj1 media_group_aggregation "g" (photo_msg 1 (Some "g") "abc")
             [photo_msg 2 (Some "g") "defg"; photo_msg 3 (Some "g") "hi";
              photo_msg 4 (Some "g") "jkl"] empty_gathering).
    + reflexivity.
    + repeat constructor.
    + reflexivity.
  - apply (proj2 media_group_aggregation
             [photo_msg 1 (Some "a") "x"; photo_msg 2 (Some "b") "y"] empty_gathering).
    + repeat constructor; by eexists.
    + cbn. apply NoDup_cons. split; [by intros [=]%list_elem_of_singleton|apply NoDup_singleton].
    + repeat constructor.
Defined.

(** C6, the statement as written fails: with the registered middleware
    (half a second between messages) and messages at 0, 100 and 200 ms,
    the first is handled, the second is the first violation and gets
    the banned notice, the third is the second violation and gets no
    banned notice. *)
Lemma second_violation_without_notice :
  on_process_message registered_throttling other_handler 20 [] 0 (text_msg 0)
    [(100, text_msg 1); (200, text_msg 2)]%Z
  = ([], ToHandler)
  /\ on_process_message registered_throttling other_handler 20
       [(0, text_msg 0)]%Z 100 (text_msg 1) [(200, text_msg 2)]%Z
     = ([Delete (text_msg 1); Answer BANNED], Cancelled)
  /\ on_process_message registered_throttling other_handler 20
       [(0, text_msg 0); (100, text_msg 1)]%Z 200 (text_msg 2) []
     = ([Delete (text_msg 2); Answer UNBANNED], Cancelled).
Proof. repeat split; vm_compute; reflexivity. Qed.

(** [throttled_burst] on the second violation of that run, followed by a
    message after the delay. *)
Lemma throttled_burst_witness :
  on_process_message registered_throttling other_handler 20
    ([] ++ (0, text_msg 0) :: [(100, text_msg 1)])%Z 200 (text_msg 2) [(900, text_msg 3)]%Z
  = ([Delete (text_msg 2); Answer UNBANNED], Cancelled).
Proof.
  destruct (throttled_burst registered_throttling other_handler 20 [] 0 (text_msg 0)
              [(100, text_msg 1)]%Z 200 (text_msg 2) [(900, text_msg 3)]%Z)
    as (unbanned & Hrun & _ & Hsent & _).
  - lia.
  - reflexivity.
  - vm_compute. reflexivity.
  - repeat constructor.
  - vm_compute. repeat split.
  - rewrite Hrun, (Hsent eq_refl). reflexivity.
Defined.

(** The time the deletion and the banned notice take counts: with
    messages at 0, 100 and 520 ms, the sleep of the first violation
    would end at 500 ms if they took no time, before the third message,
    and the unbanned notice would be sent; when they take 50 ms the
    third message, a violation, comes before the sleep ends, and the
    notice is not sent. *)
Example violation_during_latency :
  on_process_message registered_throttling other_handler 0
    [(0, text_msg 0)]%Z 100 (text_msg 1) [(520, text_msg 2)]%Z
  = ([Delete (text_msg 1); Answer BANNED; Answer UNBANNED], Cancelled)
  /\ on_process_message registered_throttling other_handler 50
       [(0, text_msg 0)]%Z 100 (text_msg 1) [(520, text_msg 2)]%Z
     = ([Delete (text_msg 1); Answer BANNED], Cancelled).
Proof. split; vm_compute; reflexivity. Qed.

End bot_examples.

Section loss_examples.
Import SpecFloat ModelApp.losses.
#[local] Existing Instance binary32.

Lemma activation_valid : @valid binary32 activation.
Proof.
  split; [cbn; lia|].
  intros i j Hi Hj. cbn in Hi, Hj.
  destruct i as [|[|i]]; [| |lia]; (destruct j as [|[|j]]; [| |lia]); by vm_compute.
Qed.


(** Its Gram matrix. *)
Example activation_gram :
  map (fun ij => entry (_to_gram_matrix activation) (fst ij) (snd ij))
      [(0, 0); (0, 1); (1, 0); (1, 1)]%nat
  = [ S754_finite false 10485760 (-23);   (* 5/4 *)
      S754_finite false 10485760 (-23);
      S754_finite false 10485760 (-23);
      S754_finite false 10485760 (-22) ]. (* 10/4 *)
Proof. vm_compute. reflexivity. Qed.


End loss_examples.

(* ------------------------------------------------------------------ *)
(** ** Further properties of the two applications                       *)
(* ------------------------------------------------------------------ *)

Section api_url_properties.
Import BotApp BotApp.requests.

Lemma rstrip_slash_slashes n : rstrip_slash (slashes n) = EmptyString.
Proof. induction n as [|n IH]; [done|]. cbn. by rewrite IH. Qed.

Lemma rstrip_slash_clean base :
  ends_with_slash base = false -> rstrip_slash base = base.
Proof.
  induction base as [|c s IH]; [done|]. intros H. cbn in *.
  destruct s as [|c' s'].
  - cbn. by rewrite H.
  - rewrite IH by done. done.
Qed.

Lemma rstrip_slash_app base n :
  ends_with_slash base = false -> rstrip_slash (base +:+ slashes n) = base.
Proof.
  induction base as [|c s IH]; intros H.
  - apply rstrip_slash_slashes.
  - cbn in H. destruct s as [|c' s'].
    + change (String c EmptyString +:+ slashes n) with (String c (slashes n)).
      cbn [rstrip_slash]. rewrite rstrip_slash_slashes. by rewrite H.
    + change (String c (String c' s') +:+ slashes n)
        with (String c (String c' s' +:+ slashes n)).
      cbn [rstrip_slash]. rewrite IH by done. done.
Qed.

Lemma rstrip_slash_split s :
  exists n, s = rstrip_slash s +:+ slashes n /\ ends_with_slash (rstrip_slash s) = false.
Proof.
  induction s as [|c s (n & Hs & He)].
  - by exists O.
  - cbn [rstrip_slash]. destruct (rstrip_slash s) as [|c' r] eqn:Hr.
    + destruct (Ascii.eqb c "/") eqn:Hc.
      * apply Ascii.eqb_eq in Hc as ->. exists (S n). split; [|done].
        cbn. by rewrite Hs at 1.
      * exists n. split; [|by cbn; rewrite Hc]. cbn. by rewrite Hs at 1.
    + exists n. split; [|done]. cbn. by rewrite Hs at 1.
Qed.

(** X1: [get_api_url(model_url, action)] is the model URL without the
    slashes it ends with, one slash, and the action.  So the URL of an
    action does not depend on how many slashes the configured URL ends
    with, and the base never ends with a slash: exactly one slash is
    put before the action. *)
Theorem get_api_url_slashes model_url action :
  exists base n,
    model_url = base +:+ slashes n
    /\ ends_with_slash base = false
    /\ get_api_url model_url action = base +:+ "/" +:+ action
    /\ forall k, get_api_url (base +:+ slashes k) action = get_api_url model_url action.
Proof.
  destruct (rstrip_slash_split model_url) as (n & Hs & He).
  exists (rstrip_slash model_url), n. split; [done|]. split; [done|]. split; [done|].
  intros k. unfold get_api_url. by rewrite rstrip_slash_app.
Qed.

End api_url_properties.

Section login_properties.
Import ModelApp ModelApp.views ModelApp.requests ModelApp.training.
Context `{Torch}.

Lemma eqb_empty_false s : s <> EmptyString -> String.eqb s EmptyString = false.
Proof. intros Hs. by apply String.eqb_neq. Qed.

Lemma login_authenticated users func json :
  authenticated users json -> login users func (Some json) = func (Some json).
Proof.
  intros (name & pwhash & password & Hu & Hn & Hp & Hq & Ht & Hc).
  unfold login. rewrite Hu, Hp. cbn.
  rewrite !eqb_empty_false by done. cbn. by rewrite Ht, Hc.
Qed.

Lemma login_rejected users json :
  ~ authenticated users json ->
  exists r,
    (forall view, login users view (Some json) = ([], r))
    /\ (forall d, r <> Ok (Body d)).
Proof.
  intros Hno. unfold login.
  destruct (json !! "username") as [user|] eqn:Hu; cbn;
    [|by eexists; split; [intros; reflexivity|]].
  destruct (json !! "password") as [pwd|] eqn:Hp; cbn;
    [|rewrite andb_false_r; by eexists; split; [intros; reflexivity|]].
  destruct (truthy user && truthy pwd) eqn:Htr;
    [|by eexists; split; [intros; reflexivity|]].
  apply andb_true_iff in Htr as [Htu Htp].
  destruct user as [| | |name| |]; try (by eexists; split; [intros; reflexivity|]).
  destruct (users !! name) as [pwhash|] eqn:Ht;
    [|by eexists; split; [intros; reflexivity|]].
  destruct pwd as [| | |password| |]; try (by eexists; split; [intros; reflexivity|]).
  destruct (check_password_hash pwhash password) eqn:Hc;
    [|by eexists; split; [intros; reflexivity|]].
  exfalso. apply Hno. exists name, pwhash, password.
  cbn in Htu, Htp. apply negb_true_iff in Htu, Htp.
  apply String.eqb_neq in Htu, Htp. done.
Qed.

(** X2: behind [login(users)] a view runs only for a request whose body
    holds a non-empty name of the table of users and a non-empty
    password that matches the hash of that user; the answer is then the
    answer of the view.  For every other JSON body the view is not
    called: the outcome is the same whatever the view, nothing is
    computed, and the outcome is never a JSON dict (it is a text or an
    exception). *)
Theorem login_gate users func json :
  (authenticated users json -> login users func (Some json) = func (Some json))
  /\ (~ authenticated users json ->
      exists r,
        (forall view, login users view (Some json) = ([], r))
        /\ (forall d, r <> Ok (Body d))).
Proof. split; [apply login_authenticated|apply login_rejected]. Qed.

End login_properties.

Section views_properties.
Import ModelApp ModelApp.views ModelApp.requests ModelApp.training.
Context `{Torch}.

Lemma json_eq_str_true style text : json_eq_str style text = true -> style = JStr text.
Proof.
  destruct style; try done. cbn. by intros ->%String.eqb_eq.
Qed.

(** X3: a [/transfer] body with an empty list of content images.  With
    any style but [style_custom], registered or not, the view answers
    [{"fitted_images": []}]: the model of the style is only looked up
    for an image.  With [style_custom] and a style image that loads,
    the view raises [ValueError]: the pool would have [min(0, 3)]
    processes. *)
Theorem empty_content_images json style :
  json !! "style" = Some style ->
  json !! "content_images" = Some (JList []) ->
  (json_eq_str style "style_custom" = false ->
     post (Some json) = ([], Ok (Body {[ "fitted_images" := JList [] ]})))
  /\ (forall encoded style_img,
     json_eq_str style "style_custom" = true ->
     json !! "style_image" = Some encoded ->
     load_encoded (Some (if cuda_is_available then [512; 512] else [256; 256])%nat) encoded
       = Ok style_img ->
     post (Some json) = ([], Raise ValueError)).
Proof.
  intros Hs Hc. split.
  - intros Hn. rewrite (post_dispatch json style Hs), Hn.
    unfold use_gan_model. rewrite extract_without_style.
    unfold getitem. rewrite Hc. reflexivity.
  - intros encoded style_img Hy Hi Hl. rewrite (post_dispatch json style Hs), Hy.
    unfold use_neural_algorithm, extract_original_images, getitem.
    rewrite Hi, Hc. cbn [result_bind]. rewrite Hl. reflexivity.
Qed.

Lemma result_map_length {A B} (f : A -> result B) xs ys :
  result_map f xs = Ok ys -> length ys = length xs.
Proof.
  revert ys. induction xs as [|x xs IH]; intros ys; cbn.
  - by intros [= <-].
  - destruct (f x); [|done]. destruct (result_map f xs) as [zs|]; [|done].
    intros [= <-]. cbn. by rewrite (IH zs).
Qed.

Lemma map_W_length {A B} (g : A -> W B) xs evs ys :
  map_W g xs = (evs, Ok ys) -> length ys = length xs.
Proof.
  revert evs ys. induction xs as [|x xs IH]; intros evs ys; cbn.
  - by intros [= _ <-].
  - unfold bind at 1. destruct (g x) as [t [y|e]]; [|done].
    unfold bind at 1. destruct (map_W g xs) as [t' [zs|e]]; cbn; [|done].
    intros [= _ <-]. cbn. by rewrite (IH t' zs).
Qed.

Lemma pack_shape images d :
  pack_processed_images images = Ok d ->
  exists encoded, d = {[ "fitted_images" := JList (map JStr encoded) ]}
                  /\ length encoded = length images.
Proof.
  unfold pack_processed_images.
  destruct (result_map _ images) as [encoded|] eqn:He; [|done].
  cbn. intros [= <-]. exists encoded. split; [done|]. by eapply result_map_length.
Qed.

Lemma extract_length json with_style o cs ci items :
  extract_original_images json with_style = Ok (o, cs) ->
  json !! "content_images" = Some ci -> iterate ci = Ok items ->
  length cs = length items.
Proof.
  unfold extract_original_images. intros He Hc Hi.
  destruct (if with_style then _ else _) as [[size st]|]; [|done].
  cbn in He. unfold getitem in He. rewrite Hc in He. cbn in He. rewrite Hi in He.
  cbn in He. destruct (result_map _ items) as [xs|] eqn:Hr; [|done].
  cbn in He. injection He as _ <-. by eapply result_map_length.
Qed.

Lemma bind_ok_inv {A B} (m : W A) (k : A -> W B) b :
  snd (bind m k) = Ok b -> exists a, snd m = Ok a /\ snd (k a) = Ok b.
Proof.
  destruct m as [t [a|e]]; cbn; [|done]. destruct (k a) as [t' r] eqn:Hk.
  cbn. intros ->. exists a. by rewrite Hk.
Qed.

Lemma map_W_snd_length {A B} (g : A -> W B) xs ys :
  snd (map_W g xs) = Ok ys -> length ys = length xs.
Proof.
  destruct (map_W g xs) as [evs r] eqn:Hm. cbn. intros ->. by eapply map_W_length.
Qed.

(** X4: whenever [StyleTransferAPI.post] answers with a JSON dict, the
    dict is [{"fitted_images": [...]}] with as many encoded images as
    the request has content images, for both engines. *)
Theorem one_output_per_input json evs d ci items :
  post (Some json) = (evs, Ok (Body d)) ->
  json !! "content_images" = Some ci ->
  iterate ci = Ok items ->
  exists encoded,
    d = {[ "fitted_images" := JList (map JStr encoded) ]}
    /\ length encoded = length items.
Proof.
  intros Hp Hc Hi. apply (f_equal snd) in Hp. cbn [snd] in Hp.
  destruct (json !! "style") as [style|] eqn:Hs.
  2:{ unfold post in Hp. destruct (decide (json = ∅)); [done|].
      unfold getitem in Hp. by rewrite Hs in Hp. }
  rewrite (post_dispatch json style Hs) in Hp.
  assert (Hpack : forall fs cs o with_style,
    extract_original_images json with_style = Ok (o, cs) ->
    length fs = length cs ->
    snd (let! packed := lift (pack_processed_images fs) in ret (Body packed))%W
      = Ok (Body d) ->
    exists encoded, d = {[ "fitted_images" := JList (map JStr encoded) ]}
                    /\ length encoded = length items).
  { intros fs cs o ws He Hl Hk. rewrite bind_pack in Hk. cbn in Hk. unfold packed in Hk.
    destruct (pack_processed_images fs) as [p|] eqn:Hq; [|done].
    cbn in Hk. injection Hk as <-.
    apply pack_shape in Hq as (encoded & -> & Hq). exists encoded. split; [done|].
    rewrite Hq, Hl. by eapply extract_length. }
  destruct (json_eq_str style "style_custom").
  - unfold use_neural_algorithm in Hp.
    apply bind_ok_inv in Hp as ([o cs] & He & Hp). cbn [snd lift] in He.
    apply bind_ok_inv in Hp as (fs & Hf & Hp).
    eapply Hpack; [exact He| |exact Hp].
    destruct (length cs =? 1)%nat eqn:H1.
    + apply Nat.eqb_eq in H1.
      apply bind_ok_inv in Hf as (c & _ & Hf).
      apply bind_ok_inv in Hf as (f & _ & Hf). cbn in Hf. injection Hf as <-.
      by rewrite H1.
    + apply bind_ok_inv in Hf as (u & _ & Hf). by eapply map_W_snd_length.
  - unfold use_gan_model in Hp.
    apply bind_ok_inv in Hp as ([o cs] & He & Hp). cbn [snd lift] in He.
    apply bind_ok_inv in Hp as (fs & Hf & Hp).
    eapply Hpack; [exact He| |exact Hp]. by eapply map_W_snd_length.
Qed.

End views_properties.

Section pipeline_properties.
Import BotApp.
Context `{ModelApp.Torch} `{Env}.

Lemma base64_text_encode data :
  bytes_decode (Base64.encodebytes data) = Some (base64_text data).
Proof.
  unfold base64_text. destruct (encode_then_decode data) as (s & -> & _). done.
Qed.

Lemma base64_text_decode data :
  Base64.decodebytes (str_encode (base64_text data)) = Some data.
Proof.
  unfold base64_text. destruct (encode_then_decode data) as (s & -> & Hd). done.
Qed.

Lemma bot_image_to_base64 b :
  fst (images.image_to_base64 b) = Some (base64_text (getvalue b)).
Proof.
  unfold images.image_to_base64.
  cbn -[bytes_decode Base64.encodebytes]. by rewrite drop_0, base64_text_encode.
Qed.

Lemma result_map_ok {A B} (f : A -> result B) (g : A -> B) l :
  Forall (fun x => f x = Ok (g x)) l -> result_map f l = Ok (map g l).
Proof.
  induction 1 as [|x l Hx _ IH]; [done|]. cbn. by rewrite Hx, IH.
Qed.

Lemma encode_buffer_sent b :
  requests.encode_buffer b = Ok (base64_text (getvalue b), at_end b).
Proof.
  unfold requests.encode_buffer.
  pose proof (bot_image_to_base64 b) as Hf. pose proof (image_to_base64_at_end b) as Hs.
  destruct (images.image_to_base64 b) as [encoded b']. cbn in Hf, Hs. by subst.
Qed.

Lemma encode_buffers_sent buffers :
  result_map requests.encode_buffer buffers
  = Ok (map (fun b => (base64_text (getvalue b), at_end b)) buffers).
Proof.
  apply result_map_ok. apply Forall_forall. intros b _. apply encode_buffer_sent.
Qed.

Lemma model_image_to_base64 b :
  fst (ModelApp.images.image_to_base64 b) = Some (base64_text (getvalue b)).
Proof.
  unfold ModelApp.images.image_to_base64.
  cbn -[bytes_decode Base64.encodebytes]. by rewrite drop_0, base64_text_encode.
Qed.

Lemma result_map_Forall2 {A B} (f : A -> result B) l ys :
  Forall2 (fun x y => f x = Ok y) l ys -> result_map f l = Ok ys.
Proof.
  induction 1 as [|x y l ys Hx _ IH]; [done|]. cbn. by rewrite Hx, IH.
Qed.

Lemma result_map_map {A B C} (f : B -> result C) (g : A -> B) l :
  result_map f (map g l) = result_map (fun x => f (g x)) l.
Proof.
  induction l as [|x l IH]; [done|]. cbn. by rewrite IH.
Qed.

Lemma load_sent b t :
  ModelApp.image_open (getvalue b) = Ok t ->
  ModelApp.requests.load_encoded None (JStr (base64_text (getvalue b)))
  = Ok (ModelApp.unsqueeze t).
Proof.
  intros Ht. unfold ModelApp.requests.load_encoded. cbn [as_str result_bind].
  unfold ModelApp.images.base64_to_image. rewrite base64_text_decode.
  cbn [fmap option_fmap option_map or_raise result_bind].
  unfold ModelApp.images.load_image_from_buffer. cbn [seek0 getvalue BytesIO_new].
  by rewrite Ht.
Qed.

Lemma pack_sent images :
  ModelApp.requests.pack_processed_images images =
  Ok {[ "fitted_images" :=
          JList (map (fun i => JStr (base64_text (ModelApp.save_png i))) images) ]}.
Proof.
  unfold ModelApp.requests.pack_processed_images.
  rewrite (result_map_ok _ (fun i => base64_text (ModelApp.save_png i))).
  - cbn. by rewrite map_map.
  - apply Forall_forall. intros i _. by rewrite model_image_to_base64.
Qed.

Lemma served_pretrained users name model buffers tensors pwhash :
  users !! username config = Some pwhash ->
  ModelApp.check_password_hash pwhash (password config) = true ->
  username config <> EmptyString -> password config <> EmptyString ->
  name <> "style_custom" ->
  ModelApp.views.gan_models !! name = Some model ->
  Forall2 (fun b t => ModelApp.image_open (getvalue b) = Ok t) buffers tensors ->
  served users (pretrained_request name buffers) =
  Ok {[ "fitted_images" :=
          JList (map (fun t => JStr (base64_text (ModelApp.save_png
                        (ModelApp.model_test model (ModelApp.unsqueeze t))))) tensors) ]}.
Proof.
  intros Hu Hc Hn Hp Hname Hmodel Hload. unfold served, ModelApp.views.transfer.
  rewrite login_authenticated.
  2:{ exists (username config), pwhash, (password config). by repeat split. }
  assert (Hs : pretrained_request name buffers !! "style" = Some (JStr name)) by done.
  rewrite (post_dispatch _ _ Hs). cbn [json_eq_str].
  replace (String.eqb name "style_custom") with false
    by (symmetry; by apply String.eqb_neq).
  erewrite (use_gan_model_registered _ name model (map ModelApp.unsqueeze tensors) None);
    [|done|done|].
  - unfold packed. rewrite pack_sent. cbn. by rewrite !map_map.
  - rewrite extract_without_style. unfold getitem.
    replace (pretrained_request name buffers !! "content_images")
      with (Some (JList (map (fun b => JStr (base64_text (getvalue b))) buffers))) by done.
    cbn [result_bind iterate]. rewrite result_map_map.
    rewrite (result_map_Forall2 _ buffers (map ModelApp.unsqueeze tensors)); [done|].
    apply Forall2_fmap_r. eapply Forall2_impl; [exact Hload|].
    intros b t Ht. by apply load_sent.
Qed.

Lemma request_pretrained users name model buffers tensors pwhash url verify w :
  (forall url body timeout, http_post url body timeout = served users body) ->
  users !! username config = Some pwhash ->
  ModelApp.check_password_hash pwhash (password config) = true ->
  username config <> EmptyString -> password config <> EmptyString ->
  name <> "style_custom" ->
  ModelApp.views.gan_models !! name = Some model ->
  Forall2 (fun b t => ModelApp.image_open (getvalue b) = Ok t) buffers tensors ->
  requests.request_style_transfer url (VStr name) VNone (VBuffers buffers)
    (username config) (password config) verify w =
  (Ok (map (fun t => BytesIO_new (ModelApp.save_png
                       (ModelApp.model_test model (ModelApp.unsqueeze t)))) tensors,
       VNone, VBuffers (map at_end buffers)),
   mkWorld (meanwhile (session w))
     (trace w ++ [Post url (pretrained_request name buffers) (600 * length buffers)])).
Proof.
  intros Hpost Hu Hc Hn Hp Hname Hmodel Hload.
  unfold requests.request_style_transfer. cbn [requests.value_truthy].
  rewrite lift_run, lift_run, encode_buffers_sent, lift_run. cbn zeta.
  cbn [requests.style_to_json]. rewrite lift_run.
  rewrite !map_map. cbn [fst snd]. fold (pretrained_request name buffers).
  rewrite post_run. cbn zeta. rewrite Hpost.
  rewrite (served_pretrained users name model buffers tensors pwhash) by done.
  rewrite lift_run. unfold getitem. rewrite lookup_singleton_eq.
  rewrite lift_run. cbn [iterate].
  rewrite result_map_map.
  rewrite (result_map_ok _ (fun t => BytesIO_new (ModelApp.save_png
             (ModelApp.model_test model (ModelApp.unsqueeze t))))).
  2:{ apply Forall_forall. intros t _. cbn [as_str result_bind].
      unfold images.base64_to_image. by rewrite base64_text_decode. }
  rewrite lift_run. reflexivity.
Qed.

(** X5: [request_style_transfer] of the bot against the [/transfer] rule
    of the service.  For a registered pretrained style, the credentials
    of a user of the service and content buffers that hold images the
    service can open, the bot makes one POST, with the timeout
    [600 * len(content_images)], and gets back, in the order of the
    content images, one buffer per image with the PNG file of what the
    model of the style infers for that image; the content buffers are
    left at their end.  (The HTTP exchange is the
    hypothesis on [http_post]: the client gets the dict the view
    returns; a text answer or an exception of the view is no JSON.) *)
Theorem pretrained_round_trip users name model buffers tensors pwhash url verify w :
  (forall url body timeout, http_post url body timeout = served users body) ->
  users !! username config = Some pwhash ->
  ModelApp.check_password_hash pwhash (password config) = true ->
  username config <> EmptyString -> password config <> EmptyString ->
  name <> "style_custom" ->
  ModelApp.views.gan_models !! name = Some model ->
  Forall2 (fun b t => ModelApp.image_open (getvalue b) = Ok t) buffers tensors ->
  requests.request_style_transfer url (VStr name) VNone (VBuffers buffers)
    (username config) (password config) verify w =
  (Ok (map (fun t => BytesIO_new (ModelApp.save_png
                       (ModelApp.model_test model (ModelApp.unsqueeze t)))) tensors,
       VNone, VBuffers (map at_end buffers)),
   mkWorld (meanwhile (session w))
     (trace w ++ [Post url (pretrained_request name buffers) (600 * length buffers)])).
Proof. apply request_pretrained. Qed.

End pipeline_properties.

Section conversation_properties.
Import BotApp BotApp.messages BotApp.fsm BotApp.callbacks.
Context `{ModelApp.Torch} `{Env}.

Lemma set_state_run {B} s (k : unit -> M B) w :
  bind (set_state s) k w =
  k tt (mkWorld (mkSession s (data (session w))) (trace w ++ [SetState s])).
Proof. done. Qed.

Lemma api_ok_run {B} c (k : unit -> M B) w :
  api_error c = None ->
  bind (api c) k w = k tt (mkWorld (session w) (trace w ++ [c])).
Proof. intros Hc. unfold bind. by rewrite api_run, Hc. Qed.

Lemma callback_pretrained name w :
  name <> "style_custom" ->
  api_error (Answer SEND_CONTENT) = None ->
  receive_chosen_style_callback_handler name w =
  let d := <["style_image" := VNone]> (<["style" := VStr name]> (data (session w))) in
  (Ok tt,
   mkWorld (mkSession (Some send_content_images) d)
     (trace w ++ [SetState (Some send_content_images); SetData d; Answer SEND_CONTENT])).
Proof.
  intros Hn Ha. unfold receive_chosen_style_callback_handler.
  replace (String.eqb name "style_custom") with false
    by (symmetry; by apply String.eqb_neq).
  cbn [negb]. rewrite set_state_run.
  erewrite bind_run.
  2:{ apply proxy_ok. reflexivity. }
  cbn [session state data trace]. rewrite api_run, Ha.
  cbn [session state data trace]. by rewrite <- !app_assoc.
Qed.

(** The data the proxy stores after the request, when no style image
    was read: the content images are replaced by the buffers read. *)
Lemma data_after_request (d : gmap string value) si images images' :
  d !! "style_image" = Some si ->
  <["content_images" := images']>
    (<["style_image" := si]> (<["content_images" := images]> d))
  = <["content_images" := images']> d.
Proof.
  intros Hsi. rewrite (insert_id (<["content_images" := images]> d) "style_image" si).
  - apply insert_insert_eq.
  - by rewrite lookup_insert_ne.
Qed.

Lemma content_image_pretrained users name model pwhash message b t w :
  (forall url body timeout, http_post url body timeout = served users body) ->
  users !! username config = Some pwhash ->
  ModelApp.check_password_hash pwhash (password config) = true ->
  username config <> EmptyString -> password config <> EmptyString ->
  name <> "style_custom" ->
  ModelApp.views.gan_models !! name = Some model ->
  (forall c, api_error c = None) ->
  (forall s, meanwhile s = s) ->
  state (session w) = Some send_content_images ->
  data (session w) !! "style" = Some (VStr name) ->
  data (session w) !! "style_image" = Some VNone ->
  fetched message = Ok b ->
  ModelApp.image_open (getvalue b) = Ok t ->
  receive_content_image_handler message w =
  let d := <["content_images" := VBuffers [b]]> (data (session w)) in
  let read := <["content_images" := VBuffers [at_end b]]> (data (session w)) in
  (Ok tt,
   mkWorld (mkSession None ∅)
     (trace w ++
      [ SetData d; SetState (Some await_model_response); Answer MAGIC_BEGUN;
        Post (requests.get_api_url (model_url config) "transfer")
          (pretrained_request name [b]) 600;
        SetData read; Answer HERE_YOU_ARE;
        AnswerPhoto (BytesIO_new (ModelApp.save_png
                       (ModelApp.model_test model (ModelApp.unsqueeze t))));
        SetState None; SetData ∅ ])).
Proof.
  intros Hpost Hu Hc Hn Hp Hname Hmodel Hapi Hmean Hst Hstyle Hsi Hf Ht.
  rewrite receive_content_image_handler_run. unfold begun. rewrite Hf.
  cbn [result_bind]. rewrite Hapi. rewrite try_finally_finish.
  set (w3 := acknowledged (advanced (stored [b] w))).
  set (read := <["content_images" := VBuffers [at_end b]]> (data (session w))).
  assert (Hd3 : data (session w3) = <["content_images" := VBuffers [b]]> (data (session w)))
    by done.
  assert (Hs3 : state (session w3) = Some await_model_response).
  { subst w3. cbn. by rewrite Hst. }
  assert (Hreq : request_from_data w3 =
    (Ok [BytesIO_new (ModelApp.save_png (ModelApp.model_test model (ModelApp.unsqueeze t)))],
     mkWorld (mkSession (Some await_model_response) read)
       (trace w3 ++ [Post (requests.get_api_url (model_url config) "transfer")
                       (pretrained_request name [b]) 600;
                     SetData read]))).
  { unfold request_from_data. erewrite proxy_ok.
    2:{ rewrite lift_run. unfold getitem at 1. rewrite Hd3.
        rewrite lookup_insert_ne by done. rewrite Hstyle.
        rewrite lift_run. unfold getitem at 1.
        rewrite lookup_insert_ne by done. rewrite Hsi.
        rewrite lift_run. unfold getitem at 1. rewrite lookup_insert_eq.
        erewrite bind_run.
        2:{ apply (request_pretrained users name model [b] [t] pwhash); try done.
            by constructor. }
        cbn [map]. rewrite (data_after_request _ VNone) by done. reflexivity. }
    cbn [session state data trace]. rewrite Hmean, Hs3.
    by rewrite <- app_assoc. }
  assert (Hbody : bind request_from_data answer_photo w3 =
    (Ok tt,
     mkWorld (mkSession (Some await_model_response) read)
       (trace w3 ++ [Post (requests.get_api_url (model_url config) "transfer")
                       (pretrained_request name [b]) 600;
                     SetData read; Answer HERE_YOU_ARE;
                     AnswerPhoto (BytesIO_new (ModelApp.save_png
                        (ModelApp.model_test model (ModelApp.unsqueeze t))))]))).
  { unfold bind at 1. rewrite Hreq.
    unfold answer_photo. rewrite get_state_run. cbn [session state].
    rewrite api_ok_run by done. cbn [lookup list_lookup or_raise]. rewrite lift_run.
    rewrite api_run, Hapi. cbn [fst snd session trace].
    by rewrite <- !app_assoc. }
  fold answer_photo. rewrite Hbody. cbn [fst snd trace].
  f_equal. f_equal. subst w3. cbn [acknowledged advanced stored trace session data state].
  rewrite Hst. cbn [next_state]. rewrite <- !app_assoc. reflexivity.
Qed.

(** X6: the conversation for a pretrained style.  When the user of a
    conversation that holds no style yet picks a registered style and
    then sends one photo the service can open,
    [receive_chosen_style_callback_handler] followed by
    [receive_content_image_handler] ends without an exception and with
    the conversation finished (no state, no data), after exactly these
    calls: the state [send_content_images], the style stored with no
    style image, the request for the photos; the photo stored, the state
    [await_model_response], the acknowledgement, one POST to the
    [transfer] URL, the data stored again with the photo read to its
    end, [Here you are!], the photo inferred by the model of the
    style, and the reset of state and data.  The Telegram calls are
    taken to succeed and the session not to be touched by another
    handler during the request. *)
Theorem pretrained_conversation users name model pwhash message b t w :
  (forall url body timeout, http_post url body timeout = served users body) ->
  users !! username config = Some pwhash ->
  ModelApp.check_password_hash pwhash (password config) = true ->
  username config <> EmptyString -> password config <> EmptyString ->
  name <> "style_custom" ->
  ModelApp.views.gan_models !! name = Some model ->
  (forall c, api_error c = None) ->
  (forall s, meanwhile s = s) ->
  data (session w) !! "style" = None ->
  fetched message = Ok b ->
  ModelApp.image_open (getvalue b) = Ok t ->
  let run :=
    (let! _ := receive_chosen_style_callback_handler name in
     receive_content_image_handler message)%M w in
  let d := <["style_image" := VNone]> (<["style" := VStr name]> (data (session w))) in
  let d' := <["content_images" := VBuffers [b]]> d in
  let read := <["content_images" := VBuffers [at_end b]]> d in
  fst run = Ok tt
  /\ session (snd run) = mkSession None ∅
  /\ calls_of w run =
     [ SetState (Some send_content_images); SetData d; Answer SEND_CONTENT;
       SetData d'; SetState (Some await_model_response); Answer MAGIC_BEGUN;
       Post (requests.get_api_url (model_url config) "transfer")
         (pretrained_request name [b]) 600;
       SetData read; Answer HERE_YOU_ARE;
       AnswerPhoto (BytesIO_new (ModelApp.save_png
                      (ModelApp.model_test model (ModelApp.unsqueeze t))));
       SetState None; SetData ∅ ].
Proof.
  intros Hpost Hu Hc Hn Hp Hname Hmodel Hapi Hmean _ Hf Ht run d d' read.
  assert (Hrun : run =
    (Ok tt,
     mkWorld (mkSession None ∅)
       (trace w ++
        [ SetState (Some send_content_images); SetData d; Answer SEND_CONTENT;
          SetData d'; SetState (Some await_model_response); Answer MAGIC_BEGUN;
          Post (requests.get_api_url (model_url config) "transfer")
            (pretrained_request name [b]) 600;
          SetData read; Answer HERE_YOU_ARE;
          AnswerPhoto (BytesIO_new (ModelApp.save_png
                         (ModelApp.model_test model (ModelApp.unsqueeze t))));
          SetState None; SetData ∅ ]))).
  { subst run. unfold bind. rewrite callback_pretrained by done. cbn beta iota zeta.
    erewrite (content_image_pretrained users name model pwhash message b t); try done.
    - cbn [session data trace]. by rewrite <- app_assoc.
    - cbn. by rewrite lookup_insert_ne, lookup_insert_eq.
    - cbn. by rewrite lookup_insert_eq. }
  rewrite Hrun. split; [done|]. split; [done|]. by apply calls_of_app.
Qed.

End conversation_properties.

Section failures_properties.
Import BotApp BotApp.messages BotApp.fsm BotApp.callbacks BotApp.errors.
Context `{Env}.

(** X7: a photo that cannot be downloaded.  When the download raises,
    [receive_style_image_handler] and [receive_content_image_handler]
    raise the same exception and leave everything as it was: the state
    and the data of the conversation are not written and no message is
    sent.  The same holds for [receive_content_images_handler] when a
    download of its gallery raises. *)
Theorem failed_download_changes_nothing message media_group e w :
  (fetched message = Raise e ->
     receive_style_image_handler message w = (Raise e, w)
     /\ receive_content_image_handler message w = (Raise e, w))
  /\ (collected media_group [] = Raise e ->
     receive_content_images_handler message media_group w = (Raise e, w)).
Proof.
  split.
  - intros Hf. split.
    + unfold receive_style_image_handler. erewrite bind_run.
      2:{ apply proxy_raise. erewrite bind_run by apply download_photo_eq.
          rewrite Hf. reflexivity. }
      done.
    + rewrite receive_content_image_handler_run. unfold begun. by rewrite Hf.
  - intros Hc. rewrite receive_content_images_handler_run. unfold begun. by rewrite Hc.
Qed.

Lemma notify_run e w :
  (forall c, api_error c = None) ->
  notify e w = (Ok tt, mkWorld (session w) (trace w ++ [Answer (apology e)])).
Proof.
  intros Hapi. unfold notify.
  destruct e; cbn [is_timeout is_client_os_error negb andb apology];
    repeat first [rewrite api_ok_run by done | rewrite api_run, Hapi
                 | unfold bind, ret; cbn beta iota ];
    try reflexivity.
Qed.

Lemma request_fails e name b w :
  (forall url timeout, http_post url (pretrained_request name [b]) timeout = Raise e) ->
  data (session w) !! "style" = Some (VStr name) ->
  data (session w) !! "style_image" = Some VNone ->
  data (session w) !! "content_images" = Some (VBuffers [b]) ->
  request_from_data w =
  (Raise e,
   mkWorld (meanwhile (session w))
     (trace w ++ [Post (requests.get_api_url (model_url config) "transfer")
                    (pretrained_request name [b]) 600])).
Proof.
  intros Hpost Hstyle Hsi Hci. unfold request_from_data. erewrite proxy_raise; [done|].
  rewrite lift_run. unfold getitem at 1. rewrite Hstyle.
  rewrite lift_run. unfold getitem at 1. rewrite Hsi.
  rewrite lift_run. unfold getitem at 1. rewrite Hci.
  erewrite bind_run.
  2:{ unfold requests.request_style_transfer. cbn [requests.value_truthy].
      rewrite lift_run, lift_run, encode_buffers_sent, lift_run. cbn zeta.
      cbn [requests.style_to_json]. rewrite lift_run.
      rewrite !map_map. cbn [fst snd]. fold (pretrained_request name [b]).
      rewrite post_run. cbn zeta. rewrite Hpost. reflexivity. }
  reflexivity.
Qed.

Lemma request_failure_guarded e name message b w :
  (forall url timeout, http_post url (pretrained_request name [b]) timeout = Raise e) ->
  (forall c, api_error c = None) ->
  state (session w) = Some send_content_images ->
  data (session w) !! "style" = Some (VStr name) ->
  data (session w) !! "style_image" = Some VNone ->
  fetched message = Ok b ->
  let d := <["content_images" := VBuffers [b]]> (data (session w)) in
  guarded (receive_content_image_handler message) w =
  (Ok tt,
   mkWorld (mkSession None ∅)
     (trace w ++
      [ SetData d; SetState (Some await_model_response); Answer MAGIC_BEGUN;
        Post (requests.get_api_url (model_url config) "transfer")
          (pretrained_request name [b]) 600;
        SetState None; SetData ∅; Answer (apology e) ])).
Proof.
  intros Hpost Hapi Hst Hstyle Hsi Hf d.
  assert (Hrun : receive_content_image_handler message w =
    (Raise e,
     mkWorld (mkSession None ∅)
       (trace w ++
        [ SetData d; SetState (Some await_model_response); Answer MAGIC_BEGUN;
          Post (requests.get_api_url (model_url config) "transfer")
            (pretrained_request name [b]) 600;
          SetState None; SetData ∅ ]))).
  { rewrite receive_content_image_handler_run. unfold begun. rewrite Hf.
    cbn [result_bind]. rewrite Hapi. rewrite try_finally_finish.
    set (w3 := acknowledged (advanced (stored [b] w))).
    assert (Hbody : bind request_from_data answer_photo w3 =
      (Raise e,
       mkWorld (meanwhile (session w3))
         (trace w3 ++ [Post (requests.get_api_url (model_url config) "transfer")
                         (pretrained_request name [b]) 600]))).
    { unfold bind. rewrite (request_fails e name b); [done|done| | |].
      - subst w3. cbn. by rewrite lookup_insert_ne.
      - subst w3. cbn. by rewrite lookup_insert_ne.
      - subst w3. cbn. by rewrite lookup_insert_eq. }
    rewrite Hbody. cbn [fst snd trace]. f_equal. f_equal.
    subst w3. cbn [acknowledged advanced stored trace session data state].
    rewrite Hst. cbn [next_state]. rewrite <- !app_assoc. reflexivity. }
  unfold guarded. rewrite Hrun. rewrite notify_run by done.
  cbn [session trace]. by rewrite <- app_assoc.
Qed.

(** X8: a request to the service that fails.  When the POST raises [e]
    while [receive_content_image_handler] runs under the error handlers
    of the bot, the conversation is finished all the same (no state, no
    data), no image is sent, and the user gets one apology after the
    acknowledgement: the text of [timeout_error_handler] for a
    [TimeoutError], of [client_os_error_handler] for a
    [ClientOSError], of [other_errors_handler] for anything else. *)
Theorem failed_request_apology e name message b w :
  e <> CancelHandler ->
  (forall url body timeout, http_post url body timeout = Raise e) ->
  (forall c, api_error c = None) ->
  state (session w) = Some send_content_images ->
  data (session w) !! "style" = Some (VStr name) ->
  data (session w) !! "style_image" = Some VNone ->
  fetched message = Ok b ->
  let d := <["content_images" := VBuffers [b]]> (data (session w)) in
  guarded (receive_content_image_handler message) w =
  (Ok tt,
   mkWorld (mkSession None ∅)
     (trace w ++
      [ SetData d; SetState (Some await_model_response); Answer MAGIC_BEGUN;
        Post (requests.get_api_url (model_url config) "transfer")
          (pretrained_request name [b]) 600;
        SetState None; SetData ∅; Answer (apology e) ])).
Proof. intros _ Hpost. apply request_failure_guarded. intros. apply Hpost. Qed.

End failures_properties.

Section custom_properties.
Import BotApp BotApp.messages BotApp.fsm BotApp.callbacks.
Context `{ModelApp.Torch} `{Env}.

Lemma load_sent_sized b t :
  ModelApp.image_open (getvalue b) = Ok t ->
  ModelApp.requests.load_encoded
    (Some (if ModelApp.cuda_is_available then [512; 512] else [256; 256]))
    (JStr (base64_text (getvalue b)))
  = Ok (loaded t).
Proof.
  intros Ht. unfold ModelApp.requests.load_encoded. cbn [as_str result_bind].
  unfold ModelApp.images.base64_to_image. rewrite base64_text_decode.
  cbn [fmap option_fmap option_map or_raise result_bind].
  unfold ModelApp.images.load_image_from_buffer. cbn [seek0 getvalue BytesIO_new].
  rewrite Ht. cbn [result_bind]. unfold loaded. by destruct ModelApp.cuda_is_available.
Qed.

Lemma use_neural_algorithm_result json style_img c cs :
  ModelApp.requests.extract_original_images json true = Ok (Some style_img, c :: cs) ->
  snd (ModelApp.views.use_neural_algorithm json) =
  packed (map (fun c => ModelApp.training.fit_image
                          (ModelApp.build_trainer style_img c) c) (c :: cs)).
Proof.
  intros He. unfold ModelApp.views.use_neural_algorithm.
  rewrite (bind_lift_ok _ _ _ He).
  destruct cs as [|c' cs].
  - cbn [length Nat.eqb lookup list_lookup or_raise].
    rewrite (bind_lift_ok _ c) by done.
    rewrite get_fitted_image_some.
    cbn [ModelApp.bind ModelApp.ret]. by rewrite bind_pack.
  - cbn [length Nat.eqb]. unfold ModelApp.views.Pool, ModelApp.views.pool_size.
    replace (S (S (length cs)) `min` 3 <? 1)%nat with false
      by (symmetry; apply Nat.ltb_ge; lia).
    erewrite (map_W_total (ModelApp.TrainerBuilt style_img)
                (fun c => ModelApp.training.fit_image
                            (ModelApp.build_trainer style_img c) c))
      by (intros; apply get_fitted_image_some).
    cbn [ModelApp.tell ModelApp.bind app]. by rewrite bind_pack.
Qed.

Lemma served_custom users style_image s b buffers t tensors pwhash :
  users !! username config = Some pwhash ->
  ModelApp.check_password_hash pwhash (password config) = true ->
  username config <> EmptyString -> password config <> EmptyString ->
  ModelApp.image_open (getvalue style_image) = Ok s ->
  Forall2 (fun b t => ModelApp.image_open (getvalue b) = Ok t)
    (b :: buffers) (t :: tensors) ->
  served users (custom_style_request style_image (b :: buffers)) =
  Ok {[ "fitted_images" :=
          JList (map (fun t => JStr (base64_text (fitted_png s t))) (t :: tensors)) ]}.
Proof.
  intros Hu Hc Hn Hp Hs Hload. unfold served, ModelApp.views.transfer.
  rewrite login_authenticated.
  2:{ exists (username config), pwhash, (password config). by repeat split. }
  assert (Hst : custom_style_request style_image (b :: buffers) !! "style"
                = Some (JStr "style_custom")) by done.
  rewrite (post_dispatch _ _ Hst). cbn [json_eq_str String.eqb Ascii.eqb Bool.eqb].
  cbn -[ModelApp.views.use_neural_algorithm custom_style_request].
  erewrite (use_neural_algorithm_result _ (loaded s) (loaded t) (map loaded tensors)).
  - unfold packed. rewrite pack_sent. cbn. by rewrite !map_map.
  - unfold ModelApp.requests.extract_original_images, getitem.
    replace (custom_style_request style_image (b :: buffers) !! "style_image")
      with (Some (JStr (base64_text (getvalue style_image)))) by done.
    cbn [result_bind]. rewrite (load_sent_sized _ _ Hs). cbn [result_bind].
    replace (custom_style_request style_image (b :: buffers) !! "content_images")
      with (Some (JList (map (fun b => JStr (base64_text (getvalue b))) (b :: buffers))))
      by done.
    cbn [result_bind iterate]. rewrite result_map_map.
    rewrite (result_map_Forall2 _ (b :: buffers) (map loaded (t :: tensors))); [done|].
    apply Forall2_fmap_r. eapply Forall2_impl; [exact Hload|].
    intros b' t' Ht. by apply load_sent_sized.
Qed.

Lemma request_custom users style_image s b t pwhash url verify w :
  (forall url body timeout, http_post url body timeout = served users body) ->
  users !! username config = Some pwhash ->
  ModelApp.check_password_hash pwhash (password config) = true ->
  username config <> EmptyString -> password config <> EmptyString ->
  ModelApp.image_open (getvalue style_image) = Ok s ->
  ModelApp.image_open (getvalue b) = Ok t ->
  requests.request_style_transfer url (VStr "style_custom") (VBuffer style_image)
    (VBuffers [b]) (username config) (password config) verify w =
  (Ok ([BytesIO_new (fitted_png s t)], VBuffer (at_end style_image), VBuffers [at_end b]),
   mkWorld (meanwhile (session w))
     (trace w ++ [Post url (custom_style_request style_image [b]) 600])).
Proof.
  intros Hpost Hu Hc Hn Hp Hs Ht.
  unfold requests.request_style_transfer. cbn [requests.value_truthy].
  rewrite lift_run. unfold requests.encode_image at 1. rewrite encode_buffer_sent.
  cbn [result_bind]. rewrite lift_run, encode_buffers_sent, lift_run. cbn zeta.
  cbn [requests.style_to_json]. rewrite lift_run.
  rewrite !map_map. cbn [fst snd]. fold (custom_style_request style_image [b]).
  rewrite post_run. cbn zeta. rewrite Hpost.
  rewrite (served_custom users style_image s b [] t [] pwhash); try done.
  2:{ by repeat constructor. }
  rewrite lift_run. unfold getitem. rewrite lookup_singleton_eq.
  rewrite lift_run. cbn [iterate map].
  cbn [result_map as_str result_bind]. unfold images.base64_to_image.
  rewrite base64_text_decode. reflexivity.
Qed.

(** The data the proxy stores after the request for the custom style:
    the style image and the content images are the buffers read. *)
Lemma data_after_custom_request (d : gmap string value) si images images' :
  <["content_images" := images']>
    (<["style_image" := si]> (<["content_images" := images]> d))
  = <["content_images" := images']> (<["style_image" := si]> d).
Proof.
  rewrite (insert_insert_ne d "style_image" "content_images") by done.
  apply insert_insert_eq.
Qed.

Lemma callback_custom w :
  (forall c, api_error c = None) ->
  receive_chosen_style_callback_handler "style_custom" w =
  let s := next_state (state (session w)) in
  let d := <["style" := VStr "style_custom"]> (data (session w)) in
  (Ok tt, mkWorld (mkSession s d) (trace w ++ [SetState s; SetData d; Answer SEND_STYLE])).
Proof.
  intros Hapi. unfold receive_chosen_style_callback_handler.
  cbn [String.eqb Ascii.eqb Bool.eqb negb andb].
  cbn -[next proxy api bind SEND_STYLE].
  erewrite bind_run by apply next_run. cbn beta iota.
  erewrite bind_run.
  2:{ apply proxy_ok. reflexivity. }
  cbn beta iota. rewrite api_run, Hapi.
  cbn [advanced session state data trace]. by rewrite <- !app_assoc.
Qed.

Lemma style_image_stored message sb w :
  (forall c, api_error c = None) ->
  fetched message = Ok sb ->
  receive_style_image_handler message w =
  let s := next_state (state (session w)) in
  let d := <["style_image" := VBuffer sb]> (data (session w)) in
  (Ok tt, mkWorld (mkSession s d) (trace w ++ [SetData d; SetState s; Answer THANKS])).
Proof.
  intros Hapi Hf. unfold receive_style_image_handler.
  erewrite bind_run.
  2:{ apply proxy_ok. erewrite bind_run by apply download_photo_eq.
      rewrite Hf. reflexivity. }
  cbn beta iota. erewrite bind_run by apply next_run. cbn beta iota.
  rewrite api_run, Hapi.
  cbn [advanced session state data trace]. by rewrite <- !app_assoc.
Qed.

Lemma content_image_custom users pwhash message style_image s b t w :
  (forall url body timeout, http_post url body timeout = served users body) ->
  users !! username config = Some pwhash ->
  ModelApp.check_password_hash pwhash (password config) = true ->
  username config <> EmptyString -> password config <> EmptyString ->
  (forall c, api_error c = None) ->
  (forall s, meanwhile s = s) ->
  state (session w) = Some send_content_images ->
  data (session w) !! "style" = Some (VStr "style_custom") ->
  data (session w) !! "style_image" = Some (VBuffer style_image) ->
  ModelApp.image_open (getvalue style_image) = Ok s ->
  fetched message = Ok b ->
  ModelApp.image_open (getvalue b) = Ok t ->
  receive_content_image_handler message w =
  let d := <["content_images" := VBuffers [b]]> (data (session w)) in
  let read :=
    <["content_images" := VBuffers [at_end b]]>
      (<["style_image" := VBuffer (at_end style_image)]> (data (session w))) in
  (Ok tt,
   mkWorld (mkSession None ∅)
     (trace w ++
      [ SetData d; SetState (Some await_model_response); Answer MAGIC_BEGUN;
        Post (requests.get_api_url (model_url config) "transfer")
          (custom_style_request style_image [b]) 600;
        SetData read; Answer HERE_YOU_ARE;
        AnswerPhoto (BytesIO_new (fitted_png s t));
        SetState None; SetData ∅ ])).
Proof.
  intros Hpost Hu Hc Hn Hp Hapi Hmean Hst Hstyle Hsi Hs Hf Ht.
  rewrite receive_content_image_handler_run. unfold begun. rewrite Hf.
  cbn [result_bind]. rewrite Hapi. rewrite try_finally_finish.
  set (w3 := acknowledged (advanced (stored [b] w))).
  set (read := <["content_images" := VBuffers [at_end b]]>
                 (<["style_image" := VBuffer (at_end style_image)]> (data (session w)))).
  assert (Hd3 : data (session w3) = <["content_images" := VBuffers [b]]> (data (session w)))
    by done.
  assert (Hs3 : state (session w3) = Some await_model_response).
  { subst w3. cbn. by rewrite Hst. }
  assert (Hreq : request_from_data w3 =
    (Ok [BytesIO_new (fitted_png s t)],
     mkWorld (mkSession (Some await_model_response) read)
       (trace w3 ++ [Post (requests.get_api_url (model_url config) "transfer")
                       (custom_style_request style_image [b]) 600;
                     SetData read]))).
  { unfold request_from_data. erewrite proxy_ok.
    2:{ rewrite lift_run. unfold getitem at 1. rewrite Hd3.
        rewrite lookup_insert_ne by done. rewrite Hstyle.
        rewrite lift_run. unfold getitem at 1.
        rewrite lookup_insert_ne by done. rewrite Hsi.
        rewrite lift_run. unfold getitem at 1. rewrite lookup_insert_eq.
        erewrite bind_run.
        2:{ by apply (request_custom users style_image s b t pwhash). }
        cbn beta iota. rewrite data_after_custom_request. reflexivity. }
    cbn [session state data trace]. rewrite Hmean, Hs3.
    by rewrite <- app_assoc. }
  assert (Hbody : bind request_from_data answer_photo w3 =
    (Ok tt,
     mkWorld (mkSession (Some await_model_response) read)
       (trace w3 ++ [Post (requests.get_api_url (model_url config) "transfer")
                       (custom_style_request style_image [b]) 600;
                     SetData read; Answer HERE_YOU_ARE;
                     AnswerPhoto (BytesIO_new (fitted_png s t))]))).
  { unfold bind at 1. rewrite Hreq.
    unfold answer_photo. rewrite get_state_run. cbn [session state].
    rewrite api_ok_run by done. cbn [lookup list_lookup or_raise]. rewrite lift_run.
    rewrite api_run, Hapi. cbn [fst snd session trace].
    by rewrite <- !app_assoc. }
  fold answer_photo. rewrite Hbody. cbn [fst snd trace].
  f_equal. f_equal. subst w3. cbn [acknowledged advanced stored trace session data state].
  rewrite Hst. cbn [next_state]. rewrite <- !app_assoc. reflexivity.
Qed.

(** X9: the conversation for the custom style.  From the state
    [choose_style] of a conversation that holds no style yet, when the
    user picks [style_custom], sends a style
    photo and then one content photo, both of which the service can
    open, the three handlers end without an exception and with the
    conversation finished, after exactly these calls: the state
    [send_style_image], the style stored, the request for the style
    image; the style image stored, the state [send_content_images], the
    thanks; the content photo stored, the state [await_model_response],
    the acknowledgement, one POST to the [transfer] URL with both images,
    the data stored again with both photos read to their end,
    [Here you are!], the PNG file of the content photo fitted to the
    style photo (both resized by the service), and the reset of state
    and data. *)
Theorem custom_conversation users pwhash style_message content_message sb s b t w :
  (forall url body timeout, http_post url body timeout = served users body) ->
  users !! username config = Some pwhash ->
  ModelApp.check_password_hash pwhash (password config) = true ->
  username config <> EmptyString -> password config <> EmptyString ->
  (forall c, api_error c = None) ->
  (forall s, meanwhile s = s) ->
  state (session w) = Some choose_style ->
  data (session w) !! "style" = None ->
  fetched style_message = Ok sb ->
  ModelApp.image_open (getvalue sb) = Ok s ->
  fetched content_message = Ok b ->
  ModelApp.image_open (getvalue b) = Ok t ->
  let run :=
    (let! _ := receive_chosen_style_callback_handler "style_custom" in
     let! _ := receive_style_image_handler style_message in
     receive_content_image_handler content_message)%M w in
  let d1 := <["style" := VStr "style_custom"]> (data (session w)) in
  let d2 := <["style_image" := VBuffer sb]> d1 in
  let d3 := <["content_images" := VBuffers [b]]> d2 in
  let read :=
    <["content_images" := VBuffers [at_end b]]>
      (<["style_image" := VBuffer (at_end sb)]> d1) in
  fst run = Ok tt
  /\ session (snd run) = mkSession None ∅
  /\ calls_of w run =
     [ SetState (Some send_style_image); SetData d1; Answer SEND_STYLE;
       SetData d2; SetState (Some send_content_images); Answer THANKS;
       SetData d3; SetState (Some await_model_response); Answer MAGIC_BEGUN;
       Post (requests.get_api_url (model_url config) "transfer")
         (custom_style_request sb [b]) 600;
       SetData read; Answer HERE_YOU_ARE;
       AnswerPhoto (BytesIO_new (fitted_png s t));
       SetState None; SetData ∅ ].
Proof.
  intros Hpost Hu Hc Hn Hp Hapi Hmean Hst _ Hfs Hs Hf Ht run d1 d2 d3 read.
  assert (Hrun : run =
    (Ok tt,
     mkWorld (mkSession None ∅)
       (trace w ++
        [ SetState (Some send_style_image); SetData d1; Answer SEND_STYLE;
          SetData d2; SetState (Some send_content_images); Answer THANKS;
          SetData d3; SetState (Some await_model_response); Answer MAGIC_BEGUN;
          Post (requests.get_api_url (model_url config) "transfer")
            (custom_style_request sb [b]) 600;
          SetData read; Answer HERE_YOU_ARE;
          AnswerPhoto (BytesIO_new (fitted_png s t));
          SetState None; SetData ∅ ]))).
  { subst run. unfold bind. rewrite callback_custom by done. cbn beta iota zeta.
    rewrite (style_image_stored style_message sb) by done. cbn beta iota zeta.
    cbn [session state data trace]. rewrite Hst. cbn [next_state].
    erewrite (content_image_custom users pwhash content_message sb s b t); try done.
    - cbn [session data trace]. fold d1. rewrite insert_insert_eq.
      by rewrite <- !app_assoc.
    - cbn. by rewrite lookup_insert_ne, lookup_insert_eq.
    - cbn. by rewrite lookup_insert_eq. }
  rewrite Hrun. split; [done|]. split; [done|]. by apply calls_of_app.
Qed.

End custom_properties.

Section gallery_properties.
Import BotApp BotApp.messages BotApp.fsm BotApp.callbacks.
Context `{ModelApp.Torch} `{Env}.

(** X10: a gallery for a pretrained style.  In the state
    [send_content_images], for a media group of at least one photo of
    which the first three (all, when there are fewer) download and can
    be opened
    by the service, [receive_content_images_handler] stores these
    buffers, posts them in one request with the timeout
    [600 * len(content_images)], stores the data again with the
    buffers read to their end, and answers with one media group that
    holds, in the order of the gallery, what the model of the style
    infers for each of them; the conversation is then finished. *)
Theorem pretrained_gallery users name model pwhash message media_group buffers tensors w :
  (forall url body timeout, http_post url body timeout = served users body) ->
  users !! username config = Some pwhash ->
  ModelApp.check_password_hash pwhash (password config) = true ->
  username config <> EmptyString -> password config <> EmptyString ->
  name <> "style_custom" ->
  ModelApp.views.gan_models !! name = Some model ->
  (forall c, api_error c = None) ->
  (forall s, meanwhile s = s) ->
  state (session w) = Some send_content_images ->
  data (session w) !! "style" = Some (VStr name) ->
  data (session w) !! "style_image" = Some VNone ->
  media_group <> [] ->
  Forall (fun m => photo m <> []) media_group ->
  Forall2 (fun m b => fetched m = Ok b) (take max_images media_group) buffers ->
  Forall2 (fun b t => ModelApp.image_open (getvalue b) = Ok t) buffers tensors ->
  let d := <["content_images" := VBuffers buffers]> (data (session w)) in
  let read := <["content_images" := VBuffers (map at_end buffers)]> (data (session w)) in
  receive_content_images_handler message media_group w =
  (Ok tt,
   mkWorld (mkSession None ∅)
     (trace w ++
      [ SetData d; SetState (Some await_model_response); Answer MAGIC_BEGUN;
        Post (requests.get_api_url (model_url config) "transfer")
          (pretrained_request name buffers) (600 * length buffers);
        SetData read; Answer HERE_YOU_ARE;
        AnswerMediaGroup
          (map (fun t => BytesIO_new (ModelApp.save_png
                  (ModelApp.model_test model (ModelApp.unsqueeze t)))) tensors);
        SetState None; SetData ∅ ])).
Proof.
  intros Hpost Hu Hc Hn Hp Hname Hmodel Hapi Hmean Hst Hstyle Hsi _ Hphotos Hf Ht d read.
  rewrite receive_content_images_handler_run. unfold begun.
  rewrite (collected_photos media_group [] buffers) by done.
  cbn [app]. rewrite Hapi. rewrite try_finally_finish.
  set (w3 := acknowledged (advanced (stored buffers w))).
  assert (Hd3 : data (session w3) = d) by done.
  assert (Hs3 : state (session w3) = Some await_model_response).
  { subst w3. cbn. by rewrite Hst. }
  set (out := map (fun t => BytesIO_new (ModelApp.save_png
                     (ModelApp.model_test model (ModelApp.unsqueeze t)))) tensors).
  assert (Hreq : request_from_data w3 =
    (Ok out,
     mkWorld (mkSession (Some await_model_response) read)
       (trace w3 ++ [Post (requests.get_api_url (model_url config) "transfer")
                       (pretrained_request name buffers) (600 * length buffers);
                     SetData read]))).
  { unfold request_from_data. erewrite proxy_ok.
    2:{ rewrite lift_run. unfold getitem at 1.
        assert (Hl1 : data (session w3) !! "style" = Some (VStr name)).
        { rewrite Hd3. subst d. by rewrite lookup_insert_ne. }
        assert (Hl2 : data (session w3) !! "style_image" = Some VNone).
        { rewrite Hd3. subst d. by rewrite lookup_insert_ne. }
        assert (Hl3 : data (session w3) !! "content_images" = Some (VBuffers buffers)).
        { rewrite Hd3. subst d. by rewrite lookup_insert_eq. }
        rewrite Hl1.
        rewrite lift_run. unfold getitem at 1. rewrite Hl2.
        rewrite lift_run. unfold getitem at 1. rewrite Hl3.
        erewrite bind_run.
        2:{ by apply (request_pretrained users name model buffers tensors pwhash). }
        cbn beta iota. rewrite Hd3. subst d.
        rewrite (data_after_request _ VNone) by done. reflexivity. }
    cbn [session state data trace]. rewrite Hmean, Hs3.
    by rewrite <- app_assoc. }
  assert (Hbody : bind request_from_data answer_media_group w3 =
    (Ok tt,
     mkWorld (mkSession (Some await_model_response) read)
       (trace w3 ++ [Post (requests.get_api_url (model_url config) "transfer")
                       (pretrained_request name buffers) (600 * length buffers);
                     SetData read; Answer HERE_YOU_ARE; AnswerMediaGroup out]))).
  { unfold bind at 1. rewrite Hreq.
    unfold answer_media_group. rewrite get_state_run. cbn [session state].
    rewrite api_ok_run by done.
    rewrite api_run, Hapi. cbn [fst snd session trace].
    by rewrite <- !app_assoc. }
  rewrite Hbody. cbn [fst snd trace].
  f_equal. f_equal. subst w3. cbn [acknowledged advanced stored trace session data state].
  rewrite Hst. cbn [next_state]. rewrite <- !app_assoc. reflexivity.
Qed.

End gallery_properties.

Section rate_properties.
Import BotApp BotApp.throttling BotApp.middlewares.
Local Open Scope Z_scope.

Variable self : ThrottlingMiddleware.
Variable handler : option Handler.

Local Abbreviation key := (key_of self handler).
Local Abbreviation limit := (limit_of self handler).

Lemma throttle_last now bucket :
  exists record,
    snd (throttle key limit now bucket) !! key = Some record /\ LAST_CALL record = now.
Proof.
  unfold throttle. cbn [snd]. eexists. by rewrite lookup_insert_eq.
Qed.

Lemma bucket_after_last updates : forall bucket,
  match last_plain updates with
  | Some t =>
      exists record,
        bucket_after self handler updates bucket !! key = Some record
        /\ LAST_CALL record = t
  | None => bucket_after self handler updates bucket = bucket
  end.
Proof.
  induction updates as [|[t m] rest IH]; intros bucket; [done|].
  rewrite bucket_after_cons. cbn [last_plain].
  specialize (IH (snd (on_process_message_begin self handler m t bucket))).
  destruct (last_plain rest) as [t'|]; [exact IH|].
  rewrite IH. unfold on_process_message_begin.
  destruct (has_media_group m); [done|]. apply throttle_last.
Qed.

(** X11: what [ThrottlingMiddleware.on_process_message] decides for a
    message, given the updates of the same user for the same handler
    before it.  A message outside of any media group that comes after
    the last such update, and less than the limit after it, is deleted
    and its handler cancelled; any other call made for it is one of the
    two notices of [message_throttled].  Every other message goes on to
    its handler and the middleware makes no call: a message of a media
    group, the first message outside of one, and a message that comes
    at least the limit after the last one.  This holds whatever time
    the deletion and the notice take. *)
Theorem throttling_verdict latency earlier now message later :
  if too_early limit earlier now message then
    exists notices,
      on_process_message self handler latency earlier now message later
      = (Delete message :: notices, Cancelled)
      /\ Forall (fun c => c = Answer BANNED \/ c = Answer UNBANNED) notices
  else
    on_process_message self handler latency earlier now message later = ([], ToHandler).
Proof.
  unfold too_early, on_process_message, on_process_message_begin.
  destruct (has_media_group message) as [g|]; [done|].
  pose proof (bucket_after_last earlier ∅) as Hlast.
  unfold throttle.
  destruct (last_plain earlier) as [last|].
  - destruct Hlast as (record & -> & Hl). rewrite <- Hl.
    destruct ((0 <? now - LAST_CALL record) && (now - LAST_CALL record <? limit)) eqn:He.
    + apply andb_true_iff in He as [H0 H1]. apply Z.ltb_lt in H0, H1.
      replace (limit <=? now - LAST_CALL record) with false by (symmetry; apply Z.leb_gt; lia).
      replace (now - LAST_CALL record <=? 0) with false by (symmetry; apply Z.leb_gt; lia).
      cbn [orb]. unfold message_throttled_begin, message_throttled_end.
      cbn beta iota zeta. eexists. split; [reflexivity|].
      apply Forall_app. split.
      * destruct (_ <=? 2)%nat; [constructor; [by left|constructor]|constructor].
      * destruct (_ =? _)%nat; [constructor; [by right|constructor]|constructor].
    + replace ((limit <=? now - LAST_CALL record) || (now - LAST_CALL record <=? 0))
        with true; [done|].
      symmetry. apply orb_true_iff. apply andb_false_iff in He as [He|He].
      * right. apply Z.leb_le. apply Z.ltb_ge in He. lia.
      * left. apply Z.leb_le. by apply Z.ltb_ge in He.
  - rewrite Hlast. rewrite lookup_empty. rewrite Z.sub_diag.
    replace (0 <=? 0) with true by done. by rewrite orb_true_r.
Qed.

End rate_properties.

Section release_properties.
Import BotApp BotApp.middlewares.

Lemma run_app moments moments' gd :
  run (moments ++ moments') gd =
  fold_left step moments' (run moments gd).
Proof. unfold run. by rewrite fold_left_app. Qed.

Lemma group_finished g first siblings gd :
  has_media_group first = Some g ->
  Forall (fun m => has_media_group m = Some g) siblings ->
  media_group_data gd !! g = None ->
  run (map Arrives (first :: siblings) ++ [Wakes first; Finishes first]) gd =
  (mkGathering (media_group_data gd) ({[message_id first]} ∪ conf_is_last gd),
   map Dropped siblings ++ [Handled first (Some (first :: siblings))]).
Proof.
  intros Hfirst Hall Hfresh.
  replace (map Arrives (first :: siblings) ++ [Wakes first; Finishes first])
    with ((map Arrives (first :: siblings) ++ [Wakes first]) ++ [Finishes first])
    by (by rewrite <- app_assoc).
  rewrite run_app, (one_group g) by done. cbn [fold_left step].
  unfold on_post_process_message. rewrite Hfirst. cbn.
  rewrite decide_True by set_solver. rewrite lookup_insert_eq. cbn.
  by rewrite delete_insert_id.
Qed.

(** X12: the table of [GatherMediaGroupMiddleware] after a media group.
    Once the first message of a group was handled and post-processed,
    the table is what it was before the group: the entry of the group is
    removed.  A message of the same group that arrives after that is not
    dropped: it opens the group again and is handled with a media group
    of its own. *)
Theorem media_group_released g first siblings late gd :
  has_media_group first = Some g ->
  Forall (fun m => has_media_group m = Some g) siblings ->
  has_media_group late = Some g ->
  media_group_data gd !! g = None ->
  media_group_data
    (fst (run (map Arrives (first :: siblings) ++ [Wakes first; Finishes first]) gd))
  = media_group_data gd
  /\ snd (run (map Arrives (first :: siblings) ++ [Wakes first; Finishes first]
               ++ [Arrives late; Wakes late]) gd)
     = map Dropped siblings
       ++ [Handled first (Some (first :: siblings)); Handled late (Some [late])].
Proof.
  intros Hfirst Hall Hlate Hfresh. split.
  - by rewrite (group_finished g).
  - rewrite app_assoc, run_app.
    replace ((map Arrives (first :: siblings) ++ [Wakes first]) ++ [Finishes first])
      with (map Arrives (first :: siblings) ++ [Wakes first; Finishes first])
      by (by rewrite <- app_assoc).
    rewrite (group_finished g) by done. cbn [fold_left].
    rewrite (step_arrives_first g) by done.
    erewrite (step_wakes g late [late]); [|done|cbn; by rewrite lookup_insert_eq].
    cbn [snd]. by rewrite <- app_assoc.
Qed.

End release_properties.

Section content_loss_properties.
Import ModelApp.losses.
Context `{ScalarLaws}.

(** X13: the content loss of the target itself.  For a tensor [x] with at
    least one element and no infinity or NaN, a [ContentLoss] built
    with the target [x] records the loss zero on the input [x]. *)
Theorem content_loss_at_target x :
  finite_tensor x ->
  content_loss (fst (ContentLoss_forward (ContentLoss_init x) x)) = Some zero.
Proof.
  intros (Hn & Hl & Hf).
  cbn. unfold mse_loss_tensor. rewrite decide_True by done. f_equal.
  rewrite sum_upto_zero; [by apply div_zero|].
  intros k Hk. rewrite sub_diag; [apply mul_zero|].
  rewrite Forall_forall in Hf. apply Hf. apply list_elem_of_In, nth_In. lia.
Qed.

End content_loss_properties.

Section image_pool_properties.
Import ModelApp.image_pool.
Context {Image : Type}.

Lemma delete_insert_same (l : list Image) i x : delete i (<[i := x]> l) = delete i l.
Proof. revert i. induction l as [|y l IH]; intros [|i]; cbn; f_equal; auto. Qed.

Lemma cons_subseteq x (l1 l : list Image) : x ∈ l -> l1 ⊆ l -> x :: l1 ⊆ l.
Proof. intros Hx Hl y [->|Hy]%elem_of_cons; [done|by apply Hl]. Qed.

Lemma subseteq_middle x (l l1 l2 : list Image) :
  l ⊆ (l1 ++ [x]) ++ l2 -> l ⊆ l1 ++ x :: l2.
Proof. intros Hl. by rewrite <- app_assoc in Hl. Qed.

Lemma subseteq_skip x (l l1 l2 : list Image) :
  l ⊆ l1 ++ l2 -> l ⊆ l1 ++ x :: l2.
Proof.
  intros Hl y Hy. pose proof (Hl y Hy) as [Hy'|Hy']%elem_of_app; apply elem_of_app.
  - by left.
  - right. by apply list_elem_of_further.
Qed.

Lemma elem_of_middle x (l1 l2 : list Image) : x ∈ l1 ++ x :: l2.
Proof. apply elem_of_app. right. apply list_elem_of_here. Qed.

Lemma insert_subseteq i x (l : list Image) : <[i := x]> l ⊆ x :: l.
Proof.
  intros y Hy. apply list_elem_of_lookup in Hy as [j Hj].
  destruct (decide (j = i)) as [->|Hne].
  - assert (Hi : i < length l).
    { apply lookup_lt_Some in Hj. by rewrite length_insert in Hj. }
    rewrite list_lookup_insert_eq in Hj by done.
    injection Hj as <-. apply list_elem_of_here.
  - rewrite list_lookup_insert_ne in Hj by done.
    apply list_elem_of_further. by eapply list_elem_of_lookup_2.
Qed.

Lemma subseteq_swapped i x (l l1 l2 : list Image) :
  l ⊆ <[i := x]> l1 ++ l2 -> l ⊆ l1 ++ x :: l2.
Proof.
  intros Hl y Hy. pose proof (Hl y Hy) as [Hy'|Hy']%elem_of_app; apply elem_of_app.
  - pose proof (insert_subseteq i x l1 y Hy') as [->|Hy'']%elem_of_cons; [right|by left].
    apply list_elem_of_here.
  - right. by apply list_elem_of_further.
Qed.

Lemma query_loop_spec pool_size (draws : nat -> draw) (images : list Image) :
  in_range pool_size draws ->
  forall num_imgs stored k ret,
    num_imgs = length stored -> (Z.of_nat num_imgs <= pool_size)%Z ->
    exists out stored' k',
      query_loop pool_size images num_imgs stored draws k ret
      = inr (ret ++ out, (length stored', stored'), k')
      /\ length out = length images
      /\ (Z.of_nat (length stored') <= pool_size)%Z
      /\ out ⊆ stored ++ images
      /\ stored' ⊆ stored ++ images
      /\ ((Z.of_nat (num_imgs + length images) <= pool_size)%Z ->
          out = images /\ stored' = stored ++ images /\ k' = k)
      /\ ((pool_size <= Z.of_nat num_imgs)%Z ->
          out ++ stored' ≡ₚ stored ++ images
          /\ length stored' = length stored
          /\ k' = (k + length images)%nat).
Proof.
  intros Hr. induction images as [|image rest IH]; intros n stored k ret Hn Hle.
  - exists [], stored, k. cbn. rewrite !app_nil_r. subst n.
    split; [done|]. split; [done|]. split; [done|].
    split; [by intros x Hx%elem_of_nil|]. split; [done|]. split; [done|].
    intros _. split; [done|]. split; [done|]. lia.
  - cbn [query_loop]. destruct (Z.of_nat n <? pool_size)%Z eqn:Hlt.
    + apply Z.ltb_lt in Hlt.
      destruct (IH (S n) (stored ++ [image]) k (ret ++ [image]))
        as (out & stored' & k' & -> & Hlen & Hle' & Hout & Hst & Hwarm & _).
      { rewrite length_app. cbn. lia. }
      { lia. }
      exists (image :: out), stored', k'. rewrite <- app_assoc. cbn [app length].
      split; [done|]. split; [by rewrite Hlen|]. split; [done|].
      split; [|split; [|split]].
      * apply cons_subseteq; [apply elem_of_middle|by apply subseteq_middle].
      * by apply subseteq_middle.
      * intros Hw. destruct Hwarm as (-> & -> & ->); [lia|].
        by rewrite <- app_assoc.
      * lia.
    + apply Z.ltb_ge in Hlt. destruct (draws k) as [|random_id] eqn:Hd.
      * destruct (IH n stored (S k) (ret ++ [image]))
          as (out & stored' & k' & -> & Hlen & Hle' & Hout & Hst & _ & Hfull);
          [done|done|].
        exists (image :: out), stored', k'. rewrite <- app_assoc. cbn [app length].
        split; [done|]. split; [by rewrite Hlen|]. split; [done|].
        split; [|split; [|split]].
        -- apply cons_subseteq; [apply elem_of_middle|by apply subseteq_skip].
        -- by apply subseteq_skip.
        -- intros Hw. lia.
        -- intros Hf. destruct (Hfull Hf) as (Hperm & Hl & ->).
           split; [|split; [done|lia]].
           rewrite <- Permutation_middle. by rewrite <- Hperm.
      * pose proof (Hr k random_id Hd) as Hid.
        destruct (lookup_lt_is_Some_2 stored random_id) as [tmp Htmp]; [lia|].
        rewrite Htmp.
        destruct (IH n (<[random_id := image]> stored) (S k) (ret ++ [tmp]))
          as (out & stored' & k' & -> & Hlen & Hle' & Hout & Hst & _ & Hfull).
        { by rewrite length_insert. }
        { done. }
        exists (tmp :: out), stored', k'. rewrite <- app_assoc. cbn [app length].
        split; [done|]. split; [by rewrite Hlen|]. split; [done|].
        split; [|split; [|split]].
        -- apply cons_subseteq; [|by eapply subseteq_swapped].
           apply elem_of_app. left. by eapply list_elem_of_lookup_2.
        -- by eapply subseteq_swapped.
        -- intros Hw. lia.
        -- intros Hf. destruct (Hfull Hf) as (Hperm & Hl & ->).
           split; [|split; [by rewrite Hl, length_insert|lia]].
           assert (H1 : <[random_id := image]> stored
                        ≡ₚ image :: delete random_id stored).
           { rewrite <- (delete_insert_same stored random_id image).
             apply delete_Permutation, list_lookup_insert_eq.
             by eapply lookup_lt_Some. }
           pose proof (delete_Permutation stored random_id tmp Htmp) as H2.
           cbn. rewrite Hperm, <- Permutation_middle, H1. cbn.
           rewrite perm_swap. f_equiv.
           change (tmp :: delete random_id stored ++ rest)
             with ((tmp :: delete random_id stored) ++ rest).
           by rewrite <- H2.
Qed.


(** X15: [ImagePool.query] while the pool fills up.  When the batch
    still fits into the pool, the batch is returned as it is, appended
    to the stored images, and the random generator is not used. *)
Theorem image_pool_warm_up (self : ImagePool Image) num_imgs stored images draws k :
  store self = Some (num_imgs, stored) ->
  num_imgs = length stored ->
  images <> [] ->
  (Z.of_nat (length stored + length images) <= pool_size self)%Z ->
  query self images draws k =
  inr (images,
       mkImagePool (pool_size self)
         (Some (length stored + length images, stored ++ images)),
       k).
Proof.
  intros Hs Hn Hne Hw. unfold query.
  assert (0 < length images) by (destruct images; [done|cbn; lia]).
  replace (pool_size self =? 0)%Z with false by (symmetry; apply Z.eqb_neq; lia).
  destruct images as [|image rest]; [done|]. rewrite Hs.
  assert (Hgen : forall (images : list Image) n (stored ret : list Image),
    n = length stored ->
    (Z.of_nat (n + length images) <= pool_size self)%Z ->
    query_loop (pool_size self) images n stored draws k ret
    = inr (ret ++ images, (length stored + length images, stored ++ images), k)).
  { clear. induction images as [|i images IH]; intros n stored ret Hn Hw.
    - cbn. subst n. by rewrite !app_nil_r, Nat.add_0_r.
    - cbn [query_loop].
      replace (Z.of_nat n <? pool_size self)%Z with true
        by (symmetry; apply Z.ltb_lt; cbn in Hw; lia).
      rewrite IH.
      + rewrite <- !app_assoc, length_app. cbn. do 4 f_equal. lia.
      + rewrite length_app. cbn. lia.
      + cbn in Hw. lia. }
  rewrite Hgen by (subst; done). done.
Qed.

(** X16: the edges of [ImagePool].  A pool of size zero returns every
    batch as it is and stores nothing.  For any other size an empty
    batch fails in [torch.cat].  A pool of negative size fails on the
    first image of any batch: [__init__] has not created the attributes
    [query] reads. *)
Theorem image_pool_edges (pool_size : Z) (images : list Image) draws k :
  ((pool_size = 0)%Z ->
     query (ImagePool_init pool_size) images draws k
     = inr (images, ImagePool_init pool_size, k))
  /\ ((pool_size <> 0)%Z ->
      query (ImagePool_init pool_size) (@nil Image) draws k = inl NothingToCat)
  /\ ((pool_size < 0)%Z -> images <> [] ->
      query (ImagePool_init pool_size) images draws k = inl NoAttribute).
Proof.
  split; [|split].
  - by intros ->.
  - intros Hne. unfold query, ImagePool_init. cbn.
    by replace (pool_size =? 0)%Z with false by (symmetry; by apply Z.eqb_neq).
  - intros Hneg Hne. unfold query, ImagePool_init. cbn.
    replace (pool_size =? 0)%Z with false by (symmetry; apply Z.eqb_neq; lia).
    replace (0 <? pool_size)%Z with false by (symmetry; apply Z.ltb_ge; lia).
    by destruct images.
Qed.

End image_pool_properties.

Section models_properties.
Import ModelApp.models.
Context `{Network}.

Lemma targets_match_snoc content_img style_img model m :
  targets_match content_img style_img model ->
  match m with
  | ContentLossOf target => sequential_forward model content_img = Ok target
  | StyleLossOf target =>
      exists activation,
        sequential_forward model style_img = Ok activation
        /\ to_gram_matrix activation = Ok target
  | _ => True
  end ->
  targets_match content_img style_img (model ++ [m]).
Proof.
  intros Hm Hnew before m' after Heq.
  destruct (decide (after = [])) as [->|Hne].
  - apply app_inj_tail in Heq as [<- <-]. exact Hnew.
  - destruct (exists_last Hne) as (after' & x & ->).
    rewrite app_comm_cons, app_assoc in Heq.
    apply app_inj_tail in Heq as [-> <-]. by eapply Hm.
Qed.

Lemma get_model_loop_turn layer rest content_img style_img content_ids style_ids
    model cl sl cnt :
  get_model_loop (layer :: rest) content_img style_img content_ids style_ids
    model cl sl cnt =
  (let! (model, cl, sl, cnt) :=
     turn layer content_img style_img content_ids style_ids model cl sl cnt in
   let! max_content := max_of content_ids in
   let! max_style := max_of style_ids in
   if (cnt =? Nat.max max_content max_style)%nat
   then Ok (model, cl, sl)
   else get_model_loop rest content_img style_img content_ids style_ids
          model cl sl cnt)%result.
Proof. cbn [get_model_loop]. unfold turn, copy_of. by destruct (kind_of layer). Qed.

Lemma turn_spec layer content_img style_img content_ids style_ids model cl sl cnt
    model' cl' sl' cnt' :
  turn layer content_img style_img content_ids style_ids model cl sl cnt
    = Ok (model', cl', sl', cnt') ->
  targets_match content_img style_img model ->
  cl = List.filter is_content_loss model ->
  sl = List.filter is_style_loss model ->
  targets_match content_img style_img model'
  /\ cl' = List.filter is_content_loss model'
  /\ sl' = List.filter is_style_loss model'
  /\ cnt' = match kind_of layer with Conv2d => S cnt | _ => cnt end
  /\ List.filter (fun m => negb (is_loss m)) model'
     = List.filter (fun m => negb (is_loss m)) model ++ [copy_of layer].
Proof.
  intros Hrun Ht Hcl Hsl. unfold turn in Hrun.
  assert (Hcopy : is_content_loss (copy_of layer) = false
                  /\ is_style_loss (copy_of layer) = false).
  { unfold copy_of. by destruct (kind_of layer). }
  destruct Hcopy as [Hcc Hcs].
  assert (Ht0 : targets_match content_img style_img (model ++ [copy_of layer])).
  { apply targets_match_snoc; [done|]. unfold copy_of. by destruct (kind_of layer). }
  assert (Hc0 : cl = List.filter is_content_loss (model ++ [copy_of layer])).
  { rewrite List.filter_app, <- Hcl. cbn. by rewrite Hcc, app_nil_r. }
  assert (Hs0 : sl = List.filter is_style_loss (model ++ [copy_of layer])).
  { rewrite List.filter_app, <- Hsl. cbn. by rewrite Hcs, app_nil_r. }
  assert (Hl0 : List.filter (fun m => negb (is_loss m)) (model ++ [copy_of layer])
                = List.filter (fun m => negb (is_loss m)) model ++ [copy_of layer]).
  { rewrite List.filter_app. cbn. unfold is_loss. by rewrite Hcc, Hcs. }
  set (model0 := model ++ [copy_of layer]) in *. clearbody model0.
  destruct (kind_of layer) eqn:Hk; [|by injection Hrun as <- <- <- <-..].
  (* the content loss *)
  assert (exists model1 cl1,
    (if contains content_ids (S cnt) then
       let! activation := sequential_forward model0 content_img in
       Ok (model0 ++ [ContentLoss_new activation], cl ++ [ContentLoss_new activation])
     else Ok (model0, cl))%result = Ok (model1, cl1)
    /\ targets_match content_img style_img model1
    /\ cl1 = List.filter is_content_loss model1
    /\ sl = List.filter is_style_loss model1
    /\ List.filter (fun m => negb (is_loss m)) model1
       = List.filter (fun m => negb (is_loss m)) model0) as (model1 & cl1 & E1 & Ht1 & Hc1 & Hs1 & Hl1).
  { destruct (contains content_ids (S cnt)).
    - destruct (sequential_forward model0 content_img) as [a|] eqn:Ha; [|done].
      cbn in Hrun |- *. eexists _, _. split; [done|].
      repeat split.
      + by apply targets_match_snoc.
      + rewrite List.filter_app. cbn. by rewrite <- Hc0.
      + rewrite List.filter_app. cbn. by rewrite app_nil_r.
      + rewrite List.filter_app. cbn. by rewrite app_nil_r.
    - by eexists _, _. }
  rewrite E1 in Hrun. cbn [result_bind] in Hrun. clear E1.
  destruct (contains style_ids (S cnt)).
  - destruct (sequential_forward model1 style_img) as [a|] eqn:Ha; [|done].
    cbn [result_bind] in Hrun. unfold StyleLoss_new in Hrun.
    destruct (to_gram_matrix a) as [g|] eqn:Hg; [|done].
    cbn in Hrun. injection Hrun as <- <- <- <-.
    repeat split.
    + apply targets_match_snoc; [done|]. by exists a.
    + rewrite List.filter_app. cbn. by rewrite app_nil_r.
    + rewrite List.filter_app. cbn. by rewrite <- Hs1.
    + rewrite List.filter_app. cbn. by rewrite app_nil_r, Hl1, Hl0.
  - cbn in Hrun. injection Hrun as <- <- <- <-. by rewrite Hl1, Hl0.
Qed.

Lemma get_model_loop_spec content_img style_img content_ids style_ids layers :
  forall model cl sl cnt M CL SL,
    get_model_loop layers content_img style_img content_ids style_ids model cl sl cnt
      = Ok (M, CL, SL) ->
    targets_match content_img style_img model ->
    cl = List.filter is_content_loss model ->
    sl = List.filter is_style_loss model ->
    targets_match content_img style_img M
    /\ CL = List.filter is_content_loss M
    /\ SL = List.filter is_style_loss M.
Proof.
  induction layers as [|layer rest IH]; intros model cl sl cnt M CL SL Hrun Ht Hcl Hsl.
  - cbn in Hrun. by injection Hrun as <- <- <-.
  - rewrite get_model_loop_turn in Hrun.
    destruct (turn layer content_img style_img content_ids style_ids model cl sl cnt)
      as [[[[model' cl'] sl'] cnt']|] eqn:Hturn; [|done].
    cbn [result_bind] in Hrun.
    apply turn_spec in Hturn as (Ht' & Hcl' & Hsl' & _ & _); [|done..].
    destruct (max_of content_ids) as [mc|]; [|done]. cbn [result_bind] in Hrun.
    destruct (max_of style_ids) as [ms|]; [|done]. cbn [result_bind] in Hrun.
    destruct (cnt' =? mc `max` ms)%nat.
    + by injection Hrun as <- <- <-.
    + by eapply IH.
Qed.

Lemma targets_match_start content_img style_img (mean std : list Number) :
  targets_match content_img style_img
    match mean, std with
    | _ :: _, _ :: _ => [Normalize mean std]
    | _, _ => []
    end.
Proof.
  intros before m after Heq.
  destruct mean, std; cbn in Heq;
    try (by destruct before);
    destruct before as [|? [|]]; try done; by injection Heq as <- _.
Qed.

(** X17: the loss modules [_get_model] returns.  Whenever it returns,
    every content loss of the model holds what the modules before it
    compute for the content image, every style loss holds the Gram
    matrix of what the modules before it compute for the style image
    (the losses placed earlier are part of that pass), and the two lists
    returned are the content losses and the style losses of the model,
    in the order of the model. *)
Theorem get_model_targets backbone content_img style_img content_ids style_ids
    mean std model content_losses style_losses :
  _get_model backbone content_img style_img content_ids style_ids mean std
    = Ok (model, content_losses, style_losses) ->
  targets_match content_img style_img model
  /\ content_losses = List.filter is_content_loss model
  /\ style_losses = List.filter is_style_loss model.
Proof.
  unfold _get_model. intros Hrun.
  eapply get_model_loop_spec; [exact Hrun|apply targets_match_start| |];
    by destruct mean, std.
Qed.

Lemma get_model_loop_layers content_ids style_ids content_img style_img mc ms layers :
  max_of content_ids = Ok mc -> max_of style_ids = Ok ms ->
  forall model cl sl cnt M CL SL,
    get_model_loop layers content_img style_img content_ids style_ids model cl sl cnt
      = Ok (M, CL, SL) ->
    targets_match content_img style_img model ->
    cl = List.filter is_content_loss model ->
    sl = List.filter is_style_loss model ->
    List.filter (fun m => negb (is_loss m)) M =
    List.filter (fun m => negb (is_loss m)) model
    ++ map copy_of (up_to_conv (Nat.max mc ms) layers cnt).
Proof.
  intros Hmc Hms.
  induction layers as [|layer rest IH]; intros model cl sl cnt M CL SL Hrun Ht Hcl Hsl.
  - cbn in Hrun. injection Hrun as <- _ _. cbn. by rewrite app_nil_r.
  - rewrite get_model_loop_turn in Hrun.
    destruct (turn layer content_img style_img content_ids style_ids model cl sl cnt)
      as [[[[model' cl'] sl'] cnt']|] eqn:Hturn; [|done].
    cbn [result_bind] in Hrun.
    apply turn_spec in Hturn as (Ht' & Hcl' & Hsl' & Hcnt & Hl); [|done..].
    rewrite Hmc, Hms in Hrun. cbn [result_bind] in Hrun.
    cbn [up_to_conv map]. rewrite <- Hcnt.
    destruct (cnt' =? mc `max` ms)%nat.
    + injection Hrun as <- _ _. by rewrite Hl.
    + eapply IH in Hrun; [|done..]. rewrite Hrun, Hl, <- app_assoc. done.
Qed.

(** X18: the layers [_get_model] takes from the backbone.  Without its
    loss modules the model is the normalisation (when a mean and a
    standard deviation are given) followed by the copies of the layers
    of the backbone up to the convolution whose number is the largest
    identifier of the two lists, that convolution included and nothing
    behind it, with every [nn.ReLU] replaced by one that is not in
    place.  With fewer convolutions in the backbone all layers are
    taken. *)
Theorem get_model_layers backbone content_img style_img content_ids style_ids
    mean std model content_losses style_losses last_content last_style :
  _get_model backbone content_img style_img content_ids style_ids mean std
    = Ok (model, content_losses, style_losses) ->
  max_of content_ids = Ok last_content ->
  max_of style_ids = Ok last_style ->
  List.filter (fun m => negb (is_loss m)) model =
  match mean, std with
  | _ :: _, _ :: _ => [Normalize mean std]
  | _, _ => []
  end ++ map copy_of (up_to_conv (Nat.max last_content last_style) backbone 0).
Proof.
  unfold _get_model. intros Hrun Hmc Hms.
  rewrite (get_model_loop_layers _ _ _ _ _ _ _ Hmc Hms _ _ _ _ _ _ _ Hrun);
    [|apply targets_match_start|by destruct mean, std..].
  by destruct mean, std.
Qed.

(** X19: the edges of [_get_model].  For a backbone without layers it
    returns the start of the model, without any loss and without looking
    at the identifiers.  For a backbone with layers and an empty list of
    content or of style identifiers it never returns a model, and with
    both lists empty the exception is the [ValueError] of [max]. *)
Theorem get_model_edges backbone content_img style_img content_ids style_ids mean std :
  (backbone = [] ->
     exists start,
       _get_model backbone content_img style_img content_ids style_ids mean std
       = Ok (start, [], [])
       /\ List.filter is_loss start = [])
  /\ (backbone <> [] -> content_ids = [] \/ style_ids = [] ->
      forall built,
        _get_model backbone content_img style_img content_ids style_ids mean std
        <> Ok built)
  /\ (backbone <> [] -> content_ids = [] -> style_ids = [] ->
      _get_model backbone content_img style_img content_ids style_ids mean std
      = Raise ValueError).
Proof.
  split; [|split].
  - intros ->. unfold _get_model. cbn. eexists. split; [done|].
    by destruct mean, std.
  - intros Hne Hids built. unfold _get_model. destruct backbone as [|layer rest]; [done|].
    rewrite get_model_loop_turn.
    match goal with |- context [turn ?a ?b ?c ?d ?e ?f ?g ?h ?i] =>
      destruct (turn a b c d e f g h i) as [[[[model' cl'] sl'] cnt']|]; [|done] end.
    cbn [result_bind].
    destruct Hids as [-> | ->]; [done|].
    by destruct (max_of content_ids).
  - intros Hne -> ->. unfold _get_model. destruct backbone as [|layer rest]; [done|].
    rewrite get_model_loop_turn. unfold turn. by destruct (kind_of layer).
Qed.

End models_properties.

Section decoding_properties.

Lemma all_ascii_complete c : In c all_ascii.
Proof.
  unfold all_ascii. apply in_map_iff. exists (nat_of_ascii c). split.
  - apply ascii_nat_embedding.
  - apply in_seq. pose proof (nat_ascii_bounded c). lia.
Qed.

Lemma forall_ascii (f : ascii -> bool) :
  forallb f all_ascii = true -> forall c, f c = true.
Proof. intros Hf c. eapply forallb_forall in Hf; [exact Hf|apply all_ascii_complete]. Qed.

Lemma check_alphabet_all c : check_alphabet c = true.
Proof. apply forall_ascii. vm_compute. reflexivity. Qed.

Lemma check_skipped_all c : check_skipped c = true.
Proof. apply forall_ascii. vm_compute. reflexivity. Qed.

Lemma str_encode_cons c s :
  str_encode (String c s) = str_encode (String c EmptyString) ++ str_encode s.
Proof. cbn. destruct (N_of_ascii c <? 128)%N; cbn; by rewrite ?app_nil_r. Qed.

Lemma a2b_loop_skip q l p b rest :
  Byte.eqb b Base64.BASE64_PAD = false -> Base64.a2b_char b = None ->
  Base64.a2b_loop q l p (b :: rest) = Base64.a2b_loop q l p rest.
Proof. intros Hp Hc. cbn [Base64.a2b_loop]. by rewrite Hp, Hc. Qed.

Lemma a2b_loop_skips q l p skipped rest :
  forallb (fun b => negb (Byte.eqb b Base64.BASE64_PAD)
                    && match Base64.a2b_char b with Some _ => false | None => true end)
    skipped = true ->
  Base64.a2b_loop q l p (skipped ++ rest) = Base64.a2b_loop q l p rest.
Proof.
  induction skipped as [|b skipped IH]; [done|]. cbn [forallb app].
  intros [[Hp Hc]%andb_true_iff Hs]%andb_true_iff.
  apply negb_true_iff in Hp. destruct (Base64.a2b_char b) eqn:Hb; [done|].
  rewrite a2b_loop_skip by done. by apply IH.
Qed.

Lemma a2b_loop_same_head q l p bs rest rest' :
  (forall q l p, Base64.a2b_loop q l p rest = Base64.a2b_loop q l p rest') ->
  Base64.a2b_loop q l p (bs ++ rest) = Base64.a2b_loop q l p (bs ++ rest').
Proof.
  intros Hr. revert q l p. induction bs as [|b bs IH]; intros q l p; [apply Hr|].
  cbn [app Base64.a2b_loop].
  destruct (Byte.eqb b Base64.BASE64_PAD).
  - destruct (2 <=? q)%N; [|apply IH].
    destruct (4 <=? q + (p + 1))%N; [done|apply IH].
  - destruct (Base64.a2b_char b); [|apply IH].
    destruct q as [|[[|[]|]|[]|]]; by rewrite ?IH.
Qed.

Lemma decode_keep s : forall q l p,
  Base64.a2b_loop q l p (str_encode (keep significant s))
  = Base64.a2b_loop q l p (str_encode s).
Proof.
  induction s as [|c s IH]; intros q l p; [done|].
  cbn [keep]. destruct (significant c) eqn:Hc.
  - rewrite (str_encode_cons c s), (str_encode_cons c (keep significant s)).
    by apply a2b_loop_same_head.
  - rewrite IH, (str_encode_cons c s). symmetry. apply a2b_loop_skips.
    pose proof (check_skipped_all c) as Hk. unfold check_skipped in Hk.
    by rewrite Hc in Hk.
Qed.


Lemma a2b_loop_unpadded bs : forall q l p,
  (q < 4)%N ->
  Forall (fun b => Byte.eqb b Base64.BASE64_PAD = false
                   /\ is_Some (Base64.a2b_char b)) bs ->
  is_Some (Base64.a2b_loop q l p bs) <-> (N.to_nat q + length bs) mod 4 = 0.
Proof.
  induction bs as [|b bs IH]; intros q l p Hq Hall.
  - cbn [Base64.a2b_loop length]. rewrite Nat.add_0_r.
    destruct (q =? 0)%N eqn:H0.
    + apply N.eqb_eq in H0 as ->. split; [done|by eexists].
    + apply N.eqb_neq in H0. split; [by intros []|].
      intros Hm. rewrite Nat.mod_small in Hm by lia. lia.
  - apply Forall_cons in Hall as [[Hp [v Hv]] Hall].
    cbn [Base64.a2b_loop length]. rewrite Hp, Hv.
    assert (Hcases : (q = 0 \/ q = 1 \/ q = 2 \/ q = 3)%N) by lia.
    destruct Hcases as [-> | [-> | [-> | ->]]];
      rewrite ?fmap_is_Some, IH by (done || lia);
      change (N.to_nat 0) with 0; change (N.to_nat 1) with 1;
      change (N.to_nat 2) with 2; change (N.to_nat 3) with 3.
    + by replace (0 + S (length bs)) with (1 + length bs) by lia.
    + by replace (1 + S (length bs)) with (2 + length bs) by lia.
    + by replace (2 + S (length bs)) with (3 + length bs) by lia.
    + replace (3 + S (length bs)) with (0 + length bs + 1 * 4) by lia.
      by rewrite Nat.Div0.mod_add.
Qed.

Lemma alphabet_bytes s :
  Forall (fun c => in_alphabet c = true) (list_ascii_of_string s) ->
  length (str_encode s) = String.length s
  /\ Forall (fun b => Byte.eqb b Base64.BASE64_PAD = false
                     /\ is_Some (Base64.a2b_char b)) (str_encode s).
Proof.
  induction s as [|c s IH]; [done|]. cbn [list_ascii_of_string].
  intros [Hc Hs]%Forall_cons. destruct (IH Hs) as [Hl Hf].
  rewrite str_encode_cons. pose proof (check_alphabet_all c) as Hk.
  unfold check_alphabet in Hk. rewrite Hc in Hk. cbn [implb] in Hk.
  destruct (str_encode (String c EmptyString)) as [|b [|]]; try done.
  apply andb_true_iff in Hk as [Hp Hv]. apply negb_true_iff in Hp.
  cbn [app length String.length]. split; [by rewrite Hl|].
  constructor; [|done]. split; [done|]. by destruct (Base64.a2b_char b).
Qed.

(** X21: a text of alphabet characters only, without padding, decodes
    if and only if its length is a multiple of four; any other length
    is an error, for the helper of the bot and for the helper of the
    service. *)
Theorem base64_to_image_unpadded s :
  Forall (fun c => in_alphabet c = true) (list_ascii_of_string s) ->
  (is_Some (BotApp.images.base64_to_image s) <-> String.length s mod 4 = 0)
  /\ (is_Some (ModelApp.images.base64_to_image s) <-> String.length s mod 4 = 0).
Proof.
  intros Hs. destruct (alphabet_bytes s Hs) as [Hl Hf].
  unfold BotApp.images.base64_to_image, ModelApp.images.base64_to_image,
    Base64.decodebytes, Base64.a2b_base64.
  rewrite !fmap_is_Some, (a2b_loop_unpadded _ 0 0 0) by done.
  cbn [N.to_nat Nat.add]. by rewrite Hl.
Qed.

End decoding_properties.

Section examples_properties.
Import BotApp BotApp.requests BotApp.messages ModelApp.examples.
Context `{ModelApp.Torch} `{Files} `{Env}.

Lemma get_examples_ok pngs :
  Forall2 (fun style png => transformed_png style = Ok png)
    ["style_monet"; "style_vangogh"; "style_cezanne"; "style_ukiyoe"; "style_custom"]
    pngs ->
  get_examples = Ok {[ "example_images" := JList (map (fun p => JStr (base64_text p)) pngs) ]}.
Proof.
  intros Hp. unfold get_examples.
  rewrite (result_map_Forall2 _ _ (map base64_text pngs)).
  - cbn. by rewrite map_map.
  - apply Forall2_fmap_r. eapply Forall2_impl; [exact Hp|].
    intros style png ->. cbn [result_bind]. by rewrite model_image_to_base64.
Qed.

(** X22: the [/examples] command against the [/examples] rule of the
    service.  When the five example files of the service can be read,
    [examples_cmd_handler] announces the examples, makes one POST to the
    [examples] URL with the credentials and the timeout 60, and sends
    one media group with the PNG files of the five styles, in the order
    Monet, van Gogh, Cezanne, Ukiyo-e, custom. *)
Theorem examples_delivered users pwhash examples pngs message w :
  get_examples = Ok examples ->
  Forall2 (fun style png => transformed_png style = Ok png)
    ["style_monet"; "style_vangogh"; "style_cezanne"; "style_ukiyoe"; "style_custom"]
    pngs ->
  (forall url body timeout, http_post url body timeout = served_examples users examples body) ->
  users !! username config = Some pwhash ->
  ModelApp.check_password_hash pwhash (password config) = true ->
  username config <> EmptyString -> password config <> EmptyString ->
  (forall c, api_error c = None) ->
  examples_cmd_handler message w =
  (Ok tt,
   mkWorld (meanwhile (session w))
     (trace w ++
      [ Answer HERE_ARE_EXAMPLES;
        Post (requests.get_api_url (model_url config) "examples")
          {[ "username" := JStr (username config);
             "password" := JStr (password config) ]} 60;
        AnswerMediaGroup (map BytesIO_new pngs) ])).
Proof.
  intros Hex Hp Hpost Hu Hc Hn Hq Hapi.
  rewrite (get_examples_ok pngs Hp) in Hex. injection Hex as <-.
  unfold examples_cmd_handler. rewrite api_ok_run by done.
  erewrite bind_run.
  2:{ unfold request_examples. rewrite post_run. cbn zeta. rewrite Hpost.
      unfold served_examples, examples_rule.
      rewrite login_authenticated.
      2:{ exists (username config), pwhash, (password config).
          by repeat split. }
      unfold ExamplesAPI_post. rewrite decide_False.
      2:{ intros Heq. apply (f_equal (fun m => m !! "username")) in Heq.
          by rewrite lookup_insert_eq, lookup_empty in Heq. }
      cbn [snd ModelApp.ret].
      rewrite lift_run. unfold getitem. rewrite lookup_singleton_eq.
      rewrite lift_run. cbn [iterate]. unfold lift.
      rewrite result_map_map.
      rewrite (result_map_ok _ BytesIO_new).
      2:{ apply Forall_forall. intros p _. cbn [as_str result_bind].
          unfold images.base64_to_image. by rewrite base64_text_decode. }
      reflexivity. }
  cbn beta iota. rewrite api_run, Hapi. cbn [session trace].
  by rewrite <- !app_assoc.
Qed.

End examples_properties.

Section credentials_properties.
Import BotApp BotApp.messages BotApp.fsm BotApp.callbacks BotApp.errors.
Context `{ModelApp.Torch} `{Env}.

Lemma served_rejected users body :
  ~ authenticated users body -> served users body = Raise ContentTypeError.
Proof.
  intros Hno. unfold served, ModelApp.views.transfer.
  destruct (login_rejected users body Hno) as (r & Hr & Hd).
  rewrite Hr. cbn [snd]. destruct r as [[d|s]|e]; [by destruct (Hd d)|done..].
Qed.

(** X23: a bot whose credentials the service does not accept.  When the
    configured user is not in the table of the service, or the
    configured password does not match its hash, a photo sent for a
    pretrained style is still posted to the service, but the answer is
    no JSON: the conversation is finished (no state, no data), no image
    is sent, and the user is told that something went wrong. *)
Theorem wrong_credentials_apology users name message b w :
  (forall url body timeout, http_post url body timeout = served users body) ->
  (forall pwhash,
     users !! username config = Some pwhash ->
     ModelApp.check_password_hash pwhash (password config) = false) ->
  (forall c, api_error c = None) ->
  state (session w) = Some send_content_images ->
  data (session w) !! "style" = Some (VStr name) ->
  data (session w) !! "style_image" = Some VNone ->
  fetched message = Ok b ->
  let d := <["content_images" := VBuffers [b]]> (data (session w)) in
  guarded (receive_content_image_handler message) w =
  (Ok tt,
   mkWorld (mkSession None ∅)
     (trace w ++
      [ SetData d; SetState (Some await_model_response); Answer MAGIC_BEGUN;
        Post (requests.get_api_url (model_url config) "transfer")
          (pretrained_request name [b]) 600;
        SetState None; SetData ∅; Answer WENT_WRONG ])).
Proof.
  intros Hpost Hbad Hapi Hst Hstyle Hsi Hf d.
  apply (request_failure_guarded ContentTypeError); try done.
  intros url timeout. rewrite Hpost. apply served_rejected.
  intros (user & pwhash & pwd & Hu & _ & Hp & _ & Ht & Hc).
  assert (Hu' : pretrained_request name [b] !! "username" = Some (JStr (username config)))
    by done.
  assert (Hp' : pretrained_request name [b] !! "password" = Some (JStr (password config)))
    by done.
  rewrite Hu' in Hu. rewrite Hp' in Hp. injection Hu as <-. injection Hp as <-.
  rewrite (Hbad _ Ht) in Hc. discriminate.
Qed.

End credentials_properties.

Section more_examples.
Import BotApp BotApp.messages BotApp.callbacks BotApp.middlewares BotApp.errors.
Import ModelApp.examples ModelApp.image_pool ModelApp.models BotApp.requests.

(** [login_gate] on a request of the user [bot], with the right and
    with a wrong password. *)
Lemma login_gate_witness :
  @ModelApp.views.login toy_torch toy_users ModelApp.views.post (Some monet_request)
  = @ModelApp.views.post toy_torch (Some monet_request)
  /\ exists r,
      (forall view,
         @ModelApp.views.login toy_torch toy_users view
           (Some (<["password" := JStr "guess"]> monet_request)) = ([], r))
      /\ (forall d, r <> Ok (ModelApp.views.Body d)).
Proof.
  split.
  - apply (@login_gate toy_torch toy_users ModelApp.views.post monet_request).
    exists "bot", "secret", "secret". by repeat split.
  - apply (@login_gate toy_torch toy_users ModelApp.views.post
             (<["password" := JStr "guess"]> monet_request)).
    intros (name & pwhash & password & Hu & _ & Hp & _ & Ht & Hc).
    vm_compute in Hu. injection Hu as <-. vm_compute in Ht. injection Ht as <-.
    vm_compute in Hp. injection Hp as <-. vm_compute in Hc. discriminate.
Defined.

(** [empty_content_images] on an unregistered style and on the custom
    style. *)
Lemma empty_content_images_witness :
  @ModelApp.views.post toy_torch (Some unknown_style_request)
  = ([], Ok (ModelApp.views.Body {[ "fitted_images" := JList [] ]}))
  /\ @ModelApp.views.post toy_torch (Some custom_without_content)
     = ([], Raise ValueError).
Proof.
  split.
  - apply (@empty_content_images toy_torch unknown_style_request (JStr "style_picasso"));
      reflexivity.
  - apply (proj2 (@empty_content_images toy_torch custom_without_content
                    (JStr "style_custom") eq_refl eq_refl)
             (JStr (b64 "S")) (list_byte_of_string "S")); reflexivity.
Defined.

(** [one_output_per_input] on a request with two content images. *)
Lemma one_output_per_input_witness :
  exists encoded,
    ({[ "fitted_images" := JList [JStr (b64 "cba"); JStr (b64 "zyx")] ]} : gmap string json)
    = {[ "fitted_images" := JList (map JStr encoded) ]}
    /\ length encoded = 2.
Proof.
  apply (@one_output_per_input toy_torch monet_request
           [@ModelApp.ModelTested toy_torch "style_monet_pretrained" (list_byte_of_string "abc");
            @ModelApp.ModelTested toy_torch "style_monet_pretrained" (list_byte_of_string "xyz")]
           _ (JList [JStr (b64 "abc"); JStr (b64 "xyz")])
           [JStr (b64 "abc"); JStr (b64 "xyz")]).
  - vm_compute. reflexivity.
  - reflexivity.
  - reflexivity.
Defined.

(** [pretrained_round_trip] on three buffers: the sample model reverses
    them. *)
Lemma pretrained_round_trip_witness :
  @requests.request_style_transfer toy_env "https://model/transfer"
    (VStr "style_monet") VNone (VBuffers gallery_images) "bot" "secret" false w0
  = (Ok ([ BytesIO_new (list_byte_of_string "cba");
           BytesIO_new (list_byte_of_string "gfed");
           BytesIO_new (list_byte_of_string "ih") ],
         VNone, VBuffers (map at_end gallery_images)),
     mkWorld (session w0)
       [Post "https://model/transfer"
          (@pretrained_request toy_env "style_monet" gallery_images) 1800]).
Proof.
  apply (@pretrained_round_trip toy_torch toy_env toy_users "style_monet"
           "style_monet_pretrained" gallery_images
           [list_byte_of_string "abc"; list_byte_of_string "defg"; list_byte_of_string "hi"]
           "secret" "https://model/transfer" false w0).
  - intros. reflexivity.
  - reflexivity.
  - reflexivity.
  - discriminate.
  - discriminate.
  - discriminate.
  - reflexivity.
  - repeat constructor.
Defined.

(** [pretrained_conversation] for [style_monet] and one photo. *)
Lemma pretrained_conversation_witness :
  let run :=
    (let! _ := @receive_chosen_style_callback_handler toy_env "style_monet" in
     @receive_content_image_handler toy_env (photo_msg 1 None "abc"))%M w_start in
  fst run = Ok tt
  /\ session (snd run) = mkSession None ∅
  /\ In (AnswerPhoto (BytesIO_new (list_byte_of_string "cba"))) (calls_of w_start run)
  /\ In (SetData {[ "style" := VStr "style_monet"; "style_image" := VNone;
                    "content_images" := VBuffers [mkBytesIO (list_byte_of_string "abc") 3] ]})
        (calls_of w_start run).
Proof.
  destruct (@pretrained_conversation toy_torch toy_env toy_users "style_monet"
              "style_monet_pretrained" "secret" (photo_msg 1 None "abc")
              (BytesIO_new (list_byte_of_string "abc")) (list_byte_of_string "abc") w_start)
    as (Hr & Hs & Hc).
  - intros. reflexivity.
  - reflexivity.
  - reflexivity.
  - discriminate.
  - discriminate.
  - discriminate.
  - reflexivity.
  - reflexivity.
  - reflexivity.
  - reflexivity.
  - reflexivity.
  - reflexivity.
  - split; [exact Hr|]. split; [exact Hs|]. rewrite Hc.
    split; [repeat (first [left; reflexivity | right])|].
    repeat (first [left; vm_compute; reflexivity | right]).
Defined.

(** [custom_conversation] on a style photo and a content photo: the
    sample fitting prepends the style. *)
Lemma custom_conversation_witness :
  let run :=
    (let! _ := @receive_chosen_style_callback_handler toy_env "style_custom" in
     let! _ := @receive_style_image_handler toy_env (photo_msg 1 None "S") in
     @receive_content_image_handler toy_env (photo_msg 2 None "abc"))%M w_start in
  fst run = Ok tt
  /\ session (snd run) = mkSession None ∅
  /\ In (AnswerPhoto (BytesIO_new (list_byte_of_string "Sabc"))) (calls_of w_start run)
  /\ In (SetData {[ "style" := VStr "style_custom";
                    "style_image" := VBuffer (mkBytesIO (list_byte_of_string "S") 1);
                    "content_images" := VBuffers [mkBytesIO (list_byte_of_string "abc") 3] ]})
        (calls_of w_start run).
Proof.
  destruct (@custom_conversation toy_torch toy_env toy_users "secret"
              (photo_msg 1 None "S") (photo_msg 2 None "abc")
              (BytesIO_new (list_byte_of_string "S")) (list_byte_of_string "S")
              (BytesIO_new (list_byte_of_string "abc")) (list_byte_of_string "abc") w_start)
    as (Hr & Hs & Hc).
  - intros. reflexivity.
  - reflexivity.
  - reflexivity.
  - discriminate.
  - discriminate.
  - reflexivity.
  - reflexivity.
  - reflexivity.
  - reflexivity.
  - reflexivity.
  - reflexivity.
  - reflexivity.
  - reflexivity.
  - split; [exact Hr|]. split; [exact Hs|]. rewrite Hc.
    split; [repeat (first [left; reflexivity | right])|].
    repeat (first [left; vm_compute; reflexivity | right]).
Defined.

(** [failed_download_changes_nothing] when Telegram refuses the
    downloads. *)
Lemma failed_download_changes_nothing_witness :
  @receive_style_image_handler offline_env (photo_msg 1 None "abc") w0
  = (Raise TelegramAPIError, w0)
  /\ @receive_content_image_handler offline_env (photo_msg 1 None "abc") w0
     = (Raise TelegramAPIError, w0)
  /\ @receive_content_images_handler offline_env (photo_msg 1 (Some "g") "abc") gallery w0
     = (Raise TelegramAPIError, w0).
Proof.
  destruct (@failed_download_changes_nothing offline_env (photo_msg 1 None "abc") gallery
              TelegramAPIError w0) as [H1 H2].
  split; [apply H1; reflexivity|]. split; [apply H1; reflexivity|].
  apply (proj2 (@failed_download_changes_nothing offline_env
                  (photo_msg 1 (Some "g") "abc") gallery TelegramAPIError w0)).
  reflexivity.
Defined.

(** [failed_request_apology] when the request times out. *)
Lemma failed_request_apology_witness :
  @guarded busy_env (@receive_content_image_handler busy_env (photo_msg 1 None "abc")) w0
  = (Ok tt,
     mkWorld (mkSession None ∅)
       [ SetData (<["content_images" := VBuffers [BytesIO_new (list_byte_of_string "abc")]]>
                    (data (session w0)));
         SetState (Some await_model_response); Answer MAGIC_BEGUN;
         Post "https://model/transfer"
           (@pretrained_request busy_env "style_monet"
              [BytesIO_new (list_byte_of_string "abc")]) 600;
         SetState None; SetData ∅; Answer TOO_BUSY ]).
Proof.
  apply (@failed_request_apology busy_env TimeoutError "style_monet"
           (photo_msg 1 None "abc") (BytesIO_new (list_byte_of_string "abc")) w0).
  - discriminate.
  - intros. reflexivity.
  - intros. reflexivity.
  - reflexivity.
  - reflexivity.
  - reflexivity.
  - reflexivity.
Defined.

(** [media_group_released] on a gallery of four photos and a fifth
    that comes late. *)
Lemma media_group_released_witness :
  media_group_data
    (fst (run (map Arrives gallery
               ++ [Wakes (photo_msg 1 (Some "g") "abc");
                   Finishes (photo_msg 1 (Some "g") "abc")]) empty_gathering))
  = ∅
  /\ snd (run (map Arrives gallery
               ++ [Wakes (photo_msg 1 (Some "g") "abc");
                   Finishes (photo_msg 1 (Some "g") "abc")]
               ++ [Arrives (photo_msg 5 (Some "g") "late");
                   Wakes (photo_msg 5 (Some "g") "late")]) empty_gathering)
     = [ Dropped (photo_msg 2 (Some "g") "defg"); Dropped (photo_msg 3 (Some "g") "hi");
         Dropped (photo_msg 4 (Some "g") "jkl");
         Handled (photo_msg 1 (Some "g") "abc") (Some gallery);
         Handled (photo_msg 5 (Some "g") "late") (Some [photo_msg 5 (Some "g") "late"]) ].
Proof.
  apply (media_group_released "g" (photo_msg 1 (Some "g") "abc")
           [photo_msg 2 (Some "g") "defg"; photo_msg 3 (Some "g") "hi";
            photo_msg 4 (Some "g") "jkl"] (photo_msg 5 (Some "g") "late") empty_gathering).
  - reflexivity.
  - repeat constructor.
  - reflexivity.
  - reflexivity.
Defined.

(** [content_loss_at_target] on an activation of binary32 numbers. *)
Lemma content_loss_at_target_witness :
  @ModelApp.losses.numel binary32 activation = 4
  /\ ModelApp.losses.content_loss
       (fst (ModelApp.losses.ContentLoss_forward (ModelApp.losses.ContentLoss_init activation)
               activation))
     = Some (SpecFloat.S754_zero false).
Proof.
  split; [reflexivity|].
  apply (@content_loss_at_target binary32 binary32_laws activation).
  split; [cbn; lia|]. split; [reflexivity|]. repeat constructor.
Defined.


(** What that call returns: the second stored image is swapped for the
    first image of the batch. *)
Example image_pool_swap :
  query full_pool [30; 40] swap_once 0
  = inr ([20; 40], mkImagePool 2 (Some (2, [10; 30])), 2).
Proof. reflexivity. Qed.

(** [image_pool_warm_up] on a new pool of size three and a batch of two. *)
Lemma image_pool_warm_up_witness :
  query (ImagePool_init 3) [30; 40] swap_once 0
  = inr ([30; 40], mkImagePool 3 (Some (2, [30; 40])), 0).
Proof.
  apply (image_pool_warm_up (ImagePool_init 3) 0 [] [30; 40] swap_once 0).
  - reflexivity.
  - reflexivity.
  - discriminate.
  - cbn. lia.
Defined.

(** [get_model_targets] on the sample backbone. *)
Lemma get_model_targets_witness :
  @targets_match toy_network ["content"] ["style"] toy_model
  /\ [ @ContentLossOf toy_network ["content"; "normalize"; "conv1"; "relu"; "conv2"] ]
     = List.filter is_content_loss toy_model
  /\ [ @StyleLossOf toy_network ["style"; "normalize"; "conv1"; "gram"];
       @StyleLossOf toy_network ["style"; "normalize"; "conv1"; "relu"; "conv2"; "gram"] ]
     = List.filter is_style_loss toy_model.
Proof.
  apply (@get_model_targets toy_network toy_backbone ["content"] ["style"] [2] [1; 2]
           [1] [1]).
  vm_compute. reflexivity.
Defined.

(** [get_model_layers] on the sample backbone: the layers behind the
    second convolution are not taken. *)
Lemma get_model_layers_witness :
  List.filter (fun m => negb (is_loss m)) toy_model
  = [ @Normalize toy_network [1] [1]; @Copied toy_network (Conv2d, "conv1");
      @ReLU_not_inplace toy_network; @Copied toy_network (Conv2d, "conv2") ].
Proof.
  apply (@get_model_layers toy_network toy_backbone ["content"] ["style"] [2] [1; 2]
           [1] [1] toy_model
           [@ContentLossOf toy_network ["content"; "normalize"; "conv1"; "relu"; "conv2"]]
           [@StyleLossOf toy_network ["style"; "normalize"; "conv1"; "gram"];
            @StyleLossOf toy_network ["style"; "normalize"; "conv1"; "relu"; "conv2"; "gram"]]
           2 2).
  - vm_compute. reflexivity.
  - reflexivity.
  - reflexivity.
Defined.

(** [base64_to_image_unpadded] on a text of four and on a text of five
    characters. *)
Lemma base64_to_image_unpadded_witness :
  is_Some (BotApp.images.base64_to_image "QUJD")
  /\ ~ is_Some (BotApp.images.base64_to_image "QUJDR").
Proof.
  split.
  - apply (proj1 (base64_to_image_unpadded "QUJD" ltac:(repeat constructor))).
    reflexivity.
  - intros Hs.
    apply (proj1 (base64_to_image_unpadded "QUJDR" ltac:(repeat constructor))) in Hs.
    discriminate Hs.
Defined.

(** [examples_delivered] on the sample example files. *)
Lemma examples_delivered_witness :
  @examples_cmd_handler examples_env (text_msg 1) w0
  = (Ok tt,
     mkWorld (session w0)
       [ Answer HERE_ARE_EXAMPLES;
         Post "https://model/examples"
           {[ "username" := JStr "bot"; "password" := JStr "secret" ]} 60;
         AnswerMediaGroup (map BytesIO_new toy_pngs) ]).
Proof.
  apply (@examples_delivered toy_torch toy_files examples_env toy_users "secret"
           toy_examples toy_pngs (text_msg 1) w0).
  - vm_compute. reflexivity.
  - repeat constructor.
  - intros. reflexivity.
  - reflexivity.
  - reflexivity.
  - discriminate.
  - discriminate.
  - intros. reflexivity.
Defined.

(** [pretrained_gallery] on a gallery of four photos: three are
    transformed. *)
Lemma pretrained_gallery_witness :
  @receive_content_images_handler toy_env (photo_msg 1 (Some "g") "abc") gallery w0
  = (Ok tt,
     mkWorld (mkSession None ∅)
       [ SetData (<["content_images" := VBuffers gallery_images]> (data (session w0)));
         SetState (Some await_model_response); Answer MAGIC_BEGUN;
         Post "https://model/transfer"
           (@pretrained_request toy_env "style_monet" gallery_images) 1800;
         SetData (<["content_images" := VBuffers (map at_end gallery_images)]>
                    (data (session w0)));
         Answer HERE_YOU_ARE;
         AnswerMediaGroup
           [ BytesIO_new (list_byte_of_string "cba");
             BytesIO_new (list_byte_of_string "gfed");
             BytesIO_new (list_byte_of_string "ih") ];
         SetState None; SetData ∅ ]).
Proof.
  apply (@pretrained_gallery toy_torch toy_env toy_users "style_monet"
           "style_monet_pretrained" "secret" (photo_msg 1 (Some "g") "abc") gallery
           gallery_images
           [list_byte_of_string "abc"; list_byte_of_string "defg"; list_byte_of_string "hi"]
           w0).
  - intros. reflexivity.
  - reflexivity.
  - reflexivity.
  - discriminate.
  - discriminate.
  - discriminate.
  - reflexivity.
  - intros. reflexivity.
  - intros. reflexivity.
  - reflexivity.
  - reflexivity.
  - reflexivity.
  - discriminate.
  - repeat constructor; discriminate.
  - repeat constructor.
  - repeat constructor.
Defined.

(** [wrong_credentials_apology] for a bot with a wrong password. *)
Lemma wrong_credentials_apology_witness :
  @guarded stranger_env
    (@receive_content_image_handler stranger_env (photo_msg 1 None "abc")) w0
  = (Ok tt,
     mkWorld (mkSession None ∅)
       [ SetData (<["content_images" := VBuffers [BytesIO_new (list_byte_of_string "abc")]]>
                    (data (session w0)));
         SetState (Some await_model_response); Answer MAGIC_BEGUN;
         Post "https://model/transfer"
           (@pretrained_request stranger_env "style_monet"
              [BytesIO_new (list_byte_of_string "abc")]) 600;
         SetState None; SetData ∅; Answer WENT_WRONG ]).
Proof.
  apply (@wrong_credentials_apology toy_torch stranger_env toy_users "style_monet"
           (photo_msg 1 None "abc") (BytesIO_new (list_byte_of_string "abc")) w0).
  - intros. reflexivity.
  - intros pwhash Hu. vm_compute in Hu. injection Hu as <-. reflexivity.
  - intros. reflexivity.
  - reflexivity.
  - reflexivity.
  - reflexivity.
  - reflexivity.
Defined.

(** Two messages 100 ms apart are too close for the registered
    middleware; a message of a media group is never too early. *)
Example too_early_registered :
  too_early (limit_of registered_throttling other_handler)
    [(0, text_msg 0)]%Z 100 (text_msg 1) = true
  /\ too_early (limit_of registered_throttling other_handler)
       [(0, text_msg 0)]%Z 600 (text_msg 1) = false
  /\ too_early (limit_of registered_throttling other_handler)
       [(0, text_msg 0)]%Z 100 (photo_msg 1 (Some "g") "abc") = false.
Proof. repeat split. Qed.

End more_examples.
